(** * mediasoup-go: the control plane of the SFU, embedded in Rocq

    The development follows the Go package [mediasoup]:
    - [rtp_capabilities.go]: the table of supported RTP capabilities and
      [GetSupportedRtpCapabilities];
    - [consumer.go]: the [Consumer] object, its operations and the handlers of
      the worker's notifications;
    - the pipe transport ([PipeTransport], its [Close], [routerClosed],
      [Connect] and [Consume]);
    - [worker.go]: the [Worker] supervisor ([NewWorker], [wait], [Close] and
      the supervised requests).

    Go values are kept as the code has them: [uint32] and [uint8] as [N], [int]
    as [Z], [[]byte] as [list Byte.byte], a pointer as an address into a typed
    store, a slice as a header (backing array, length, capacity), [sync.Map] as
    a [gmap].  Objects that the code shares by pointer (the two channels, the
    consumers of a transport, the routers of a worker) live in one [World],
    and every method is a state transformer on it. *)

From Stdlib Require Import ZArith NArith String List Bool Lia.
From stdpp Require Import gmap strings list fin_maps pretty.

Local Open Scope Z_scope.

(** ** RTP capabilities (rtp_capabilities.go) *)

Module Rtp.

(** A Go slice header.  [s_arr = None] is the nil slice; no slice of the
    package is ever re-sliced, so the offset into the array is always 0. *)
Record slice := { s_arr : option nat; s_len : nat; s_cap : nat }.

Definition nil_slice : slice := {| s_arr := None; s_len := 0; s_cap := 0 |}.

Record RtcpFeedback := { fbType : string; fbParameter : string }.

(** [h264profile.RtpH264Parameter]: the package is outside the repository's
    sources here; the capabilities table sets these two fields of it. *)
Record RtpH264Parameter := {
  PacketizationMode : Z;
  LevelAsymmetryAllowed : Z
}.

Record RtpParameter := {
  H264 : RtpH264Parameter;
  Apt : Z;
  Useinbandfec : Z
}.

Record RtpCodecCapability := {
  Kind : string;
  MimeType : string;
  ClockRate : Z;
  Channels : Z;
  PreferredPayloadType : Z;
  Parameters : option nat;      (* *RtpParameter: an address, or nil *)
  RtcpFeedbacks : slice         (* []RtcpFeedback *)
}.

Record RtpHeaderExtension := {
  hKind : string;
  Uri : string;
  PreferredId : Z;
  PreferredEncrypt : bool
}.

Record RtpCapabilities := {
  Codecs : slice;               (* []RtpCodecCapability *)
  HeaderExtensions : slice;     (* []RtpHeaderExtension *)
  FecMechanisms : slice         (* []string *)
}.

(** The memory the package's values live in: one family of backing arrays
    per element type, the cells that [*RtpParameter] points to, and the
    package-level variable [supportedRtpCapabilities]. *)
Record Store := {
  codecArrays : list (list RtpCodecCapability);
  feedbackArrays : list (list RtcpFeedback);
  headerArrays : list (list RtpHeaderExtension);
  stringArrays : list (list string);
  parameterCells : list RtpParameter;
  supportedRtpCapabilities : RtpCapabilities
}.

Definition audio (mime : string) (rate channels ppt : Z) : RtpCodecCapability :=
  {| Kind := "audio"; MimeType := mime; ClockRate := rate; Channels := channels;
     PreferredPayloadType := ppt; Parameters := None; RtcpFeedbacks := nil_slice |}.

Definition video (mime : string) (params : option nat) (fb : nat) : RtpCodecCapability :=
  {| Kind := "video"; MimeType := mime; ClockRate := 90000; Channels := 0;
     PreferredPayloadType := 0; Parameters := params;
     RtcpFeedbacks := {| s_arr := Some fb; s_len := 4; s_cap := 4 |} |}.

Definition videoFeedback : list RtcpFeedback :=
  [ {| fbType := "nack"; fbParameter := EmptyString |};
    {| fbType := "nack"; fbParameter := "pli" |};
    {| fbType := "ccm"; fbParameter := "fir" |};
    {| fbType := "goog-remb"; fbParameter := EmptyString |} ].

Definition h264Parameter (mode : Z) : RtpParameter :=
  {| H264 := {| PacketizationMode := mode; LevelAsymmetryAllowed := 1 |};
     Apt := 0; Useinbandfec := 0 |}.

Definition supportedCodecs : list RtpCodecCapability :=
  [ audio "audio/opus" 48000 2 0;
    audio "audio/PCMU" 8000 0 0;
    audio "audio/PCMA" 8000 0 8;
    audio "audio/ISAC" 32000 0 0;
    audio "audio/ISAC" 16000 0 0;
    audio "audio/G722" 8000 0 9;
    audio "audio/iLBC" 8000 0 0;
    audio "audio/SILK" 24000 0 0;
    audio "audio/SILK" 16000 0 0;
    audio "audio/SILK" 12000 0 0;
    audio "audio/SILK" 8000 0 0;
    audio "audio/CN" 32000 0 13;
    audio "audio/CN" 16000 0 13;
    audio "audio/CN" 8000 0 13;
    audio "audio/telephone-event" 48000 0 0;
    audio "audio/telephone-event" 32000 0 0;
    audio "audio/telephone-event" 16000 0 0;
    audio "audio/telephone-event" 8000 0 0;
    video "video/VP8" None 0;
    video "video/VP9" None 1;
    video "video/H264" (Some 0%nat) 2;
    video "video/H264" (Some 1%nat) 3;
    video "video/H265" (Some 2%nat) 4;
    video "video/H265" (Some 3%nat) 5 ].

Definition headerExtension (kind uri : string) (id : Z) : RtpHeaderExtension :=
  {| hKind := kind; Uri := uri; PreferredId := id; PreferredEncrypt := false |}.

Definition supportedHeaderExtensions : list RtpHeaderExtension :=
  [ headerExtension "audio" "urn:ietf:params:rtp-hdrext:ssrc-audio-level" 1;
    headerExtension "video" "urn:ietf:params:rtp-hdrext:toffset" 2;
    headerExtension "audio" "http://www.webrtc.org/experiments/rtp-hdrext/abs-send-time" 3;
    headerExtension "video" "http://www.webrtc.org/experiments/rtp-hdrext/abs-send-time" 3;
    headerExtension "video" "urn:3gpp:video-orientation" 4;
    headerExtension "audio" "urn:ietf:params:rtp-hdrext:sdes:mid" 5;
    headerExtension "video" "urn:ietf:params:rtp-hdrext:sdes:mid" 5;
    headerExtension "video" "urn:ietf:params:rtp-hdrext:sdes:rtp-stream-id" 6;
    headerExtension "video" "urn:ietf:params:rtp-hdrext:sdes:repaired-rtp-stream-id" 7 ].

(** The store after package initialisation: the composite literal of
    [supportedRtpCapabilities] allocates one array of codecs, one array of
    header extensions, one feedback array per video codec and one
    [RtpParameter] per H264/H265 entry. *)
Definition initStore : Store :=
  {| codecArrays := [supportedCodecs];
     feedbackArrays := replicate 6 videoFeedback;
     headerArrays := [supportedHeaderExtensions];
     stringArrays := [];
     parameterCells := [h264Parameter 1; h264Parameter 0; h264Parameter 1; h264Parameter 0];
     supportedRtpCapabilities :=
       {| Codecs := {| s_arr := Some 0%nat; s_len := 24; s_cap := 24 |};
          HeaderExtensions := {| s_arr := Some 0%nat; s_len := 9; s_cap := 9 |};
          FecMechanisms := nil_slice |} |}.

(** [copier.Copy(to, from)] of github.com/jinzhu/copier, a third-party
    library, on two structs of one type: every field of [from] is assigned to
    the field of [to] with the same name through [reflect.Value.Set].  The
    three fields of [RtpCapabilities] are slices, and assigning a slice
    copies its header, not its backing array (the library copies arrays only
    under its [DeepCopy] option, which [Copy] does not set). *)
Definition copier_Copy (to from : RtpCapabilities) : RtpCapabilities :=
  {| Codecs := Codecs from;
     HeaderExtensions := HeaderExtensions from;
     FecMechanisms := FecMechanisms from |}.

(** [GetSupportedRtpCapabilities]: the result variable starts as the zero
    value and is filled by [copier.Copy]; the store is only read. *)
Definition GetSupportedRtpCapabilities (st : Store) : RtpCapabilities * Store :=
  let rtpCapabilities :=
    {| Codecs := nil_slice; HeaderExtensions := nil_slice; FecMechanisms := nil_slice |} in
  (copier_Copy rtpCapabilities (supportedRtpCapabilities st), st).

(** *** What a caller can do with the returned value *)

(** [s[i] = v] on a slice of codecs: a write into the backing array; [None]
    stands for Go's index-out-of-range panic. *)
Definition setCodec (st : Store) (s : slice) (i : nat) (v : RtpCodecCapability) : option Store :=
  match s_arr s with
  | Some a =>
      match codecArrays st !! a with
      | Some arr =>
          if (i <? s_len s)%nat then
            Some {| codecArrays := <[a := <[i := v]> arr]> (codecArrays st);
                    feedbackArrays := feedbackArrays st;
                    headerArrays := headerArrays st;
                    stringArrays := stringArrays st;
                    parameterCells := parameterCells st;
                    supportedRtpCapabilities := supportedRtpCapabilities st |}
          else None
      | None => None
      end
  | None => None
  end.

(** [s[i] = v] on a slice of RTCP feedbacks. *)
Definition setFeedback (st : Store) (s : slice) (i : nat) (v : RtcpFeedback) : option Store :=
  match s_arr s with
  | Some a =>
      match feedbackArrays st !! a with
      | Some arr =>
          if (i <? s_len s)%nat then
            Some {| codecArrays := codecArrays st;
                    feedbackArrays := <[a := <[i := v]> arr]> (feedbackArrays st);
                    headerArrays := headerArrays st;
                    stringArrays := stringArrays st;
                    parameterCells := parameterCells st;
                    supportedRtpCapabilities := supportedRtpCapabilities st |}
          else None
      | None => None
      end
  | None => None
  end.

(** [*p = v] through a [*RtpParameter]; [None] is the nil dereference. *)
Definition setParameter (st : Store) (p : option nat) (v : RtpParameter) : option Store :=
  match p with
  | Some a =>
      if (a <? length (parameterCells st))%nat then
        Some {| codecArrays := codecArrays st;
                feedbackArrays := feedbackArrays st;
                headerArrays := headerArrays st;
                stringArrays := stringArrays st;
                parameterCells := <[a := v]> (parameterCells st);
                supportedRtpCapabilities := supportedRtpCapabilities st |}
      else None
  | None => None
  end.

(** *** The value a capabilities struct denotes

    Reading everything reachable from the struct gives a tree without
    addresses: two structs are equal as values when their trees are. *)
Record CodecValue := {
  vCodec : RtpCodecCapability;
  vParameters : option RtpParameter;
  vFeedback : list RtcpFeedback
}.

Record CapabilitiesValue := {
  vCodecs : list CodecValue;
  vHeaderExtensions : list RtpHeaderExtension;
  vFecMechanisms : list string
}.

Definition readSlice {A} (arrays : list (list A)) (s : slice) : list A :=
  match s_arr s with
  | Some a => take (s_len s) (default [] (arrays !! a))
  | None => []
  end.

Definition readCodec (st : Store) (c : RtpCodecCapability) : CodecValue :=
  {| vCodec := c;
     vParameters := p ← Parameters c; parameterCells st !! p;
     vFeedback := readSlice (feedbackArrays st) (RtcpFeedbacks c) |}.

Definition readCapabilities (st : Store) (caps : RtpCapabilities) : CapabilitiesValue :=
  {| vCodecs := readCodec st <$> readSlice (codecArrays st) (Codecs caps);
     vHeaderExtensions := readSlice (headerArrays st) (HeaderExtensions caps);
     vFecMechanisms := readSlice (stringArrays st) (FecMechanisms caps) |}.

(** The built-in table, as a value. *)
Definition builtinTable : CapabilitiesValue :=
  readCapabilities initStore (supportedRtpCapabilities initStore).

(** [caps.Codecs[i]] *)
Definition codecAt (st : Store) (caps : RtpCapabilities) (i : nat)
    : option RtpCodecCapability :=
  readSlice (codecArrays st) (Codecs caps) !! i.

(** The clock rates of the codecs of a value, used to tell values apart. *)
Definition clockRates (v : CapabilitiesValue) : list Z :=
  (fun c => ClockRate (vCodec c)) <$> vCodecs v.

End Rtp.

(** ** Values shared by the objects of the package *)

(** [a "s" b]: a text with a quoted part, as in the format
    [ignoring unknown event "%s"]. *)
Definition quoted (a s b : string) : string :=
  let q := String (Ascii.ascii_of_nat 34) EmptyString in
  (a +:+ q +:+ s +:+ q +:+ b)%string.

(** The arguments of a [Printf]-style call.  A formatted text is kept as its
    format and its arguments. *)
Inductive Arg :=
| AInt (z : Z)
| AStr (s : string).

(** Modelled from the spec: the error taxonomy of section 7 ([errors.go] is
    not among the sources).  [GoError] is a plain [error] as [fmt.Errorf]
    builds it, or an error the worker answered with. *)
Inductive ErrorKind := GoError | TypeError | InvalidStateError | UnsupportedError | TimeoutError.

Record error := { err_kind : ErrorKind; err_format : string; err_args : list Arg }.

Definition NewTypeError (msg : string) : error :=
  {| err_kind := TypeError; err_format := msg; err_args := [] |}.

Definition NewInvalidStateError (msg : string) : error :=
  {| err_kind := InvalidStateError; err_format := msg; err_args := [] |}.

Definition fmt_Errorf (format : string) (args : list Arg) : error :=
  {| err_kind := GoError; err_format := format; err_args := args |}.

Definition isInvalidStateError (e : option error) : Prop :=
  exists err, e = Some err /\ err_kind err = InvalidStateError.

(** Modelled from the spec: the internal scope of section 3, the tuple that
    names the target of a request ([internalData] is declared outside the
    sources). *)
Record internalData := {
  RouterId : string;
  TransportId : string;
  ProducerId : string;
  ConsumerId : string;
  DataProducerId : string;
  DataConsumerId : string
}.

Definition internalData_zero : internalData :=
  {| RouterId := EmptyString; TransportId := EmptyString; ProducerId := EmptyString; ConsumerId := EmptyString;
     DataProducerId := EmptyString; DataConsumerId := EmptyString |}.

(** [interface{}] holding application data: [None] is nil, [Some kv] a map
    [H]. *)
Definition AppData := option (list (string * string)).

(** *** Types of consumer.go *)

Record ConsumerLayers := { SpatialLayer : N; TemporalLayer : N }.

Definition ConsumerLayers_zero : ConsumerLayers := {| SpatialLayer := 0; TemporalLayer := 0 |}.

(** [ProducerScores] is a slice: [None] is the nil slice, [Some []] the empty
    slice [[]uint32{}]; [reflect.DeepEqual] tells them apart. *)
Record ConsumerScore := {
  Score : N;
  ProducerScore : N;
  ProducerScores : option (list N)
}.

Definition ConsumerScore_zero : ConsumerScore :=
  {| Score := 0; ProducerScore := 0; ProducerScores := None |}.

Record ConsumerTraceEventData := {
  trace_Type : string;
  trace_Timestamp : Z;
  trace_Direction : string;
  trace_Info : list (string * string)
}.

(** Modelled from the spec: the RTP parameters entity of section 3
    ([RtpParameters] and its encodings are declared outside the sources). *)
Record RtpEncoding := {
  enc_Ssrc : N;
  enc_Rid : string;
  enc_CodecPayloadType : Z;
  enc_RtxSsrc : option N
}.

Record RtpParameters := {
  Mid : string;
  Encodings : list RtpEncoding;
  RtcpCname : string
}.

Record consumerData := {
  data_Kind : string;
  data_Type : string;
  data_RtpParameters : RtpParameters
}.

Record ConsumerOptions := {
  opt_ProducerId : string;
  opt_RtpCapabilities : Rtp.RtpCapabilities;
  opt_Paused : bool;
  opt_PreferredLayers : ConsumerLayers;
  opt_AppData : AppData
}.

Record consumerParams := {
  params_internal : internalData;
  params_data : consumerData;
  params_appData : AppData;
  params_paused : bool;
  params_producerPaused : bool;
  params_score : ConsumerScore;
  params_preferredLayers : ConsumerLayers
}.

(** Modelled from the spec: a [Producer] as [PipeTransport.Consume] reads it,
    through [Kind()] and [ConsumableRtpParameters()] ([producer.go] is not
    among the sources). *)
Record Producer := {
  producer_Kind : string;
  producer_ConsumableRtpParameters : RtpParameters
}.

(** *** Types of the pipe transport and of worker.go *)

(** [TransportTuple], [SctpParameters] and [SrtpParameters] are declared
    outside the sources; they are carried around undecoded. *)
Record TransportTuple := { tuple_raw : string }.
Record SctpParameters := { sctp_raw : string }.
Record SrtpParameters := { srtp_raw : string }.

Record TransportConnectOptions := {
  conn_Ip : string;
  conn_Port : Z;
  conn_SrtpParameters : SrtpParameters
}.

Record pipeTransortData := {
  data_tuple : TransportTuple;
  data_sctpParameters : SctpParameters;
  data_sctpState : string;
  data_rtx : bool;
  data_srtpParameters : SrtpParameters
}.

Record WorkerUpdateableSettings := {
  upd_LogLevel : string;
  upd_LogTags : list string
}.

Record WorkerSettings := {
  set_LogLevel : string;
  set_LogTags : list string;
  set_RTCMinPort : N;
  set_RTCMaxPort : N;
  set_DTLSCertificateFile : string;
  set_DTLSPrivateKeyFile : string;
  set_AppData : list (string * string)
}.

Record RouterOptions := {
  MediaCodecs : list Rtp.RtpCodecCapability;
  router_opt_AppData : AppData
}.

(** *** Requests and responses on the channel *)

Inductive RequestData :=
| DataPriority (priority : N)
| DataTypes (types : list string)
| DataLayers (layers : ConsumerLayers)
| DataSettings (settings : WorkerUpdateableSettings)
| DataConnect (options : TransportConnectOptions)
| DataConsume (kind : string) (rtpParameters : RtpParameters) (type : string)
              (consumableRtpEncodings : list RtpEncoding).

Record Request := {
  req_method : string;
  req_internal : option internalData;
  req_data : option RequestData
}.

(** Modelled from the spec: a response of section 4.2, the worker's data or
    an error ([Response] is declared outside the sources). *)
Record Response := {
  rsp_data : list Byte.byte;
  rsp_err : option error
}.

Record TransportTraceEventData := { transport_trace_raw : string }.

(** ** What the package takes from outside

    The worker process, the libraries and the parts of the repository that
    are not among the sources are parameters of the development: nothing is
    assumed about them.  The environment is an implicit argument of every
    method that reads it. *)
Class Env := {
  (** the worker's answer to a request, given the requests sent before it *)
  reply : list Request -> Request -> Response;
  (** [uuid.NewV4().String()], by the number of identifiers drawn so far *)
  uuid_NewV4 : nat -> string;
  (** the package variable [WorkerBin] *)
  WorkerBin : string;
  (** the constant [SctpState_Closed] *)
  SctpState_Closed : string;
  (** [syscall.Signal.String] *)
  signal_String : Z -> string;
  getPipeConsumerRtpParameters : RtpParameters -> bool -> RtpParameters;
  generateRouterRtpCapabilities :
    list Rtp.RtpCodecCapability -> Rtp.RtpCapabilities * option error;
  (** types the package decodes into without reading them *)
  ConsumerStat : Type;
  WorkerResourceUsage : Type;
  WorkerResourceUsage_zero : WorkerResourceUsage;
  (** [json.Unmarshal(data, &v)]: the value of [v] afterwards and the error,
      one decoder per type of [v] *)
  json_stats : list Byte.byte -> list ConsumerStat -> list ConsumerStat * option error;
  json_usage : list Byte.byte -> WorkerResourceUsage -> WorkerResourceUsage * option error;
  json_layers : list Byte.byte -> ConsumerLayers -> ConsumerLayers * option error;
  json_priority : list Byte.byte -> N -> N * option error;
  json_score : list Byte.byte -> ConsumerScore -> ConsumerScore * option error;
  json_trace : list Byte.byte -> ConsumerTraceEventData -> ConsumerTraceEventData * option error;
  json_status : list Byte.byte -> bool * bool -> (bool * bool) * option error;
  json_tuple : list Byte.byte -> TransportTuple -> TransportTuple * option error;
  json_sctpState : list Byte.byte -> string -> string * option error;
  json_transportTrace :
    list Byte.byte -> TransportTraceEventData -> TransportTraceEventData * option error
}.

(** ** The objects and the world they share *)

(** The emitters of the package: every object is an emitter and has an
    observer.  Objects are named by their address in the world. *)
Inductive Emitter :=
| OfWorker
| WorkerObserver
| OfRouter (r : nat)
| RouterObserver (r : nat)
| OfTransport (t : nat)
| TransportObserver (t : nat)
| OfConsumer (c : nat)
| ConsumerObserver (c : nat).

Global Instance Emitter_eq_dec : EqDecision Emitter.
Proof. solve_decision. Defined.

Inductive EventArg :=
| ArgError (e : error)
| ArgScore (s : ConsumerScore)
| ArgLayers (l : ConsumerLayers)
| ArgTrace (t : ConsumerTraceEventData)
| ArgBytes (b : list Byte.byte)
| ArgRouter (r : nat)
| ArgConsumer (c : nat)
| ArgSctpState (s : string)
| ArgTransportTrace (t : TransportTraceEventData).

(** One call of [Emit] or [SafeEmit]. *)
Record Event := { ev_emitter : Emitter; ev_name : string; ev_args : list EventArg }.

(** The handlers the package itself registers with [On]:
    [func() { baseTransport.consumers.Delete(consumer.Id()) }] in
    [PipeTransport.Consume] and [func() { w.routers.Delete(internal.RouterId) }]
    in [Worker.CreateRouter]. *)
Inductive Handler :=
| DeleteConsumer (t : nat) (id : string)
| DeleteRouter (id : string).

(** Modelled from the spec: the event emitter of section 4.1, a list of
    handlers by topic in registration order ([IEventEmitter] is declared
    outside the sources). *)
Definition EventEmitter := list (string * Handler).

Record Consumer := {
  c_emitter : EventEmitter;
  c_internal : internalData;
  c_data : consumerData;
  c_appData : AppData;
  c_paused : bool;
  c_closed : N;
  c_producerPaused : bool;
  c_priority : N;
  c_score : ConsumerScore;
  c_preferredLayers : ConsumerLayers;
  c_currentLayers : ConsumerLayers;
  c_observer : EventEmitter
}.

(** Modelled from the spec: the base [Transport] behind [ITransport]
    (sections 3 and 4.7): a closed flag, the consumers it owns by id, an
    emitter and an observer. *)
Record Transport := {
  t_closed : bool;
  t_consumers : gmap string nat;
  t_emitter : EventEmitter;
  t_observer : EventEmitter
}.

Record PipeTransport := {
  pt_ITransport : Transport;
  pt_internal : internalData;
  pt_data : pipeTransortData;
  pt_getProducerById : string -> option Producer
}.

(** Modelled from the spec: a [Router] as the worker sees it (section 4.6):
    its scope, its capabilities and a closed flag ([router.go] is not among
    the sources). *)
Record Router := {
  r_internal : internalData;
  r_rtpCapabilities : Rtp.RtpCapabilities;
  r_appData : AppData;
  r_closed : bool;
  r_emitter : EventEmitter;
  r_observer : EventEmitter
}.

Record Worker := {
  w_child : option Z;           (* *exec.Cmd, by the pid of its process *)
  w_pid : Z;
  w_closed : bool;
  w_appData : list (string * string);
  w_routers : gmap string nat;  (* sync.Map: RouterId to *Router *)
  w_spawnDone : bool
}.

(** The listeners registered on the channel by target id. *)
Inductive Listener :=
| WorkerRunning
| ConsumerNotifications (c : nat)
| PipeTransportNotifications (t : nat).

Record Subscription := { sub_once : bool; sub_listener : Listener }.

(** Modelled from the spec: the control channel of section 4.2, seen from
    the caller: whether it is closed, the requests written so far and the
    listeners by target id. *)
Record Channel := {
  ch_closed : bool;
  ch_sent : list Request;
  ch_listeners : gmap string (list Subscription)
}.

(** Modelled from the spec: the payload channel of section 4.3; only
    consumers listen on it in the sources. *)
Record PayloadChannel := {
  pch_closed : bool;
  pch_listeners : gmap string (list nat)
}.

Inductive LogLevel := Debug | Error.

Record LogLine := {
  log_logger : string;
  log_level : LogLevel;
  log_format : string;
  log_args : list Arg
}.

(** The goroutines [NewWorker] starts. *)
Inductive Goroutine :=
| ReadStderr              (* forwards the child's stderr to the logger *)
| ReadStdout              (* forwards the child's stdout to the logger *)
| ChildWait.              (* go worker.child.Wait() *)

Record World := {
  channel : Channel;
  payloadChannel : PayloadChannel;
  worker : Worker;
  routers : list Router;
  transports : list PipeTransport;
  consumers : list Consumer;
  events : list Event;            (* what has been emitted, oldest first *)
  logs : list LogLine;
  signals : list (Z * string);    (* signals sent to processes *)
  goroutines : list Goroutine;
  uuids : nat                     (* identifiers drawn so far *)
}.

(** ** Field updates

    [with_f g x] is [x] with its field [f] replaced by [g (f x)]: the
    assignment [x.f = ...] of the code. *)

Definition with_channel (g : _) (x : World) : World :=
  {| channel := g (channel x); payloadChannel := payloadChannel x; worker := worker x;
     routers := routers x; transports := transports x; consumers := consumers x; events
     := events x; logs := logs x; signals := signals x; goroutines := goroutines x;
     uuids := uuids x |}.

Definition with_payloadChannel (g : _) (x : World) : World :=
  {| channel := channel x; payloadChannel := g (payloadChannel x); worker := worker x;
     routers := routers x; transports := transports x; consumers := consumers x; events
     := events x; logs := logs x; signals := signals x; goroutines := goroutines x;
     uuids := uuids x |}.

Definition with_worker (g : _) (x : World) : World :=
  {| channel := channel x; payloadChannel := payloadChannel x; worker := g (worker x);
     routers := routers x; transports := transports x; consumers := consumers x; events
     := events x; logs := logs x; signals := signals x; goroutines := goroutines x;
     uuids := uuids x |}.

Definition with_routers (g : _) (x : World) : World :=
  {| channel := channel x; payloadChannel := payloadChannel x; worker := worker x;
     routers := g (routers x); transports := transports x; consumers := consumers x;
     events := events x; logs := logs x; signals := signals x; goroutines := goroutines
     x; uuids := uuids x |}.

Definition with_transports (g : _) (x : World) : World :=
  {| channel := channel x; payloadChannel := payloadChannel x; worker := worker x;
     routers := routers x; transports := g (transports x); consumers := consumers x;
     events := events x; logs := logs x; signals := signals x; goroutines := goroutines
     x; uuids := uuids x |}.

Definition with_consumers (g : _) (x : World) : World :=
  {| channel := channel x; payloadChannel := payloadChannel x; worker := worker x;
     routers := routers x; transports := transports x; consumers := g (consumers x);
     events := events x; logs := logs x; signals := signals x; goroutines := goroutines
     x; uuids := uuids x |}.

Definition with_events (g : _) (x : World) : World :=
  {| channel := channel x; payloadChannel := payloadChannel x; worker := worker x;
     routers := routers x; transports := transports x; consumers := consumers x; events
     := g (events x); logs := logs x; signals := signals x; goroutines := goroutines x;
     uuids := uuids x |}.

Definition with_logs (g : _) (x : World) : World :=
  {| channel := channel x; payloadChannel := payloadChannel x; worker := worker x;
     routers := routers x; transports := transports x; consumers := consumers x; events
     := events x; logs := g (logs x); signals := signals x; goroutines := goroutines x;
     uuids := uuids x |}.

Definition with_signals (g : _) (x : World) : World :=
  {| channel := channel x; payloadChannel := payloadChannel x; worker := worker x;
     routers := routers x; transports := transports x; consumers := consumers x; events
     := events x; logs := logs x; signals := g (signals x); goroutines := goroutines x;
     uuids := uuids x |}.

Definition with_goroutines (g : _) (x : World) : World :=
  {| channel := channel x; payloadChannel := payloadChannel x; worker := worker x;
     routers := routers x; transports := transports x; consumers := consumers x; events
     := events x; logs := logs x; signals := signals x; goroutines := g (goroutines x);
     uuids := uuids x |}.

Definition with_uuids (g : _) (x : World) : World :=
  {| channel := channel x; payloadChannel := payloadChannel x; worker := worker x;
     routers := routers x; transports := transports x; consumers := consumers x; events
     := events x; logs := logs x; signals := signals x; goroutines := goroutines x;
     uuids := g (uuids x) |}.

Definition with_c_emitter (g : _) (x : Consumer) : Consumer :=
  {| c_emitter := g (c_emitter x); c_internal := c_internal x; c_data := c_data x;
     c_appData := c_appData x; c_paused := c_paused x; c_closed := c_closed x;
     c_producerPaused := c_producerPaused x; c_priority := c_priority x; c_score :=
     c_score x; c_preferredLayers := c_preferredLayers x; c_currentLayers :=
     c_currentLayers x; c_observer := c_observer x |}.

Definition with_c_paused (g : _) (x : Consumer) : Consumer :=
  {| c_emitter := c_emitter x; c_internal := c_internal x; c_data := c_data x; c_appData
     := c_appData x; c_paused := g (c_paused x); c_closed := c_closed x;
     c_producerPaused := c_producerPaused x; c_priority := c_priority x; c_score :=
     c_score x; c_preferredLayers := c_preferredLayers x; c_currentLayers :=
     c_currentLayers x; c_observer := c_observer x |}.

Definition with_c_closed (g : _) (x : Consumer) : Consumer :=
  {| c_emitter := c_emitter x; c_internal := c_internal x; c_data := c_data x; c_appData
     := c_appData x; c_paused := c_paused x; c_closed := g (c_closed x);
     c_producerPaused := c_producerPaused x; c_priority := c_priority x; c_score :=
     c_score x; c_preferredLayers := c_preferredLayers x; c_currentLayers :=
     c_currentLayers x; c_observer := c_observer x |}.

Definition with_c_producerPaused (g : _) (x : Consumer) : Consumer :=
  {| c_emitter := c_emitter x; c_internal := c_internal x; c_data := c_data x; c_appData
     := c_appData x; c_paused := c_paused x; c_closed := c_closed x; c_producerPaused :=
     g (c_producerPaused x); c_priority := c_priority x; c_score := c_score x;
     c_preferredLayers := c_preferredLayers x; c_currentLayers := c_currentLayers x;
     c_observer := c_observer x |}.

Definition with_c_priority (g : _) (x : Consumer) : Consumer :=
  {| c_emitter := c_emitter x; c_internal := c_internal x; c_data := c_data x; c_appData
     := c_appData x; c_paused := c_paused x; c_closed := c_closed x; c_producerPaused :=
     c_producerPaused x; c_priority := g (c_priority x); c_score := c_score x;
     c_preferredLayers := c_preferredLayers x; c_currentLayers := c_currentLayers x;
     c_observer := c_observer x |}.

Definition with_c_score (g : _) (x : Consumer) : Consumer :=
  {| c_emitter := c_emitter x; c_internal := c_internal x; c_data := c_data x; c_appData
     := c_appData x; c_paused := c_paused x; c_closed := c_closed x; c_producerPaused :=
     c_producerPaused x; c_priority := c_priority x; c_score := g (c_score x);
     c_preferredLayers := c_preferredLayers x; c_currentLayers := c_currentLayers x;
     c_observer := c_observer x |}.

Definition with_c_preferredLayers (g : _) (x : Consumer) : Consumer :=
  {| c_emitter := c_emitter x; c_internal := c_internal x; c_data := c_data x; c_appData
     := c_appData x; c_paused := c_paused x; c_closed := c_closed x; c_producerPaused :=
     c_producerPaused x; c_priority := c_priority x; c_score := c_score x;
     c_preferredLayers := g (c_preferredLayers x); c_currentLayers := c_currentLayers x;
     c_observer := c_observer x |}.

Definition with_c_currentLayers (g : _) (x : Consumer) : Consumer :=
  {| c_emitter := c_emitter x; c_internal := c_internal x; c_data := c_data x; c_appData
     := c_appData x; c_paused := c_paused x; c_closed := c_closed x; c_producerPaused :=
     c_producerPaused x; c_priority := c_priority x; c_score := c_score x;
     c_preferredLayers := c_preferredLayers x; c_currentLayers := g (c_currentLayers x);
     c_observer := c_observer x |}.

Definition with_t_closed (g : _) (x : Transport) : Transport :=
  {| t_closed := g (t_closed x); t_consumers := t_consumers x; t_emitter := t_emitter x;
     t_observer := t_observer x |}.

Definition with_t_consumers (g : _) (x : Transport) : Transport :=
  {| t_closed := t_closed x; t_consumers := g (t_consumers x); t_emitter := t_emitter x;
     t_observer := t_observer x |}.

Definition with_pt_ITransport (g : _) (x : PipeTransport) : PipeTransport :=
  {| pt_ITransport := g (pt_ITransport x); pt_internal := pt_internal x; pt_data :=
     pt_data x; pt_getProducerById := pt_getProducerById x |}.

Definition with_pt_data (g : _) (x : PipeTransport) : PipeTransport :=
  {| pt_ITransport := pt_ITransport x; pt_internal := pt_internal x; pt_data := g
     (pt_data x); pt_getProducerById := pt_getProducerById x |}.

Definition with_r_closed (g : _) (x : Router) : Router :=
  {| r_internal := r_internal x; r_rtpCapabilities := r_rtpCapabilities x; r_appData :=
     r_appData x; r_closed := g (r_closed x); r_emitter := r_emitter x; r_observer :=
     r_observer x |}.

Definition with_r_emitter (g : _) (x : Router) : Router :=
  {| r_internal := r_internal x; r_rtpCapabilities := r_rtpCapabilities x; r_appData :=
     r_appData x; r_closed := r_closed x; r_emitter := g (r_emitter x); r_observer :=
     r_observer x |}.

Definition with_w_child (g : _) (x : Worker) : Worker :=
  {| w_child := g (w_child x); w_pid := w_pid x; w_closed := w_closed x; w_appData :=
     w_appData x; w_routers := w_routers x; w_spawnDone := w_spawnDone x |}.

Definition with_w_closed (g : _) (x : Worker) : Worker :=
  {| w_child := w_child x; w_pid := w_pid x; w_closed := g (w_closed x); w_appData :=
     w_appData x; w_routers := w_routers x; w_spawnDone := w_spawnDone x |}.

Definition with_w_routers (g : _) (x : Worker) : Worker :=
  {| w_child := w_child x; w_pid := w_pid x; w_closed := w_closed x; w_appData :=
     w_appData x; w_routers := g (w_routers x); w_spawnDone := w_spawnDone x |}.

Definition with_w_spawnDone (g : _) (x : Worker) : Worker :=
  {| w_child := w_child x; w_pid := w_pid x; w_closed := w_closed x; w_appData :=
     w_appData x; w_routers := w_routers x; w_spawnDone := g (w_spawnDone x) |}.

Definition with_ch_closed (g : _) (x : Channel) : Channel :=
  {| ch_closed := g (ch_closed x); ch_sent := ch_sent x; ch_listeners := ch_listeners x
     |}.

Definition with_ch_sent (g : _) (x : Channel) : Channel :=
  {| ch_closed := ch_closed x; ch_sent := g (ch_sent x); ch_listeners := ch_listeners x
     |}.

Definition with_ch_listeners (g : _) (x : Channel) : Channel :=
  {| ch_closed := ch_closed x; ch_sent := ch_sent x; ch_listeners := g (ch_listeners x)
     |}.

Definition with_pch_closed (g : _) (x : PayloadChannel) : PayloadChannel :=
  {| pch_closed := g (pch_closed x); pch_listeners := pch_listeners x |}.

Definition with_pch_listeners (g : _) (x : PayloadChannel) : PayloadChannel :=
  {| pch_closed := pch_closed x; pch_listeners := g (pch_listeners x) |}.

Definition with_data_tuple (g : _) (x : pipeTransortData) : pipeTransortData :=
  {| data_tuple := g (data_tuple x); data_sctpParameters := data_sctpParameters x;
     data_sctpState := data_sctpState x; data_rtx := data_rtx x; data_srtpParameters :=
     data_srtpParameters x |}.

Definition with_data_sctpState (g : _) (x : pipeTransortData) : pipeTransortData :=
  {| data_tuple := data_tuple x; data_sctpParameters := data_sctpParameters x;
     data_sctpState := g (data_sctpState x); data_rtx := data_rtx x; data_srtpParameters
     := data_srtpParameters x |}.

(** ** Methods as state transformers *)

Definition M (A : Type) : Type := World -> A * World.

Global Instance M_ret : MRet M := fun A a W => (a, W).

Global Instance M_bind : MBind M :=
  fun A B k m W => let (a, W') := m W in k a W'.

Definition gets {A} (f : World -> A) : M A := fun W => (f W, W).

Definition modify (f : World -> World) : M unit := fun W => (tt, f W).

(** [for _, a := range l { f(a) }] *)
Fixpoint forM {A} (l : list A) (f : A -> M unit) : M unit :=
  match l with
  | [] => mret tt
  | a :: l' => f a ;; forM l' f
  end.

(** [logger.Debug] and [logger.Error]; the logger is named after the type
    of the object. *)
Definition logf (logger : string) (level : LogLevel) (format : string) (args : list Arg) : M unit :=
  modify (with_logs (fun l => l ++ [ {| log_logger := logger; log_level := level;
                                        log_format := format; log_args := args |} ])).

(** An address beyond the heap names no object.  Go has no such pointer;
    here it reads as an object that is already closed, so that no method has
    an effect through it. *)
Definition Consumer_absent : Consumer :=
  {| c_emitter := []; c_internal := internalData_zero;
     c_data := {| data_Kind := EmptyString; data_Type := EmptyString;
                  data_RtpParameters :=
                    {| Mid := EmptyString; Encodings := []; RtcpCname := EmptyString |} |};
     c_appData := None; c_paused := false; c_closed := 1%N; c_producerPaused := false;
     c_priority := 0%N; c_score := ConsumerScore_zero;
     c_preferredLayers := ConsumerLayers_zero; c_currentLayers := ConsumerLayers_zero;
     c_observer := [] |}.

Definition pipeTransortData_zero : pipeTransortData :=
  {| data_tuple := {| tuple_raw := EmptyString |};
     data_sctpParameters := {| sctp_raw := EmptyString |};
     data_sctpState := EmptyString; data_rtx := false;
     data_srtpParameters := {| srtp_raw := EmptyString |} |}.

(** Modelled from the spec: [newTransport] builds an open transport that
    owns nothing yet. *)
Definition newTransport : Transport :=
  {| t_closed := false; t_consumers := ∅; t_emitter := []; t_observer := [] |}.

Definition PipeTransport_absent : PipeTransport :=
  {| pt_ITransport := {| t_closed := true; t_consumers := ∅; t_emitter := [];
                         t_observer := [] |};
     pt_internal := internalData_zero;
     pt_data := pipeTransortData_zero; pt_getProducerById := fun _ => None |}.

Definition Router_absent : Router :=
  {| r_internal := internalData_zero;
     r_rtpCapabilities := {| Rtp.Codecs := Rtp.nil_slice; Rtp.HeaderExtensions := Rtp.nil_slice;
                             Rtp.FecMechanisms := Rtp.nil_slice |};
     r_appData := None; r_closed := true; r_emitter := []; r_observer := [] |}.

(** Reading and writing an object through its address. *)
Definition consumerAt (c : nat) : M Consumer :=
  gets (fun W => default Consumer_absent (consumers W !! c)).

Definition updConsumer (c : nat) (f : Consumer -> Consumer) : M unit :=
  modify (with_consumers (alter f c)).

Definition transportAt (t : nat) : M PipeTransport :=
  gets (fun W => default PipeTransport_absent (transports W !! t)).

Definition updTransport (t : nat) (f : PipeTransport -> PipeTransport) : M unit :=
  modify (with_transports (alter f t)).

Definition routerAt (r : nat) : M Router :=
  gets (fun W => default Router_absent (routers W !! r)).

Definition updRouter (r : nat) (f : Router -> Router) : M unit :=
  modify (with_routers (alter f r)).

(** *** The event emitter *)

Definition runHandler (h : Handler) : M unit :=
  match h with
  | DeleteConsumer t id =>
      updTransport t (with_pt_ITransport (with_t_consumers (delete id)))
  | DeleteRouter id =>
      modify (with_worker (with_w_routers (delete id)))
  end.

(** The handlers registered on a topic run in registration order. *)
Definition runHandlers (handlers : EventEmitter) (name : string) : M unit :=
  forM (filter (fun h => h.1 = name) handlers) (fun h => runHandler h.2).

(** Modelled from the spec: [Emit] and [SafeEmit] of section 4.1.  The
    emission is recorded and the handlers of the topic run.  The two differ
    in what happens when a handler fails; the handlers of the package do not
    fail, and those of the application are outside the package. *)
Definition emit (src : Emitter) (handlers : EventEmitter) (name : string)
    (args : list EventArg) : M unit :=
  modify (with_events (fun l => l ++ [ {| ev_emitter := src; ev_name := name;
                                          ev_args := args |} ])) ;;
  runHandlers handlers name.

Section Package.

Context {E : Env}.

(** *** The channels *)

(** Modelled from the spec: [Channel.Request] (section 4.2).  A request on a
    closed channel fails with [InvalidStateError]; otherwise it is written
    and the caller waits for the worker's answer, which may be an error
    (a worker error or a timeout). *)
Definition Channel_Request (method : string) (internal : option internalData)
    (data : option RequestData) : M Response :=
  ch ← gets channel;
  if ch_closed ch then
    mret {| rsp_data := []; rsp_err := Some (NewInvalidStateError "channel closed") |}
  else
    let req := {| req_method := method; req_internal := internal; req_data := data |} in
    modify (with_channel (with_ch_sent (fun s => s ++ [req]))) ;;
    mret (reply (ch_sent ch) req).

Definition subscribe (once : bool) (id : string) (l : Listener) : M unit :=
  modify (with_channel (with_ch_listeners (fun m =>
    <[id := default [] (m !! id) ++ [ {| sub_once := once; sub_listener := l |} ]]> m))).

(** Modelled from the spec: listeners by target id (section 4.2). *)
Definition Channel_On (id : string) (l : Listener) : M unit := subscribe false id l.

Definition Channel_Once (id : string) (l : Listener) : M unit := subscribe true id l.

Definition Channel_RemoveAllListeners (id : string) : M unit :=
  modify (with_channel (with_ch_listeners (delete id))).

(** Modelled from the spec: [Channel.Close] (section 4.2); requests made from
    then on fail, see [Channel_Request]. *)
Definition Channel_Close : M unit :=
  modify (with_channel (with_ch_closed (fun _ => true))).

Definition PayloadChannel_On (id : string) (c : nat) : M unit :=
  modify (with_payloadChannel (with_pch_listeners (fun m =>
    <[id := default [] (m !! id) ++ [c]]> m))).

Definition PayloadChannel_RemoveAllListeners (id : string) : M unit :=
  modify (with_payloadChannel (with_pch_listeners (delete id))).

Definition PayloadChannel_Close : M unit :=
  modify (with_payloadChannel (with_pch_closed (fun _ => true))).

(** Modelled from the spec: [Response.Unmarshal] returns the error of the
    response when it has one and decodes its data into [v] otherwise. *)
Definition Response_Unmarshal {T} (decode : list Byte.byte -> T -> T * option error)
    (r : Response) (v : T) : T * option error :=
  match rsp_err r with
  | Some e => (v, Some e)
  | None => decode (rsp_data r) v
  end.

(** [uuid.NewV4().String()] *)
Definition uuid_String : M string :=
  n ← gets uuids;
  modify (with_uuids S) ;;
  mret (uuid_NewV4 n).

(** *** Consumer (consumer.go) *)

Definition Consumer_Emit (c : nat) (name : string) (args : list EventArg) : M unit :=
  consumer ← consumerAt c;
  emit (OfConsumer c) (c_emitter consumer) name args.

Definition Consumer_SafeEmit (c : nat) (name : string) (args : list EventArg) : M unit :=
  Consumer_Emit c name args.

Definition Consumer_observer_SafeEmit (c : nat) (name : string) (args : list EventArg) : M unit :=
  consumer ← consumerAt c;
  emit (ConsumerObserver c) (c_observer consumer) name args.

Definition Consumer_On (c : nat) (name : string) (h : Handler) : M unit :=
  updConsumer c (with_c_emitter (fun l => l ++ [(name, h)])).

(** [atomic.CompareAndSwapUint32(&consumer.closed, old, new)] *)
Definition Consumer_CompareAndSwap_closed (c : nat) (old new : N) : M bool :=
  consumer ← consumerAt c;
  if (c_closed consumer =? old)%N then
    updConsumer c (with_c_closed (fun _ => new)) ;;
    mret true
  else mret false.

Definition Consumer_Id (c : nat) : M string :=
  consumer ← consumerAt c;
  mret (ConsumerId (c_internal consumer)).

(** [atomic.LoadUint32(&consumer.closed) > 0] *)
Definition Consumer_Closed (c : nat) : M bool :=
  consumer ← consumerAt c;
  mret (0 <? c_closed consumer)%N.

Definition Consumer_Score (c : nat) : M ConsumerScore :=
  consumer ← consumerAt c;
  mret (c_score consumer).

Definition Consumer_Priority (c : nat) : M N :=
  consumer ← consumerAt c;
  mret (c_priority consumer).

Definition Consumer_Close (c : nat) : M (option error) :=
  swapped ← Consumer_CompareAndSwap_closed c 0 1;
  if swapped : bool then
    logf "Consumer" Debug "close()" [] ;;
    consumer ← consumerAt c;
    Channel_RemoveAllListeners (ConsumerId (c_internal consumer)) ;;
    PayloadChannel_RemoveAllListeners (ConsumerId (c_internal consumer)) ;;
    Channel_Request "consumer.close" (Some (c_internal consumer)) None ;;
    Consumer_Emit c "@close" [] ;;
    Consumer_observer_SafeEmit c "close" [] ;;
    mret None
  else mret None.

Definition Consumer_transportClosed (c : nat) : M unit :=
  swapped ← Consumer_CompareAndSwap_closed c 0 1;
  if swapped : bool then
    logf "Consumer" Debug "transportClosed()" [] ;;
    consumer ← consumerAt c;
    Channel_RemoveAllListeners (ConsumerId (c_internal consumer)) ;;
    PayloadChannel_RemoveAllListeners (ConsumerId (c_internal consumer)) ;;
    Consumer_SafeEmit c "transportclose" [] ;;
    Consumer_observer_SafeEmit c "close" []
  else mret tt.

(** [NewDumpResult(resp.Data(), resp.Err())] is kept as the pair. *)
Definition Consumer_Dump (c : nat) : M (list Byte.byte * option error) :=
  logf "Consumer" Debug "dump()" [] ;;
  consumer ← consumerAt c;
  resp ← Channel_Request "consumer.dump" (Some (c_internal consumer)) None;
  mret (rsp_data resp, rsp_err resp).

Definition Consumer_GetStats (c : nat) : M (list (ConsumerStat) * option error) :=
  logf "Consumer" Debug "getStats()" [] ;;
  consumer ← consumerAt c;
  resp ← Channel_Request "consumer.getStats" (Some (c_internal consumer)) None;
  mret (Response_Unmarshal (json_stats) resp []).

Definition Consumer_Pause (c : nat) : M (option error) :=
  logf "Consumer" Debug "pause()" [] ;;
  consumer ← consumerAt c;
  let wasPaused := c_paused consumer || c_producerPaused consumer in
  response ← Channel_Request "consumer.pause" (Some (c_internal consumer)) None;
  match rsp_err response with
  | Some err => mret (Some err)
  | None =>
      updConsumer c (with_c_paused (fun _ => true)) ;;
      (if negb wasPaused then Consumer_observer_SafeEmit c "pause" [] else mret tt) ;;
      mret None
  end.

Definition Consumer_Resume (c : nat) : M (option error) :=
  logf "Consumer" Debug "resume()" [] ;;
  consumer ← consumerAt c;
  let wasPaused := c_paused consumer || c_producerPaused consumer in
  response ← Channel_Request "consumer.resume" (Some (c_internal consumer)) None;
  match rsp_err response with
  | Some err => mret (Some err)
  | None =>
      updConsumer c (with_c_paused (fun _ => false)) ;;
      consumer ← consumerAt c;
      (if wasPaused && negb (c_producerPaused consumer)
       then Consumer_observer_SafeEmit c "resume" [] else mret tt) ;;
      mret None
  end.

Definition Consumer_SetPreferredLayers (c : nat) (layers : ConsumerLayers) : M (option error) :=
  logf "Consumer" Debug "setPreferredLayers()" [] ;;
  consumer ← consumerAt c;
  response ← Channel_Request "consumer.setPreferredLayers" (Some (c_internal consumer))
               (Some (DataLayers layers));
  consumer ← consumerAt c;
  let r := Response_Unmarshal (json_layers) response (c_preferredLayers consumer) in
  updConsumer c (with_c_preferredLayers (fun _ => r.1)) ;;
  mret r.2.

Definition Consumer_SetPriority (c : nat) (priority : N) : M (option error) :=
  logf "Consumer" Debug "setPriority()" [] ;;
  consumer ← consumerAt c;
  response ← Channel_Request "consumer.setPriority" (Some (c_internal consumer))
               (Some (DataPriority priority));
  let result := Response_Unmarshal (json_priority) response 0%N in
  match result.2 with
  | Some err => mret (Some err)
  | None =>
      updConsumer c (with_c_priority (fun _ => result.1)) ;;
      mret None
  end.

Definition Consumer_UnsetPriority (c : nat) : M (option error) :=
  logf "Consumer" Debug "unsetPriority()" [] ;;
  Consumer_SetPriority c 1.

Definition Consumer_RequestKeyFrame (c : nat) : M (option error) :=
  logf "Consumer" Debug "requestKeyFrame()" [] ;;
  consumer ← consumerAt c;
  response ← Channel_Request "consumer.requestKeyFrame" (Some (c_internal consumer)) None;
  mret (rsp_err response).

Definition Consumer_EnableTraceEvent (c : nat) (types : list string) : M (option error) :=
  logf "Consumer" Debug "enableTraceEvent()" [] ;;
  consumer ← consumerAt c;
  response ← Channel_Request "consumer.enableTraceEvent" (Some (c_internal consumer))
               (Some (DataTypes types));
  mret (rsp_err response).

(** The listener [handleWorkerNotifications] registers on the channel. *)
Definition Consumer_onNotification (c : nat) (event : string) (data : list Byte.byte) : M unit :=
  if (event =? "producerclose")%string then
    swapped ← Consumer_CompareAndSwap_closed c 0 1;
    if swapped : bool then
      consumer ← consumerAt c;
      Channel_RemoveAllListeners (ConsumerId (c_internal consumer)) ;;
      Consumer_Emit c "@producerclose" [] ;;
      Consumer_SafeEmit c "producerclose" [] ;;
      Consumer_observer_SafeEmit c "close" []
    else mret tt
  else if (event =? "producerpause")%string then
    consumer ← consumerAt c;
    if c_producerPaused consumer then mret tt
    else
      let wasPaused := c_paused consumer || c_producerPaused consumer in
      updConsumer c (with_c_producerPaused (fun _ => true)) ;;
      Consumer_SafeEmit c "producerpause" [] ;;
      if negb wasPaused then Consumer_observer_SafeEmit c "pause" [] else mret tt
  else if (event =? "producerresume")%string then
    consumer ← consumerAt c;
    if negb (c_producerPaused consumer) then mret tt
    else
      let wasPaused := c_paused consumer || c_producerPaused consumer in
      updConsumer c (with_c_producerPaused (fun _ => false)) ;;
      Consumer_SafeEmit c "producerresume" [] ;;
      consumer ← consumerAt c;
      if wasPaused && negb (c_paused consumer)
      then Consumer_observer_SafeEmit c "resume" [] else mret tt
  else if (event =? "score")%string then
    let score := (json_score data ConsumerScore_zero).1 in
    updConsumer c (with_c_score (fun _ => score)) ;;
    Consumer_SafeEmit c "score" [ArgScore score] ;;
    Consumer_observer_SafeEmit c "score" [ArgScore score]
  else if (event =? "layerschange")%string then
    let layers := (json_layers data ConsumerLayers_zero).1 in
    updConsumer c (with_c_currentLayers (fun _ => layers)) ;;
    Consumer_SafeEmit c "layerschange" [ArgLayers layers] ;;
    Consumer_observer_SafeEmit c "layerschange" [ArgLayers layers]
  else if (event =? "trace")%string then
    let trace := (json_trace data
                    {| trace_Type := EmptyString; trace_Timestamp := 0; trace_Direction := EmptyString;
                       trace_Info := [] |}).1 in
    Consumer_SafeEmit c "trace" [ArgTrace trace] ;;
    Consumer_observer_SafeEmit c "trace" [ArgTrace trace]
  else
    logf "Consumer" Error (quoted "ignoring unknown event " "%s" " in channel listener") [AStr event].

(** The listener [handleWorkerNotifications] registers on the payload
    channel. *)
Definition Consumer_onPayload (c : nat) (event : string) (data payload : list Byte.byte)
    : M unit :=
  if (event =? "rtp")%string then
    closed ← Consumer_Closed c;
    if closed : bool then mret tt
    else Consumer_SafeEmit c "rtp" [ArgBytes payload]
  else
    logf "Consumer" Error (quoted "ignoring unknown event " "%s" " in payload channel listener")
         [AStr event].

Definition Consumer_handleWorkerNotifications (c : nat) : M unit :=
  id ← Consumer_Id c;
  Channel_On id (ConsumerNotifications c) ;;
  id ← Consumer_Id c;
  PayloadChannel_On id c.

(** [reflect.DeepEqual] on two [ConsumerScore]: equal numbers, and slices
    that are both nil or both non-nil with equal elements. *)
Global Instance ConsumerScore_eq_dec : EqDecision ConsumerScore.
Proof. solve_decision. Defined.

Definition reflect_DeepEqual (a b : ConsumerScore) : bool := bool_decide (a = b).

Definition newConsumer (params : consumerParams) : M nat :=
  logf "Consumer" Debug "constructor()" [] ;;
  let appData := match params_appData params with
                 | None => Some []
                 | Some h => Some h
                 end in
  let score := if reflect_DeepEqual (params_score params) ConsumerScore_zero
               then {| Score := 10; ProducerScore := 10; ProducerScores := Some [] |}
               else params_score params in
  c ← gets (fun W => length (consumers W));
  modify (with_consumers (fun l => l ++ [
    {| c_emitter := [];
       c_internal := params_internal params;
       c_data := params_data params;
       c_appData := appData;
       c_paused := params_paused params;
       c_closed := 0%N;
       c_producerPaused := params_producerPaused params;
       c_priority := 0%N;
       c_score := score;
       c_preferredLayers := params_preferredLayers params;
       c_currentLayers := ConsumerLayers_zero;
       c_observer := [] |} ])) ;;
  Consumer_handleWorkerNotifications c ;;
  mret c.

(** *** The base transport *)

Definition Transport_Closed (t : nat) : M bool :=
  transport ← transportAt t;
  mret (t_closed (pt_ITransport transport)).

Definition Transport_Id (t : nat) : M string :=
  transport ← transportAt t;
  mret (TransportId (pt_internal transport)).

Definition Transport_SafeEmit (t : nat) (name : string) (args : list EventArg) : M unit :=
  transport ← transportAt t;
  emit (OfTransport t) (t_emitter (pt_ITransport transport)) name args.

Definition Transport_observer_SafeEmit (t : nat) (name : string) (args : list EventArg)
    : M unit :=
  transport ← transportAt t;
  emit (TransportObserver t) (t_observer (pt_ITransport transport)) name args.

(** Modelled from the spec: [Transport.Close] ([transport.go] is not among
    the sources).  Close is idempotent (section 8); it sends
    [transport.close] (section 6), closes every consumer the transport owns
    before its own [close] event fires (sections 3 and 8), and the observer
    sees [close] once. *)
Definition Transport_Close (t : nat) : M unit :=
  closed ← Transport_Closed t;
  if closed : bool then mret tt
  else
    updTransport t (with_pt_ITransport (with_t_closed (fun _ => true))) ;;
    transport ← transportAt t;
    Channel_RemoveAllListeners (TransportId (pt_internal transport)) ;;
    Channel_Request "transport.close" (Some (pt_internal transport)) None ;;
    forM (map_to_list (t_consumers (pt_ITransport transport)))
         (fun kv => Consumer_transportClosed kv.2) ;;
    updTransport t (with_pt_ITransport (with_t_consumers (fun _ => ∅))) ;;
    Transport_SafeEmit t "@close" [] ;;
    Transport_observer_SafeEmit t "close" [].

(** Modelled from the spec: [Transport.routerClosed], the parent-initiated
    closure (sections 3 and 7): the same terminal transition without a
    request to the worker. *)
Definition Transport_routerClosed (t : nat) : M unit :=
  closed ← Transport_Closed t;
  if closed : bool then mret tt
  else
    updTransport t (with_pt_ITransport (with_t_closed (fun _ => true))) ;;
    transport ← transportAt t;
    Channel_RemoveAllListeners (TransportId (pt_internal transport)) ;;
    forM (map_to_list (t_consumers (pt_ITransport transport)))
         (fun kv => Consumer_transportClosed kv.2) ;;
    updTransport t (with_pt_ITransport (with_t_consumers (fun _ => ∅))) ;;
    Transport_SafeEmit t "routerclose" [] ;;
    Transport_observer_SafeEmit t "close" [].

(** *** PipeTransport *)

(** [transportParams], as far as [newPipeTransport] reads it. *)
Record transportParams := {
  tp_internal : internalData;
  tp_appData : AppData;
  tp_getProducerById : string -> option Producer
}.

Definition PipeTransport_onNotification (t : nat) (event : string) (data : list Byte.byte)
    : M unit :=
  if (event =? "sctpstatechange")%string then
    let sctpState := (json_sctpState data EmptyString).1 in
    updTransport t (with_pt_data (with_data_sctpState (fun _ => sctpState))) ;;
    Transport_SafeEmit t "sctpstatechange" [ArgSctpState sctpState] ;;
    Transport_observer_SafeEmit t "sctpstatechange" [ArgSctpState sctpState]
  else if (event =? "trace")%string then
    let result := (json_transportTrace data {| transport_trace_raw := EmptyString |}).1 in
    Transport_SafeEmit t "trace" [ArgTransportTrace result] ;;
    Transport_observer_SafeEmit t "trace" [ArgTransportTrace result]
  else
    logf "PipeTransport" Error (quoted "ignoring unknown event " "%s" EmptyString) [AStr event].

Definition PipeTransport_handleWorkerNotifications (t : nat) : M unit :=
  id ← Transport_Id t;
  Channel_On id (PipeTransportNotifications t).

Definition newPipeTransport (params : transportParams) (data : pipeTransortData) : M nat :=
  t ← gets (fun W => length (transports W));
  modify (with_transports (fun l => l ++ [
    {| pt_ITransport := newTransport;
       pt_internal := tp_internal params;
       pt_data := data;
       pt_getProducerById := tp_getProducerById params |} ])) ;;
  PipeTransport_handleWorkerNotifications t ;;
  mret t.

Definition PipeTransport_Close (t : nat) : M unit :=
  closed ← Transport_Closed t;
  if closed : bool then mret tt
  else
    transport ← transportAt t;
    (if (0 <? String.length (data_sctpState (pt_data transport)))%nat
     then updTransport t (with_pt_data (with_data_sctpState (fun _ => SctpState_Closed)))
     else mret tt) ;;
    Transport_Close t.

Definition PipeTransport_routerClosed (t : nat) : M unit :=
  closed ← Transport_Closed t;
  if closed : bool then mret tt
  else
    transport ← transportAt t;
    (if (0 <? String.length (data_sctpState (pt_data transport)))%nat
     then updTransport t (with_pt_data (with_data_sctpState (fun _ => SctpState_Closed)))
     else mret tt) ;;
    Transport_routerClosed t.

Definition PipeTransport_Connect (t : nat) (options : TransportConnectOptions)
    : M (option error) :=
  logf "PipeTransport" Debug "connect()" [] ;;
  transport ← transportAt t;
  let reqData := {| conn_Ip := conn_Ip options; conn_Port := conn_Port options;
                    conn_SrtpParameters := conn_SrtpParameters options |} in
  resp ← Channel_Request "transport.connect" (Some (pt_internal transport))
           (Some (DataConnect reqData));
  let data := Response_Unmarshal (json_tuple) resp {| tuple_raw := EmptyString |} in
  match data.2 with
  | Some err => mret (Some err)
  | None =>
      updTransport t (with_pt_data (with_data_tuple (fun _ => data.1))) ;;
      mret None
  end.

Definition PipeTransport_Consume (t : nat) (options : ConsumerOptions)
    : M (option nat * option error) :=
  logf "PipeTransport" Debug "consume()" [] ;;
  transport ← transportAt t;
  let producerId := opt_ProducerId options in
  let appData := opt_AppData options in
  match pt_getProducerById transport producerId with
  | None =>
      mret (None, Some (fmt_Errorf (quoted "Producer with id " "%s" " not found")
                                   [AStr producerId]))
  | Some producer =>
      let rtpParameters :=
        getPipeConsumerRtpParameters (producer_ConsumableRtpParameters producer)
                                     (data_rtx (pt_data transport)) in
      id ← uuid_String;
      let internal :=
        {| RouterId := RouterId (pt_internal transport);
           TransportId := TransportId (pt_internal transport);
           ProducerId := producerId;
           ConsumerId := id;
           DataProducerId := DataProducerId (pt_internal transport);
           DataConsumerId := DataConsumerId (pt_internal transport) |} in
      resp ← Channel_Request "transport.consume" (Some internal)
               (Some (DataConsume (producer_Kind producer) rtpParameters "pipe"
                        (Encodings (producer_ConsumableRtpParameters producer))));
      let status := Response_Unmarshal (json_status) resp (false, false) in
      match status.2 with
      | Some err => mret (None, Some err)
      | None =>
          consumer ← newConsumer
            {| params_internal := internal;
               params_data := {| data_Kind := producer_Kind producer; data_Type := "pipe";
                                 data_RtpParameters := rtpParameters |};
               params_appData := appData;
               params_paused := status.1.1;
               params_producerPaused := status.1.2;
               params_score := ConsumerScore_zero;
               params_preferredLayers := ConsumerLayers_zero |};
          cid ← Consumer_Id consumer;
          updTransport t (with_pt_ITransport (with_t_consumers (insert cid consumer))) ;;
          Consumer_On consumer "@close" (DeleteConsumer t cid) ;;
          Consumer_On consumer "@producerclose" (DeleteConsumer t cid) ;;
          Transport_observer_SafeEmit t "newconsumer" [ArgConsumer consumer] ;;
          mret (Some consumer, None)
      end
  end.

(** *** Router, as the worker needs it *)

(** [routerOptions], as far as the worker fills it. *)
Record routerOptions := {
  ro_internal : internalData;
  ro_rtpCapabilities : Rtp.RtpCapabilities;
  ro_appData : AppData
}.

(** Modelled from the spec: [newRouter] builds an open router. *)
Definition newRouter (options : routerOptions) : M nat :=
  r ← gets (fun W => length (routers W));
  modify (with_routers (fun l => l ++ [
    {| r_internal := ro_internal options;
       r_rtpCapabilities := ro_rtpCapabilities options;
       r_appData := ro_appData options;
       r_closed := false;
       r_emitter := [];
       r_observer := [] |} ])) ;;
  mret r.

Definition Router_On (r : nat) (name : string) (h : Handler) : M unit :=
  updRouter r (with_r_emitter (fun l => l ++ [(name, h)])).

(** Modelled from the spec: [Router.workerClosed], the parent-initiated
    closure of a router (section 4.6): an idempotent terminal transition that
    emits [workerclose] and, on the observer, [close].  The transports of a
    router are outside the sources; their closure by the router is
    [PipeTransport_routerClosed]. *)
Definition Router_workerClosed (r : nat) : M unit :=
  router ← routerAt r;
  if r_closed router then mret tt
  else
    updRouter r (with_r_closed (fun _ => true)) ;;
    emit (OfRouter r) (r_emitter router) "workerclose" [] ;;
    emit (RouterObserver r) (r_observer router) "close" [].

(** *** Worker (worker.go) *)

(** [strings.Join(l, sep)] *)
Fixpoint strings_Join (l : list string) (sep : string) : string :=
  match l with
  | [] => EmptyString
  | [a] => a
  | a :: l' => (a +:+ sep +:+ strings_Join l' sep)%string
  end.

Definition WorkerSettings_Args (w : WorkerSettings) : list string :=
  let args := [("--logLevel=" +:+ set_LogLevel w)%string] in
  let args := args ++ map (fun logTag => ("--logTags=" +:+ logTag)%string) (set_LogTags w) in
  let args := args ++ [("--rtcMinPort=" +:+ pretty (set_RTCMinPort w))%string] in
  let args := args ++ [("--rtcMaxPort=" +:+ pretty (set_RTCMaxPort w))%string] in
  if (0 <? String.length (set_DTLSCertificateFile w))%nat
     && (0 <? String.length (set_DTLSPrivateKeyFile w))%nat
  then args ++ [("--dtlsCertificateFile=" +:+ set_DTLSCertificateFile w)%string;
                ("--dtlsPrivateKeyFile=" +:+ set_DTLSPrivateKeyFile w)%string]
  else args.

Definition Worker_Emit (name : string) (args : list EventArg) : M unit :=
  emit OfWorker [] name args.

Definition Worker_SafeEmit (name : string) (args : list EventArg) : M unit :=
  Worker_Emit name args.

Definition Worker_observer_SafeEmit (name : string) (args : list EventArg) : M unit :=
  emit WorkerObserver [] name args.

Definition Worker_Pid : M Z := gets (fun W => w_pid (worker W)).

Definition Worker_Closed : M bool := gets (fun W => w_closed (worker W)).

(** The listener [NewWorker] registers once on the pid of the child. *)
Definition Worker_onRunning (event : string) : M unit :=
  w ← gets worker;
  if negb (w_spawnDone w) && (event =? "running")%string then
    modify (with_worker (with_w_spawnDone (fun _ => true))) ;;
    logf "Worker" Debug "worker process running [pid:%d]" [AInt (w_pid w)] ;;
    Worker_Emit "@success" []
  else mret tt.

Definition Worker_Close : M unit :=
  w ← gets worker;
  if w_closed w then mret tt
  else
    logf "Worker" Debug "close()" [] ;;
    modify (with_worker (with_w_closed (fun _ => true))) ;;
    match w_child w with
    | Some pid =>
        modify (with_signals (fun l => l ++ [(pid, "SIGTERM")])) ;;
        modify (with_worker (with_w_child (fun _ => None)))
    | None => mret tt
    end ;;
    Channel_Close ;;
    PayloadChannel_Close ;;
    w ← gets worker;
    forM (map_to_list (w_routers w)) (fun kv => Router_workerClosed kv.2) ;;
    modify (with_worker (with_w_routers (fun _ => ∅))) ;;
    Worker_observer_SafeEmit "close" [].

(** What [w.child.Wait()] returns: nil, an [*exec.ExitError] whose [Sys()]
    is a [syscall.WaitStatus] or not, or another error. *)
Inductive WaitResult :=
| WaitNil
| WaitExitError (sys : option Z)
| WaitOtherError.

(** [syscall.WaitStatus] on Linux: a 32-bit status word. *)
Definition WaitStatus_Exited (w : Z) : bool := Z.land w 127 =? 0.

Definition WaitStatus_Signaled (w : Z) : bool :=
  negb (Z.land w 127 =? 127) && negb (Z.land w 127 =? 0).

Definition WaitStatus_Stopped (w : Z) : bool := Z.land w 255 =? 127.

Definition WaitStatus_ExitStatus (w : Z) : Z :=
  if WaitStatus_Exited w then Z.land (Z.shiftr w 8) 255 else -1.

Definition WaitStatus_Signal (w : Z) : Z :=
  if WaitStatus_Signaled w then Z.land w 127 else -1.

Definition WaitStatus_StopSignal (w : Z) : Z :=
  if WaitStatus_Stopped w then Z.land (Z.shiftr w 8) 255 else -1.

(** [code, signal] as [wait] computes them from the error of [Wait]. *)
Definition exitCodeAndSignal (err : WaitResult) : Z * string :=
  match err with
  | WaitExitError (Some status) =>
      (WaitStatus_ExitStatus status,
       if WaitStatus_Signaled status then signal_String (WaitStatus_Signal status)
       else if WaitStatus_Stopped status then signal_String (WaitStatus_StopSignal status)
       else EmptyString)
  | _ => (0, EmptyString)
  end.

(** [Worker.wait], from the point where [w.child.Wait()] has returned
    [err]. *)
Definition Worker_wait (err : WaitResult) : M unit :=
  modify (with_worker (with_w_child (fun _ => None))) ;;
  Worker_Close ;;
  let code := (exitCodeAndSignal err).1 in
  let signal := (exitCodeAndSignal err).2 in
  w ← gets worker;
  if negb (w_spawnDone w) then
    modify (with_worker (with_w_spawnDone (fun _ => true))) ;;
    if code =? 42 then
      logf "Worker" Error "worker process failed due to wrong settings [pid:%d]"
           [AInt (w_pid w)] ;;
      Worker_Emit "@failure" [ArgError (NewTypeError "wrong settings")]
    else
      logf "Worker" Error "worker process failed unexpectedly [pid:%d, code:%d, signal:%s]"
           [AInt (w_pid w); AInt code; AStr signal] ;;
      Worker_Emit "@failure"
        [ArgError (fmt_Errorf "[pid:%d, code:%d, signal:%s]"
                              [AInt (w_pid w); AInt code; AStr signal])]
  else
    logf "Worker" Error "worker process died unexpectedly [pid:%d, code:%d, signal:%s]"
         [AInt (w_pid w); AInt code; AStr signal] ;;
    Worker_SafeEmit "died"
      [ArgError (fmt_Errorf "[pid:%d, code:%d, signal:%s]"
                            [AInt (w_pid w); AInt code; AStr signal])].

Definition Worker_Dump : M (list Byte.byte * option error) :=
  logf "Worker" Debug "dump()" [] ;;
  resp ← Channel_Request "worker.dump" None None;
  mret (rsp_data resp, rsp_err resp).

Definition Worker_GetResourceUsage : M (WorkerResourceUsage * option error) :=
  logf "Worker" Debug "getResourceUsage()" [] ;;
  resp ← Channel_Request "worker.getResourceUsage" None None;
  mret (Response_Unmarshal (json_usage) resp (WorkerResourceUsage_zero)).

Definition Worker_UpdateSettings (settings : WorkerUpdateableSettings) : M (option error) :=
  logf "Worker" Debug "updateSettings()" [] ;;
  resp ← Channel_Request "worker.updateSettings" None (Some (DataSettings settings));
  mret (rsp_err resp).

Definition Worker_CreateRouter (options : RouterOptions) : M (option nat * option error) :=
  logf "Worker" Debug "createRouter()" [] ;;
  id ← uuid_String;
  let internal :=
    {| RouterId := id; TransportId := EmptyString; ProducerId := EmptyString;
       ConsumerId := EmptyString; DataProducerId := EmptyString;
       DataConsumerId := EmptyString |} in
  rsp ← Channel_Request "worker.createRouter" (Some internal) None;
  match rsp_err rsp with
  | Some err => mret (None, Some err)
  | None =>
      let caps := generateRouterRtpCapabilities (MediaCodecs options) in
      match caps.2 with
      | Some err => mret (None, Some err)
      | None =>
          router ← newRouter {| ro_internal := internal; ro_rtpCapabilities := caps.1;
                                ro_appData := router_opt_AppData options |};
          modify (with_worker (with_w_routers (insert id router))) ;;
          Router_On router "@close" (DeleteRouter id) ;;
          Worker_observer_SafeEmit "newrouter" [ArgRouter router] ;;
          mret (Some router, None)
      end
  end.

(** What the operating system does for [NewWorker]: one of the socket
    pairs, connections, pipes or the start of the child fails with an error,
    or the child runs under a pid. *)
Inductive Spawn :=
| SpawnFails (err : error)
| Started (pid : Z).

Definition defaultSettings : WorkerSettings :=
  {| set_LogLevel := "error"; set_LogTags := []; set_RTCMinPort := 10000;
     set_RTCMaxPort := 59999; set_DTLSCertificateFile := EmptyString;
     set_DTLSPrivateKeyFile := EmptyString; set_AppData := [] |}.

(** [NewWorker]: the world it builds, or the error.  An option is a function
    that edits the settings. *)
Definition NewWorker (options : list (WorkerSettings -> WorkerSettings)) (os : Spawn)
    : option World * option error :=
  let settings := fold_left (fun s option => option s) options defaultSettings in
  match os with
  | SpawnFails err => (None, Some err)
  | Started pid =>
      let W :=
        {| channel := {| ch_closed := false; ch_sent := []; ch_listeners := ∅ |};
           payloadChannel := {| pch_closed := false; pch_listeners := ∅ |};
           worker := {| w_child := Some pid; w_pid := pid; w_closed := false;
                        w_appData := set_AppData settings; w_routers := ∅;
                        w_spawnDone := false |};
           routers := []; transports := []; consumers := []; events := [];
           logs := [ {| log_logger := "Worker"; log_level := Debug;
                        log_format := "constructor()"; log_args := [] |};
                     {| log_logger := "Worker"; log_level := Debug;
                        log_format := "spawning worker process: %s %s";
                        log_args := [AStr (WorkerBin);
                                     AStr (strings_Join (WorkerSettings_Args settings) " ")] |} ];
           signals := [];
           goroutines := [ReadStderr; ReadStdout];
           uuids := 0 |} in
      let start : M unit :=
        Channel_Once (pretty pid) WorkerRunning ;;
        modify (with_goroutines (fun l => l ++ [ChildWait])) in
      (Some (start W).2, None)
  end.

(** What a goroutine of [NewWorker] does once the child has exited: the two
    readers leave their loops, and [worker.child.Wait()] returns a result
    that nothing reads. *)
Definition afterExit (g : Goroutine) (err : WaitResult) : M unit :=
  match g with
  | ReadStderr => mret tt
  | ReadStdout => mret tt
  | ChildWait => mret tt
  end.

(** The exit of the worker subprocess, as the package observes it. *)
Definition childExited (err : WaitResult) : M unit :=
  gs ← gets goroutines;
  modify (with_goroutines (fun _ => [])) ;;
  forM gs (fun g => afterExit g err).

(** *** Notifications from the worker *)

Definition runListener (l : Listener) (event : string) (data : list Byte.byte) : M unit :=
  match l with
  | WorkerRunning => Worker_onRunning event
  | ConsumerNotifications c => Consumer_onNotification c event data
  | PipeTransportNotifications t => PipeTransport_onNotification t event data
  end.

(** Modelled from the spec: a notification [{targetId, event, data}] goes to
    the listeners registered on [targetId] (section 4.2); a listener
    registered with [Once] is removed when it is called. *)
Definition Channel_notify (targetId event : string) (data : list Byte.byte) : M unit :=
  ch ← gets channel;
  let subs := default [] (ch_listeners ch !! targetId) in
  modify (with_channel (with_ch_listeners
            (alter (filter (fun s => sub_once s = false)) targetId))) ;;
  forM subs (fun s => runListener (sub_listener s) event data).

(** Modelled from the spec: a notification on the payload channel
    (section 4.3), with its payload. *)
Definition PayloadChannel_notify (targetId event : string) (data payload : list Byte.byte)
    : M unit :=
  pch ← gets payloadChannel;
  forM (default [] (pch_listeners pch !! targetId))
       (fun c => Consumer_onPayload c event data payload).

(** ** The calls a world goes through

    Everything the application, the worker process and the parent objects
    can do to the objects of a world. *)
Inductive Call :=
| CallConsumerClose (c : nat)
| CallConsumerTransportClosed (c : nat)
| CallConsumerDump (c : nat)
| CallConsumerGetStats (c : nat)
| CallConsumerPause (c : nat)
| CallConsumerResume (c : nat)
| CallConsumerSetPreferredLayers (c : nat) (layers : ConsumerLayers)
| CallConsumerSetPriority (c : nat) (priority : N)
| CallConsumerUnsetPriority (c : nat)
| CallConsumerRequestKeyFrame (c : nat)
| CallConsumerEnableTraceEvent (c : nat) (types : list string)
| CallNotify (targetId event : string) (data : list Byte.byte)
| CallPayloadNotify (targetId event : string) (data payload : list Byte.byte)
| CallNewPipeTransport (params : transportParams) (data : pipeTransortData)
| CallPipeTransportClose (t : nat)
| CallPipeTransportRouterClosed (t : nat)
| CallPipeTransportConnect (t : nat) (options : TransportConnectOptions)
| CallPipeTransportConsume (t : nat) (options : ConsumerOptions)
| CallRouterWorkerClosed (r : nat)
| CallWorkerClose
| CallWorkerWait (err : WaitResult)
| CallWorkerDump
| CallWorkerGetResourceUsage
| CallWorkerUpdateSettings (settings : WorkerUpdateableSettings)
| CallWorkerCreateRouter (options : RouterOptions)
| CallChildExited (err : WaitResult).

Definition run (call : Call) : M unit :=
  match call with
  | CallConsumerClose c => Consumer_Close c ;; mret tt
  | CallConsumerTransportClosed c => Consumer_transportClosed c
  | CallConsumerDump c => Consumer_Dump c ;; mret tt
  | CallConsumerGetStats c => Consumer_GetStats c ;; mret tt
  | CallConsumerPause c => Consumer_Pause c ;; mret tt
  | CallConsumerResume c => Consumer_Resume c ;; mret tt
  | CallConsumerSetPreferredLayers c layers => Consumer_SetPreferredLayers c layers ;; mret tt
  | CallConsumerSetPriority c priority => Consumer_SetPriority c priority ;; mret tt
  | CallConsumerUnsetPriority c => Consumer_UnsetPriority c ;; mret tt
  | CallConsumerRequestKeyFrame c => Consumer_RequestKeyFrame c ;; mret tt
  | CallConsumerEnableTraceEvent c types => Consumer_EnableTraceEvent c types ;; mret tt
  | CallNotify targetId event data => Channel_notify targetId event data
  | CallPayloadNotify targetId event data payload =>
      PayloadChannel_notify targetId event data payload
  | CallNewPipeTransport params data => newPipeTransport params data ;; mret tt
  | CallPipeTransportClose t => PipeTransport_Close t
  | CallPipeTransportRouterClosed t => PipeTransport_routerClosed t
  | CallPipeTransportConnect t options => PipeTransport_Connect t options ;; mret tt
  | CallPipeTransportConsume t options => PipeTransport_Consume t options ;; mret tt
  | CallRouterWorkerClosed r => Router_workerClosed r
  | CallWorkerClose => Worker_Close
  | CallWorkerWait err => Worker_wait err
  | CallWorkerDump => Worker_Dump ;; mret tt
  | CallWorkerGetResourceUsage => Worker_GetResourceUsage ;; mret tt
  | CallWorkerUpdateSettings settings => Worker_UpdateSettings settings ;; mret tt
  | CallWorkerCreateRouter options => Worker_CreateRouter options ;; mret tt
  | CallChildExited err => childExited err
  end.

(** The world after a list of calls. *)
Definition runAll (calls : list Call) (W : World) : World := (forM calls run W).2.

(** The worlds of the package: what [NewWorker] builds, and what calls make
    of it. *)
Inductive reachable : World -> Prop :=
| reachable_new options pid W :
    NewWorker options (Started pid) = (Some W, None) -> reachable W
| reachable_call W call :
    reachable W -> reachable (run call W).2.

(** ** What is observed of a world *)

(** The events emitted between two worlds, the later one extending the
    earlier one. *)
Definition emitted (W W' : World) : list Event := drop (length (events W)) (events W').

Definition isEvent (src : Emitter) (name : string) (e : Event) : bool :=
  bool_decide (ev_emitter e = src) && (ev_name e =? name)%string.

(** How many times [src] has emitted [name]. *)
Definition occurrences (src : Emitter) (name : string) (l : list Event) : nat :=
  length (List.filter (isEvent src name) l).

(** The [pause] and [resume] events on the observer of consumer [c], in
    order. *)
Definition observerPauseResume (c : nat) (l : list Event) : list string :=
  map ev_name
      (List.filter (fun e => isEvent (ConsumerObserver c) "pause" e
                             || isEvent (ConsumerObserver c) "resume" e) l).

(** Effective pause of a consumer: [paused || producerPaused]. *)
Definition effectivePaused (consumer : Consumer) : bool :=
  c_paused consumer || c_producerPaused consumer.

(** What the observer must see when the effective pause goes from [before]
    to [after]. *)
Definition transition (before after : bool) : list string :=
  if negb before && after then ["pause"]
  else if before && negb after then ["resume"]
  else [].

(** Between [W] and [W'] the observer of consumer [c] has seen exactly the
    transition of its effective pause. *)
Definition followsEffectivePause (c : nat) (W W' : World) : Prop :=
  exists consumer consumer',
    consumers W !! c = Some consumer /\
    consumers W' !! c = Some consumer' /\
    observerPauseResume c (emitted W W')
    = transition (effectivePaused consumer) (effectivePaused consumer').

(** The closed flag behind an observer: [Closed()] of the object when the
    address names one. *)
Definition closedOf (W : World) (o : Emitter) : bool :=
  match o with
  | WorkerObserver => w_closed (worker W)
  | RouterObserver r =>
      match routers W !! r with Some router => r_closed router | None => false end
  | TransportObserver t =>
      match transports W !! t with
      | Some transport => t_closed (pt_ITransport transport)
      | None => false
      end
  | ConsumerObserver c =>
      match consumers W !! c with
      | Some consumer => (0 <? c_closed consumer)%N
      | None => false
      end
  | _ => false
  end.

Definition isObserver (o : Emitter) : bool :=
  match o with
  | WorkerObserver | RouterObserver _ | TransportObserver _ | ConsumerObserver _ => true
  | _ => false
  end.

(** The [close] events an observer has seen. *)
Definition closeCount (W : World) (o : Emitter) : nat := occurrences o "close" (events W).

(** A closed worker has closed its channel. *)
Definition channelFollows (W : World) : Prop :=
  w_closed (worker W) = true -> ch_closed (channel W) = true.

(** What the handlers of the package leave alone: they only edit the maps
    of owned objects. *)
Definition ownershipOnly (W W' : World) : Prop :=
  channel W' = channel W /\ payloadChannel W' = payloadChannel W /\
  routers W' = routers W /\ consumers W' = consumers W /\ events W' = events W /\
  logs W' = logs W /\ signals W' = signals W /\ goroutines W' = goroutines W /\
  uuids W' = uuids W /\
  w_closed (worker W') = w_closed (worker W) /\
  w_spawnDone (worker W') = w_spawnDone (worker W) /\
  w_pid (worker W') = w_pid (worker W) /\
  w_child (worker W') = w_child (worker W) /\
  (forall t, closedOf W' (TransportObserver t) = closedOf W (TransportObserver t)).

(** ** Closing, as a relation between worlds

    A method that closes an object sets the closed flag first and lets the
    observer see [close] last; in between, the emission is pending.  The
    ledger of an observer counts the [close] events it has seen and the one
    that is pending. *)
Definition pendingOn (p : option Emitter) (o : Emitter) : nat :=
  if decide (p = Some o) then 1%nat else 0%nat.

Definition ledger (p : option Emitter) (W : World) (o : Emitter) : nat :=
  (closeCount W o + pendingOn p o)%nat.

(** From [W], where the emission [p] is pending, to [W'], where [p'] is:
    every observer either keeps its closed flag and its ledger, or its
    object goes from open to closed and its ledger grows by one; the channel
    does not reopen, and a closed worker keeps a closed channel. *)
Definition advance (p p' : option Emitter) (W W' : World) : Prop :=
  (forall o, isObserver o = true ->
     (closedOf W' o = closedOf W o /\ ledger p' W' o = ledger p W o) \/
     (closedOf W o = false /\ closedOf W' o = true /\
      ledger p' W' o = S (ledger p W o))) /\
  (ch_closed (channel W) = true -> ch_closed (channel W') = true) /\
  (channelFollows W -> channelFollows W').

(** A step that closes nothing and shows no [close] to any observer. *)
Definition still (W W' : World) : Prop :=
  (forall o, isObserver o = true ->
     closedOf W' o = closedOf W o /\ closeCount W' o = closeCount W o) /\
  (ch_closed (channel W) = true -> ch_closed (channel W') = true).

Definition advances {A} (p : option Emitter) (m : M A) (q : A -> option Emitter) : Prop :=
  forall W, advance p (q (m W).1) W (m W).2.

Definition quiet {A} (m : M A) : Prop := forall W, still W (m W).2.

(** In a sound world every observer has seen [close] once if its object is
    closed and never if it is open, and a closed worker has a closed
    channel. *)
Definition sound (W : World) : Prop :=
  (forall o, isObserver o = true ->
     closeCount W o = if closedOf W o then 1%nat else 0%nat) /\
  channelFollows W.

(** What the cascade over the routers keeps of the worker and the channel. *)
Definition workerKept (W W' : World) : Prop :=
  w_closed (worker W') = w_closed (worker W) /\
  w_spawnDone (worker W') = w_spawnDone (worker W) /\
  w_pid (worker W') = w_pid (worker W) /\
  channel W' = channel W /\
  length (routers W') = length (routers W).

(** ** Frames for the properties of single methods *)

(** What the closure of a router leaves alone: everything but the routers
    themselves, the events and the ownership maps. *)
Definition routersOnly (W W' : World) : Prop :=
  channel W' = channel W /\ payloadChannel W' = payloadChannel W /\
  consumers W' = consumers W /\ logs W' = logs W /\ signals W' = signals W /\
  goroutines W' = goroutines W /\ uuids W' = uuids W /\
  w_closed (worker W') = w_closed (worker W) /\
  w_spawnDone (worker W') = w_spawnDone (worker W) /\
  w_pid (worker W') = w_pid (worker W) /\
  w_child (worker W') = w_child (worker W) /\
  length (routers W') = length (routers W).

(** A computation keeps a relation between the world it starts from and the
    world it leaves. *)
Definition keeps {A} (R : World -> World -> Prop) (m : M A) : Prop :=
  forall W, R W (m W).2.

(** Nothing was written on the channel and it was not closed. *)
Definition sameTraffic (W W' : World) : Prop :=
  ch_sent (channel W') = ch_sent (channel W) /\
  ch_closed (channel W') = ch_closed (channel W).

(** The data of every pipe transport is as it was. *)
Definition sameData (W W' : World) : Prop :=
  forall t, pt_data <$> transports W' !! t = pt_data <$> transports W !! t.

(** Transport [t], if there is one, has no consumer under [id]. *)
Definition absentFrom (t : nat) (id : string) (W : World) : Prop :=
  forall transport, transports W !! t = Some transport ->
                    t_consumers (pt_ITransport transport) !! id = None.

(** Once gone from the map of [t], [id] does not come back. *)
Definition staysAbsent (t : nat) (id : string) (W W' : World) : Prop :=
  absentFrom t id W -> absentFrom t id W'.

(** The worker keeps its closed flag and gains no router. *)
Definition noRouterGained (W W' : World) : Prop :=
  w_closed (worker W') = w_closed (worker W) /\
  (w_routers (worker W) = ∅ -> w_routers (worker W') = ∅).

(** The child process and the signals sent are as they were. *)
Definition sameProcess (W W' : World) : Prop :=
  signals W' = signals W /\
  w_child (worker W') = w_child (worker W) /\
  w_pid (worker W') = w_pid (worker W) /\
  w_closed (worker W') = w_closed (worker W).

(** The worker holds its child and has sent no signal, or it has let go of
    the child and has sent at most SIGTERM, once, to the pid of the child
    and on closing. *)
Definition signalledOnce (W : World) : Prop :=
  (w_child (worker W) = Some (w_pid (worker W)) /\ signals W = []) \/
  (w_child (worker W) = None /\
   (signals W = [] \/
    (signals W = [(w_pid (worker W), "SIGTERM")] /\ w_closed (worker W) = true))).

(** Every consumer that listens on the channel is open and listens under
    its own identifier. *)
Definition listensOpen (W : World) : Prop :=
  forall key subs s c,
    ch_listeners (channel W) !! key = Some subs ->
    s ∈ subs ->
    sub_listener s = ConsumerNotifications c ->
    exists consumer,
      consumers W !! c = Some consumer /\
      c_closed consumer = 0%N /\
      ConsumerId (c_internal consumer) = key.

Definition keepsListeners (W W' : World) : Prop := listensOpen W -> listensOpen W'.

End Package.

(** ** An example world

    A worker that accepts every request and answers with no data, a router
    that knows one producer, a pipe transport and a consumer of that
    producer.  The worlds below are what the calls of the package make of
    them. *)
Definition acceptingWorker : Env :=
  {| reply := fun _ _ => {| rsp_data := []; rsp_err := None |};
     uuid_NewV4 := fun n => ("uuid-" +:+ pretty n)%string;
     WorkerBin := "mediasoup-worker";
     SctpState_Closed := "closed";
     signal_String := fun _ => "signal";
     getPipeConsumerRtpParameters := fun parameters _ => parameters;
     generateRouterRtpCapabilities := fun _ =>
       ({| Rtp.Codecs := Rtp.nil_slice; Rtp.HeaderExtensions := Rtp.nil_slice;
           Rtp.FecMechanisms := Rtp.nil_slice |}, None);
     ConsumerStat := unit;
     WorkerResourceUsage := unit;
     WorkerResourceUsage_zero := tt;
     json_stats := fun _ v => (v, None);
     json_usage := fun _ v => (v, None);
     json_layers := fun _ v => (v, None);
     json_priority := fun _ v => (v, None);
     json_score := fun _ v => (v, None);
     json_trace := fun _ v => (v, None);
     json_status := fun _ v => (v, None);
     json_tuple := fun _ v => (v, None);
     json_sctpState := fun _ v => (v, None);
     json_transportTrace := fun _ v => (v, None) |}.

Definition blankWorld : World :=
  {| channel := {| ch_closed := false; ch_sent := []; ch_listeners := ∅ |};
     payloadChannel := {| pch_closed := false; pch_listeners := ∅ |};
     worker := {| w_child := None; w_pid := 0; w_closed := false; w_appData := [];
                  w_routers := ∅; w_spawnDone := false |};
     routers := []; transports := []; consumers := []; events := []; logs := [];
     signals := []; goroutines := []; uuids := 0 |}.

(** The world [NewWorker] builds for a child that runs under pid 4242. *)
Definition spawnedWorld : World :=
  default blankWorld (NewWorker (E := acceptingWorker) [] (Started 4242)).1.

Definition exampleProducer : Producer :=
  {| producer_Kind := "video";
     producer_ConsumableRtpParameters :=
       {| Mid := "0";
          Encodings := [ {| enc_Ssrc := 11111; enc_Rid := EmptyString;
                            enc_CodecPayloadType := 101; enc_RtxSsrc := None |} ];
          RtcpCname := "cname" |} |}.

Definition exampleTransportParams : transportParams :=
  {| tp_internal :=
       {| RouterId := "router-1"; TransportId := "transport-1"; ProducerId := EmptyString;
          ConsumerId := EmptyString; DataProducerId := EmptyString;
          DataConsumerId := EmptyString |};
     tp_appData := None;
     tp_getProducerById := fun id =>
       if (id =? "producer-1")%string then Some exampleProducer else None |}.

Definition consumeOptions (producerId : string) : ConsumerOptions :=
  {| opt_ProducerId := producerId;
     opt_RtpCapabilities :=
       {| Rtp.Codecs := Rtp.nil_slice; Rtp.HeaderExtensions := Rtp.nil_slice;
          Rtp.FecMechanisms := Rtp.nil_slice |};
     opt_Paused := false;
     opt_PreferredLayers := ConsumerLayers_zero;
     opt_AppData := None |}.

(** Parameters for a consumer with a given score. *)
Definition exampleParams (score : ConsumerScore) : consumerParams :=
  {| params_internal := internalData_zero;
     params_data := {| data_Kind := "video"; data_Type := "pipe";
                       data_RtpParameters :=
                         producer_ConsumableRtpParameters exampleProducer |};
     params_appData := None; params_paused := false; params_producerPaused := false;
     params_score := score; params_preferredLayers := ConsumerLayers_zero |}.

(** A pipe transport at address 0. *)
Definition transportWorld : World :=
  runAll (E := acceptingWorker)
    [CallNewPipeTransport exampleTransportParams pipeTransortData_zero] spawnedWorld.

(** The transport and an open consumer of [producer-1] at address 0. *)
Definition consumerWorld : World :=
  runAll (E := acceptingWorker)
    [CallPipeTransportConsume 0 (consumeOptions "producer-1")] transportWorld.

(** The same after [Close()] on the consumer. *)
Definition closedConsumerWorld : World :=
  runAll (E := acceptingWorker) [CallConsumerClose 0] consumerWorld.

(** The same after [Close()] on the transport instead. *)
Definition closedTransportWorld : World :=
  runAll (E := acceptingWorker) [CallPipeTransportClose 0] consumerWorld.

(** The world after [Close()] on the worker. *)
Definition closedWorkerWorld : World :=
  runAll (E := acceptingWorker) [CallWorkerClose] consumerWorld.

(** The example worker after [CreateRouter]: a router at address 0. *)
Definition routerWorld : World :=
  runAll (E := acceptingWorker)
    [CallWorkerCreateRouter {| MediaCodecs := []; router_opt_AppData := None |}] spawnedWorld.

(** The same after [Close()] on the worker. *)
Definition closedRouterWorld : World :=
  runAll (E := acceptingWorker) [CallWorkerClose] routerWorld.

(** A pipe transport that uses SCTP, at address 0. *)
Definition sctpTransportWorld : World :=
  runAll (E := acceptingWorker)
    [CallNewPipeTransport exampleTransportParams
       {| data_tuple := {| tuple_raw := EmptyString |};
          data_sctpParameters := {| sctp_raw := "sctp" |};
          data_sctpState := "connected"; data_rtx := false;
          data_srtpParameters := {| srtp_raw := EmptyString |} |}] spawnedWorld.

(** * Properties of the package *)

Section Properties.

Context {E : Env}.

Ltac munfold := unfold mbind, M_bind, mret, M_ret, gets, modify in *.

Arguments runHandlers : simpl never.

(** ** Handlers only edit the ownership maps *)

Lemma ownershipOnly_refl W : ownershipOnly W W.
Proof. repeat split. Qed.

Lemma ownershipOnly_trans W1 W2 W3 :
  ownershipOnly W1 W2 -> ownershipOnly W2 W3 -> ownershipOnly W1 W3.
Proof.
  unfold ownershipOnly. intros H1 H2.
  destruct H1 as (?&?&?&?&?&?&?&?&?&?&?&?&?&?), H2 as (?&?&?&?&?&?&?&?&?&?&?&?&?&?).
  repeat split; try congruence.
Qed.

Lemma runHandler_ownershipOnly h W : ownershipOnly W (runHandler h W).2.
Proof.
  destruct h as [t id|id]; cbn; repeat split.
  intros t'. cbn. unfold closedOf. cbn.
  rewrite list_lookup_alter. destruct (decide (t = t')) as [->|Hne].
  - destruct (transports W !! t'); reflexivity.
  - reflexivity.
Qed.

Lemma runHandlers_spec hs name W :
  exists W', runHandlers hs name W = (tt, W') /\ ownershipOnly W W'.
Proof.
  unfold runHandlers. generalize (filter (fun h : string * Handler => h.1 = name) hs).
  intros l. revert W. induction l as [|h l IH]; intros W.
  - exists W. split; [reflexivity | apply ownershipOnly_refl].
  - cbn. munfold.
    pose proof (runHandler_ownershipOnly h.2 W) as Hh.
    destruct (runHandler h.2 W) as [[] W1]. cbn in Hh.
    destruct (IH W1) as (W2 & HW2 & Hown).
    exists W2. split; [exact HW2 | eapply ownershipOnly_trans; eauto].
Qed.

(** After the handlers of an emission have run, the world they left is read
    through the one they started from. *)
Ltac handlers :=
  match goal with
  | |- context [runHandlers ?hs ?n ?W] =>
      let W' := fresh "W" in
      let H := fresh "Hown" in
      destruct (runHandlers_spec hs n W) as (W' & -> & H);
      destruct H as (?&?&?&?&?&?&?&?&?&?&?&?&?&?); cbn in *
  end.

Lemma emitted_app W W' l : events W' = events W ++ l -> emitted W W' = l.
Proof. intros H. unfold emitted. rewrite H. apply drop_app_length. Qed.

Lemma emitted_same W W' : events W' = events W -> emitted W W' = [].
Proof. intros H. apply emitted_app. rewrite H. symmetry. apply app_nil_r. Qed.

Ltac unfold_consumer :=
  unfold Consumer_Close, Consumer_transportClosed, Consumer_Pause, Consumer_Resume,
    Consumer_Dump, Consumer_GetStats, Consumer_SetPreferredLayers, Consumer_UnsetPriority,
    Consumer_SetPriority, Consumer_RequestKeyFrame, Consumer_EnableTraceEvent,
    Consumer_onNotification, Consumer_onPayload, Consumer_handleWorkerNotifications,
    Consumer_Closed, Consumer_Score, Consumer_Priority, Consumer_Id,
    Consumer_CompareAndSwap_closed, Consumer_SafeEmit, Consumer_Emit,
    Consumer_observer_SafeEmit, Consumer_On, emit,
    consumerAt, updConsumer, logf, Channel_RemoveAllListeners,
    PayloadChannel_RemoveAllListeners, Channel_Request, Channel_On, subscribe,
    PayloadChannel_On in *.

(** ** The score of a new consumer *)

Lemma newConsumer_allocates params W :
  (newConsumer params W).1 = length (consumers W) /\
  exists consumer,
    consumers (newConsumer params W).2 = consumers W ++ [consumer] /\
    c_closed consumer = 0%N /\
    c_score consumer =
      (if reflect_DeepEqual (params_score params) ConsumerScore_zero
       then {| Score := 10; ProducerScore := 10; ProducerScores := Some [] |}
       else params_score params) /\
    events (newConsumer params W).2 = events W /\
    worker (newConsumer params W).2 = worker W /\
    transports (newConsumer params W).2 = transports W /\
    routers (newConsumer params W).2 = routers W /\
    ch_closed (channel (newConsumer params W).2) = ch_closed (channel W).
Proof.
  unfold newConsumer. unfold_consumer. munfold. cbn.
  split; [reflexivity|]. eexists. repeat split.
Qed.

(** C8. A consumer built from parameters whose score is the zero value of
    [ConsumerScore] has the score [{10, 10, []}]; built from any other
    score, it has that score unchanged. *)
Theorem newConsumer_default_score params W :
  let c := (newConsumer params W).1 in
  let W' := (newConsumer params W).2 in
  (params_score params = ConsumerScore_zero ->
   (Consumer_Score c W').1
   = {| Score := 10; ProducerScore := 10; ProducerScores := Some [] |}) /\
  (params_score params <> ConsumerScore_zero ->
   (Consumer_Score c W').1 = params_score params).
Proof.
  intros c W'. subst c W'.
  destruct (newConsumer_allocates params W) as (Hc & consumer & Hcs & _ & Hscore & _).
  unfold Consumer_Score, consumerAt. munfold. cbn.
  rewrite Hc, Hcs, list_lookup_middle by reflexivity. cbn. rewrite Hscore.
  unfold reflect_DeepEqual. split; intros H.
  - rewrite bool_decide_eq_true_2 by exact H. reflexivity.
  - rewrite bool_decide_eq_false_2 by exact H. reflexivity.
Qed.

(** ** Unsetting the priority *)

(** C9. [UnsetPriority()] is [SetPriority(1)]: the two calls return the same
    error, leave the same consumers (so the same priority) and the same
    channel (so they have sent the same request), and emit the same events;
    on an open channel that request is [consumer.setPriority] with priority
    1.  Only the debug log tells them apart. *)
Theorem UnsetPriority_is_SetPriority_1 W c :
  let unset := Consumer_UnsetPriority c W in
  let set := Consumer_SetPriority c 1 W in
  unset.1 = set.1 /\
  (Consumer_Priority c unset.2).1 = (Consumer_Priority c set.2).1 /\
  consumers unset.2 = consumers set.2 /\
  channel unset.2 = channel set.2 /\
  events unset.2 = events set.2 /\
  (ch_closed (channel W) = false ->
   ch_sent (channel unset.2)
   = ch_sent (channel W) ++
     [ {| req_method := "consumer.setPriority";
          req_internal := Some (c_internal (default Consumer_absent (consumers W !! c)));
          req_data := Some (DataPriority 1) |} ]).
Proof.
  unfold_consumer. munfold. cbn.
  destruct (ch_closed (channel W)) eqn:Hch; cbn.
  - repeat split; intros; discriminate.
  - destruct (Response_Unmarshal _ _ _).2; cbn; repeat split.
Qed.

(** ** RTP packets for a closed consumer *)

(** C10. On a closed consumer the listener of the payload channel returns
    from an [rtp] notification without emitting: the world is unchanged. *)
Theorem rtp_on_closed_consumer W c consumer data payload :
  consumers W !! c = Some consumer ->
  (Consumer_Closed c W).1 = true ->
  Consumer_onPayload c "rtp" data payload W = (tt, W) /\
  emitted W (Consumer_onPayload c "rtp" data payload W).2 = [].
Proof.
  intros Hc Hclosed. revert Hclosed. unfold_consumer. munfold. cbn. rewrite Hc. cbn.
  intros ->. split; [reflexivity|]. apply emitted_same. reflexivity.
Qed.

(** ** Effective pause and the observer *)

Lemma transition_same b : transition b b = [].
Proof. destruct b; reflexivity. Qed.

Lemma Pause_transition W c consumer :
  consumers W !! c = Some consumer ->
  let W' := (Consumer_Pause c W).2 in
  exists consumer',
    consumers W' !! c = Some consumer' /\
    observerPauseResume c (emitted W W')
    = transition (effectivePaused consumer) (effectivePaused consumer').
Proof.
  intros Hc. unfold_consumer. munfold. cbn. rewrite Hc. cbn.
  destruct (ch_closed (channel W)) eqn:Hch; cbn.
  { exists consumer. split; [exact Hc|]. rewrite emitted_same by reflexivity.
    rewrite transition_same. reflexivity. }
  destruct (rsp_err _) eqn:Herr; cbn.
  { exists consumer. split; [exact Hc|]. rewrite emitted_same by reflexivity.
    rewrite transition_same. reflexivity. }
  unfold effectivePaused.
  destruct (c_paused consumer) eqn:Hp, (c_producerPaused consumer) eqn:Hpp; cbn.
  4: handlers.
  all: eexists; split;
    [ repeat match goal with H : consumers _ = _ |- _ => rewrite H end; cbn;
      rewrite list_lookup_alter_eq, Hc; reflexivity |].
  all: cbn; rewrite ?Hp, ?Hpp; cbn.
  1-3: rewrite emitted_same by reflexivity; reflexivity.
  erewrite emitted_app; [|etrans; [eassumption|reflexivity]].
  unfold observerPauseResume, isEvent. cbn. rewrite bool_decide_eq_true_2 by reflexivity.
  reflexivity.
Qed.

Ltac read_consumer Hc :=
  repeat match goal with H : consumers _ = _ |- _ => rewrite H end; cbn;
  rewrite ?list_lookup_alter_eq, ?Hc; cbn.

(** The events of the last world, in terms of those of the first. *)
Ltac chase_events :=
  cbn;
  repeat match goal with
         | H : events ?X = _ |- context [events ?X] => rewrite H
         end;
  cbn; rewrite <- ?app_assoc; cbn.

Ltac emitted_is :=
  first [ rewrite emitted_same by (chase_events; reflexivity)
        | erewrite emitted_app by (chase_events; reflexivity) ].

Ltac decide_emitters :=
  cbn; rewrite ?andb_false_r, ?andb_true_r; cbn;
  repeat (rewrite bool_decide_eq_true_2 by reflexivity);
  repeat (rewrite bool_decide_eq_false_2 by discriminate);
  cbn.

Ltac one_observer_event :=
  emitted_is; unfold observerPauseResume, isEvent; decide_emitters.

Lemma Resume_transition W c consumer :
  consumers W !! c = Some consumer ->
  let W' := (Consumer_Resume c W).2 in
  exists consumer',
    consumers W' !! c = Some consumer' /\
    observerPauseResume c (emitted W W')
    = transition (effectivePaused consumer) (effectivePaused consumer').
Proof.
  intros Hc. unfold_consumer. munfold. cbn. rewrite Hc. cbn.
  destruct (ch_closed (channel W)) eqn:Hch; cbn.
  { exists consumer. split; [exact Hc|]. rewrite emitted_same by reflexivity.
    rewrite transition_same. reflexivity. }
  destruct (rsp_err _) eqn:Herr; cbn.
  { exists consumer. split; [exact Hc|]. rewrite emitted_same by reflexivity.
    rewrite transition_same. reflexivity. }
  rewrite list_lookup_alter_eq, Hc. cbn. unfold effectivePaused.
  destruct (c_paused consumer) eqn:Hp, (c_producerPaused consumer) eqn:Hpp; cbn.
  2: handlers.
  all: eexists; split; [read_consumer Hc; reflexivity |].
  all: cbn; rewrite ?Hp, ?Hpp; cbn.
  1,3,4: rewrite emitted_same by reflexivity; reflexivity.
  one_observer_event. reflexivity.
Qed.

Lemma producerpause_transition W c consumer data :
  consumers W !! c = Some consumer ->
  let W' := (Consumer_onNotification c "producerpause" data W).2 in
  exists consumer',
    consumers W' !! c = Some consumer' /\
    observerPauseResume c (emitted W W')
    = transition (effectivePaused consumer) (effectivePaused consumer').
Proof.
  intros Hc. unfold_consumer. munfold. cbn. rewrite Hc. cbn. unfold effectivePaused.
  destruct (c_producerPaused consumer) eqn:Hpp; cbn.
  { exists consumer. split; [exact Hc|]. rewrite emitted_same by reflexivity.
    rewrite Hpp, transition_same. reflexivity. }
  rewrite list_lookup_alter_eq, Hc. cbn. handlers.
  destruct (c_paused consumer) eqn:Hp; cbn.
  2: (read_consumer Hc; handlers).
  all: eexists; split; [read_consumer Hc; reflexivity |].
  all: cbn; rewrite ?Hp, ?Hpp; cbn.
  all: one_observer_event; reflexivity.
Qed.

Lemma producerresume_transition W c consumer data :
  consumers W !! c = Some consumer ->
  let W' := (Consumer_onNotification c "producerresume" data W).2 in
  exists consumer',
    consumers W' !! c = Some consumer' /\
    observerPauseResume c (emitted W W')
    = transition (effectivePaused consumer) (effectivePaused consumer').
Proof.
  intros Hc. unfold_consumer. munfold. cbn. rewrite Hc. cbn. unfold effectivePaused.
  destruct (c_producerPaused consumer) eqn:Hpp; cbn.
  2: { exists consumer. split; [exact Hc|]. rewrite emitted_same by reflexivity.
       rewrite Hpp, transition_same. reflexivity. }
  rewrite list_lookup_alter_eq, Hc. cbn. handlers.
  read_consumer Hc.
  destruct (c_paused consumer) eqn:Hp; cbn.
  2: handlers.
  all: eexists; split; [read_consumer Hc; reflexivity |].
  all: cbn; rewrite ?Hp, ?Hpp; cbn.
  all: one_observer_event; reflexivity.
Qed.

(** C3. With the effective pause of a consumer being [paused ||
    producerPaused], each of [Pause()], [Resume()] and the handlers of the
    [producerpause] and [producerresume] notifications makes the observer see
    [pause] exactly when the effective pause goes from false to true,
    [resume] exactly when it goes from true to false, and neither when it
    does not change. *)
Theorem observer_follows_effective_pause W c consumer data :
  consumers W !! c = Some consumer ->
  followsEffectivePause c W (Consumer_Pause c W).2 /\
  followsEffectivePause c W (Consumer_Resume c W).2 /\
  followsEffectivePause c W (Consumer_onNotification c "producerpause" data W).2 /\
  followsEffectivePause c W (Consumer_onNotification c "producerresume" data W).2.
Proof.
  intros Hc. unfold followsEffectivePause. repeat split.
  - destruct (Pause_transition W c consumer Hc) as (c' & ? & ?). eauto 6.
  - destruct (Resume_transition W c consumer Hc) as (c' & ? & ?). eauto 6.
  - destruct (producerpause_transition W c consumer data Hc) as (c' & ? & ?). eauto 6.
  - destruct (producerresume_transition W c consumer data Hc) as (c' & ? & ?). eauto 6.
Qed.

(** ** The producer of a consumer closes *)

Lemma Closed_false W c consumer :
  consumers W !! c = Some consumer ->
  (Consumer_Closed c W).1 = false -> c_closed consumer = 0%N.
Proof.
  unfold_consumer. munfold. cbn. intros -> H. cbn in H.
  apply N.ltb_ge in H. lia.
Qed.

Lemma Closed_true_CAS W c :
  (Consumer_Closed c W).1 = true ->
  Consumer_CompareAndSwap_closed c 0 1 W = (false, W).
Proof.
  unfold_consumer. munfold. cbn. intros H.
  destruct (N.eqb_spec (c_closed (default Consumer_absent (consumers W !! c))) 0) as [Heq|];
    [|reflexivity].
  rewrite Heq in H. discriminate.
Qed.

(** On a closed consumer, [Close()], [transportClosed()] and the
    [producerclose] notification have no effect at all. *)
Lemma closed_consumer_stays W c data :
  (Consumer_Closed c W).1 = true ->
  Consumer_Close c W = (None, W) /\
  Consumer_transportClosed c W = (tt, W) /\
  Consumer_onNotification c "producerclose" data W = (tt, W).
Proof.
  intros H. apply Closed_true_CAS in H.
  unfold Consumer_Close, Consumer_transportClosed, Consumer_onNotification.
  cbn. unfold mbind, M_bind. rewrite H. repeat split.
Qed.

(** C5. A consumer that is not closed and receives [producerclose] becomes
    closed, loses its listeners on the channel and emits [@producerclose],
    [producerclose] and, on its observer, [close], once each and in this
    order; on the closed consumer a further [producerclose] or a [Close()]
    leaves the world as it is, so that nothing is emitted again. *)
Theorem producerclose_closes_once W c consumer data :
  consumers W !! c = Some consumer ->
  (Consumer_Closed c W).1 = false ->
  let W' := (Consumer_onNotification c "producerclose" data W).2 in
  (Consumer_Closed c W').1 = true /\
  ch_listeners (channel W') !! ConsumerId (c_internal consumer) = None /\
  emitted W W'
  = [ {| ev_emitter := OfConsumer c; ev_name := "@producerclose"; ev_args := [] |};
      {| ev_emitter := OfConsumer c; ev_name := "producerclose"; ev_args := [] |};
      {| ev_emitter := ConsumerObserver c; ev_name := "close"; ev_args := [] |} ] /\
  (forall W2 data2,
     (Consumer_Closed c W2).1 = true ->
     Consumer_onNotification c "producerclose" data2 W2 = (tt, W2) /\
     Consumer_Close c W2 = (None, W2)).
Proof.
  intros Hc Hopen W'.
  assert (Hlater : forall W2 data2,
             (Consumer_Closed c W2).1 = true ->
             Consumer_onNotification c "producerclose" data2 W2 = (tt, W2) /\
             Consumer_Close c W2 = (None, W2)).
  { intros W2 data2 H2. destruct (closed_consumer_stays W2 c data2 H2) as (?&?&?). auto. }
  pose proof (Closed_false W c consumer Hc Hopen) as H0.
  subst W'. unfold_consumer. munfold. cbn. rewrite Hc. cbn. rewrite H0. cbn.
  rewrite list_lookup_alter_eq, Hc. cbn.
  handlers. read_consumer Hc. handlers. read_consumer Hc. handlers.
  split; [|split; [|split; [|exact Hlater]]].
  - read_consumer Hc. reflexivity.
  - repeat match goal with H : channel _ = _ |- _ => rewrite H end. cbn.
    apply lookup_delete_eq.
  - emitted_is. reflexivity.
Qed.

(** ** Consuming a producer the router does not know *)

(** C7. When the callback [getProducerById] finds no producer for the
    requested id, [PipeTransport.Consume] returns no consumer and an error:
    nothing is written on the channel (no [transport.consume] request), no
    consumer is created, the transport and its map of consumers stay as
    they are, and nothing is emitted. *)
Theorem Consume_unknown_producer W t transport options :
  transports W !! t = Some transport ->
  pt_getProducerById transport (opt_ProducerId options) = None ->
  let result := PipeTransport_Consume t options W in
  (exists err, result.1 = (None, Some err)) /\
  channel result.2 = channel W /\
  consumers result.2 = consumers W /\
  transports result.2 = transports W /\
  events result.2 = events W.
Proof.
  intros Ht Hnone. unfold PipeTransport_Consume, transportAt, logf. munfold. cbn.
  rewrite Ht. cbn. rewrite Hnone. cbn. repeat split. eexists. reflexivity.
Qed.

(** With a producer behind the id and an accepting worker, the same call
    does write [transport.consume] and builds a consumer: the error path
    above is the only one that leaves the channel alone. *)
Lemma Consume_known_producer W t transport options producer :
  transports W !! t = Some transport ->
  pt_getProducerById transport (opt_ProducerId options) = Some producer ->
  ch_closed (channel W) = false ->
  let result := PipeTransport_Consume t options W in
  exists request,
    req_method request = "transport.consume" /\
    ch_sent (channel result.2) = ch_sent (channel W) ++ [request] /\
    (rsp_err (reply (ch_sent (channel W)) request) = None ->
     (json_status (rsp_data (reply (ch_sent (channel W)) request)) (false, false)).2
     = None ->
     result.1 = (Some (length (consumers W)), None)).
Proof.
  intros Ht Hsome Hopen.
  unfold PipeTransport_Consume, transportAt, logf, uuid_String, Channel_Request.
  munfold. cbn. rewrite Ht. cbn. rewrite Hsome. cbn. rewrite Hopen. cbn.
  match goal with
  | |- context [reply _ ?r] => set (request := r)
  end.
  exists request. split; [reflexivity|].
  unfold Response_Unmarshal.
  destruct (rsp_err (reply (ch_sent (channel W)) request)) eqn:Herr; cbn.
  { split; [reflexivity|]. intros; discriminate. }
  destruct (json_status (rsp_data (reply (ch_sent (channel W)) request))
              (false, false)).2 eqn:Hjson; cbn.
  { split; [reflexivity|]. intros; discriminate. }
  unfold newConsumer, Transport_observer_SafeEmit, updTransport, transportAt, emit.
  unfold_consumer. munfold. cbn.
  handlers.
  split; [|reflexivity].
  repeat match goal with H : channel _ = _ |- _ => rewrite H end. reflexivity.
Qed.

(** ** Operations on closed objects *)

Lemma isInvalidStateError_channel_closed :
  isInvalidStateError (Some (NewInvalidStateError "channel closed")).
Proof. eexists. split; reflexivity. Qed.

(** Every operation of a consumer goes to the channel first; when the
    channel is closed it fails with [InvalidStateError]. *)
Lemma consumer_operations_closed_channel W c layers priority types :
  ch_closed (channel W) = true ->
  isInvalidStateError (Consumer_Pause c W).1 /\
  isInvalidStateError (Consumer_Resume c W).1 /\
  isInvalidStateError (Consumer_Dump c W).1.2 /\
  isInvalidStateError (Consumer_GetStats c W).1.2 /\
  isInvalidStateError (Consumer_SetPreferredLayers c layers W).1 /\
  isInvalidStateError (Consumer_SetPriority c priority W).1 /\
  isInvalidStateError (Consumer_RequestKeyFrame c W).1 /\
  isInvalidStateError (Consumer_EnableTraceEvent c types W).1.
Proof.
  intros Hch. unfold_consumer. munfold. cbn. rewrite Hch. cbn.
  repeat split; apply isInvalidStateError_channel_closed.
Qed.

(** No operation of a consumer reads its closed flag: on an open channel
    the request is sent and the result is the worker's answer. *)
Lemma consumer_operations_unguarded W c consumer layers priority types :
  consumers W !! c = Some consumer ->
  ch_closed (channel W) = false ->
  let answer method data :=
    reply (ch_sent (channel W))
          {| req_method := method; req_internal := Some (c_internal consumer);
             req_data := data |} in
  (Consumer_Pause c W).1 = rsp_err (answer "consumer.pause" None) /\
  (Consumer_Resume c W).1 = rsp_err (answer "consumer.resume" None) /\
  (Consumer_Dump c W).1.2 = rsp_err (answer "consumer.dump" None) /\
  (Consumer_GetStats c W).1
  = Response_Unmarshal (json_stats) (answer "consumer.getStats" None) [] /\
  (Consumer_SetPreferredLayers c layers W).1
  = (Response_Unmarshal (json_layers)
       (answer "consumer.setPreferredLayers" (Some (DataLayers layers)))
       (c_preferredLayers consumer)).2 /\
  (Consumer_SetPriority c priority W).1
  = (Response_Unmarshal (json_priority)
       (answer "consumer.setPriority" (Some (DataPriority priority))) 0%N).2 /\
  (Consumer_RequestKeyFrame c W).1 = rsp_err (answer "consumer.requestKeyFrame" None) /\
  (Consumer_EnableTraceEvent c types W).1
  = rsp_err (answer "consumer.enableTraceEvent" (Some (DataTypes types))).
Proof.
  intros Hc Hch answer. subst answer. unfold_consumer. munfold. cbn.
  rewrite Hc, Hch. cbn. rewrite ?Hc. cbn. repeat split.
  - destruct (rsp_err _) eqn:Herr; cbn; [reflexivity|].
    destruct (negb _); [handlers|]; reflexivity.
  - destruct (rsp_err _) eqn:Herr; cbn; [reflexivity|].
    destruct (_ && _); [handlers|]; reflexivity.
  - destruct (Response_Unmarshal _ _ _).2 eqn:Herr; cbn; reflexivity.
Qed.

(** The four supervised operations of the worker fail with
    [InvalidStateError] on a closed channel. *)
Lemma worker_operations_closed_channel W settings options :
  ch_closed (channel W) = true ->
  isInvalidStateError (Worker_Dump W).1.2 /\
  isInvalidStateError (Worker_GetResourceUsage W).1.2 /\
  isInvalidStateError (Worker_UpdateSettings settings W).1 /\
  isInvalidStateError (Worker_CreateRouter options W).1.2.
Proof.
  intros Hch.
  unfold Worker_Dump, Worker_GetResourceUsage, Worker_UpdateSettings, Worker_CreateRouter,
    uuid_String, logf, Channel_Request.
  munfold. cbn. rewrite Hch. cbn.
  repeat split; apply isInvalidStateError_channel_closed.
Qed.

(** ** Closing is monotonic and seen once *)

Arguments occurrences : simpl never.

Lemma still_refl W : still W W.
Proof. split; auto. Qed.

Lemma still_trans W1 W2 W3 : still W1 W2 -> still W2 W3 -> still W1 W3.
Proof.
  intros [H1 H1'] [H2 H2']. split; [|auto].
  intros o Ho. destruct (H1 o Ho), (H2 o Ho). split; congruence.
Qed.

Lemma still_advance p W W' : still W W' -> advance p p W W'.
Proof.
  intros [H Hch]. split; [|split]; [|exact Hch|].
  - intros o Ho. left. destruct (H o Ho) as [Hc Hn]. unfold ledger. rewrite Hn. auto.
  - unfold channelFollows. pose proof (H WorkerObserver eq_refl) as [Hw _]. cbn in Hw.
    rewrite Hw. auto.
Qed.

Lemma advance_trans p q r W1 W2 W3 :
  advance p q W1 W2 -> advance q r W2 W3 -> advance p r W1 W3.
Proof.
  intros (H1 & Hc1 & Hf1) (H2 & Hc2 & Hf2). split; [|split]; [|auto|auto].
  intros o Ho. destruct (H1 o Ho) as [[Ha Hb]|(Ha & Hb & Hc)],
                        (H2 o Ho) as [[Ha' Hb']|(Ha' & Hb' & Hc')].
  - left. split; congruence.
  - right. repeat split; congruence.
  - right. repeat split; congruence.
  - congruence.
Qed.

(** A pending emission is a frame: what holds without it holds under it. *)
Lemma advance_frame p W W' : advance None None W W' -> advance p p W W'.
Proof.
  intros (H & Hc & Hf). split; [|split]; [|auto|auto].
  intros o Ho. unfold ledger in *. cbn in H.
  destruct (H o Ho) as [[Ha Hb]|(Ha & Hb & Hc')]; [left|right]; repeat split; auto; lia.
Qed.

Lemma ownershipOnly_still W W' : ownershipOnly W W' -> still W W'.
Proof.
  intros (Hch&?&Hr&Hc&He&?&?&?&?&Hw&?&?&?&Ht). split.
  - intros o Ho. unfold closeCount. rewrite He. split; [|reflexivity].
    destruct o; try discriminate; cbn.
    + exact Hw.
    + rewrite Hr. reflexivity.
    + apply Ht.
    + rewrite Hc. reflexivity.
  - rewrite Hch. auto.
Qed.

(** *** Rules for methods *)

Lemma advances_ret {A} p (a : A) : advances p (mret a) (fun _ => p).
Proof. intros W. apply still_advance, still_refl. Qed.

Lemma advances_bind {A B} p (m : M A) q (k : A -> M B) r :
  advances p m q -> (forall a, advances (q a) (k a) r) -> advances p (m ≫= k) r.
Proof.
  intros Hm Hk W. specialize (Hm W). munfold.
  destruct (m W) as [a W1]. cbn in *. specialize (Hk a W1).
  destruct (k a W1) as [b W2]. cbn in *. eapply advance_trans; eauto.
Qed.

Lemma quiet_advances {A} p (m : M A) : quiet m -> advances p m (fun _ => p).
Proof. intros H W. apply still_advance, H. Qed.

Lemma advances_frame {A} p (m : M A) :
  advances None m (fun _ => None) -> advances p m (fun _ => p).
Proof. intros H W. apply advance_frame, H. Qed.

Lemma advances_forM {A} p (l : list A) (f : A -> M unit) :
  (forall a, advances p (f a) (fun _ => p)) -> advances p (forM l f) (fun _ => p).
Proof.
  intros Hf. induction l as [|a l IH]; cbn.
  - apply advances_ret.
  - eapply advances_bind; [apply Hf|]. intros []. exact IH.
Qed.

Lemma quiet_ret {A} (a : A) : quiet (mret a).
Proof. intros W. apply still_refl. Qed.

Lemma quiet_bind {A B} (m : M A) (k : A -> M B) :
  quiet m -> (forall a, quiet (k a)) -> quiet (m ≫= k).
Proof.
  intros Hm Hk W. specialize (Hm W). munfold.
  destruct (m W) as [a W1]. cbn in *. specialize (Hk a W1).
  destruct (k a W1) as [b W2]. cbn in *. eapply still_trans; eauto.
Qed.

Lemma quiet_gets {A} (f : World -> A) : quiet (gets f).
Proof. intros W. apply still_refl. Qed.

Lemma quiet_forM {A} (l : list A) (f : A -> M unit) :
  (forall a, quiet (f a)) -> quiet (forM l f).
Proof.
  intros Hf. induction l as [|a l IH]; cbn.
  - apply quiet_ret.
  - apply quiet_bind; [apply Hf|]. intros []. exact IH.
Qed.

(** *** The steps that close nothing *)

Lemma quiet_modify (f : World -> World) : (forall W, still W (f W)) -> quiet (modify f).
Proof. intros H W. apply H. Qed.

Ltac still_fields :=
  intros; split;
  [ let o := fresh "o" in
    intros o ?; split; [destruct o; try discriminate; reflexivity | reflexivity]
  | cbn; auto ].

Lemma logf_quiet logger level format args : quiet (logf logger level format args).
Proof. apply quiet_modify. still_fields. Qed.

Lemma Channel_Request_quiet method internal data :
  quiet (Channel_Request method internal data).
Proof.
  intros W. unfold Channel_Request. munfold. cbn.
  destruct (ch_closed (channel W)) eqn:Hch; cbn; [apply still_refl|].
  still_fields.
Qed.

Lemma subscribe_quiet once id l : quiet (subscribe once id l).
Proof. apply quiet_modify. still_fields. Qed.

Lemma Channel_RemoveAllListeners_quiet id : quiet (Channel_RemoveAllListeners id).
Proof. apply quiet_modify. still_fields. Qed.

Lemma Channel_Close_quiet : quiet Channel_Close.
Proof. apply quiet_modify. still_fields. Qed.

Lemma PayloadChannel_On_quiet id c : quiet (PayloadChannel_On id c).
Proof. apply quiet_modify. still_fields. Qed.

Lemma PayloadChannel_RemoveAllListeners_quiet id :
  quiet (PayloadChannel_RemoveAllListeners id).
Proof. apply quiet_modify. still_fields. Qed.

Lemma PayloadChannel_Close_quiet : quiet PayloadChannel_Close.
Proof. apply quiet_modify. still_fields. Qed.

Lemma uuid_String_quiet : quiet uuid_String.
Proof.
  unfold uuid_String. apply quiet_bind; [apply quiet_gets|]. intros n.
  apply quiet_bind; [|intros; apply quiet_ret]. apply quiet_modify. still_fields.
Qed.

Lemma with_signals_quiet f : quiet (modify (with_signals f)).
Proof. apply quiet_modify. still_fields. Qed.

Lemma with_goroutines_quiet f : quiet (modify (with_goroutines f)).
Proof. apply quiet_modify. still_fields. Qed.

Lemma with_worker_quiet f :
  (forall w, w_closed (f w) = w_closed w) -> quiet (modify (with_worker f)).
Proof.
  intros Hf. apply quiet_modify. intros W. split; [|cbn; auto].
  intros o Ho. split; [|reflexivity]. destruct o; try discriminate; try reflexivity.
  cbn. apply Hf.
Qed.

Lemma updConsumer_quiet c f :
  (forall consumer, c_closed (f consumer) = c_closed consumer) -> quiet (updConsumer c f).
Proof.
  intros Hf. apply quiet_modify. intros W. split; [|cbn; auto].
  intros o Ho. split; [|reflexivity]. destruct o; try discriminate; try reflexivity.
  cbn. rewrite list_lookup_alter. destruct (decide (c = c0)) as [->|]; [|reflexivity].
  destruct (consumers W !! c0); cbn; [rewrite Hf|]; reflexivity.
Qed.

Lemma updTransport_quiet t f :
  (forall transport,
     t_closed (pt_ITransport (f transport)) = t_closed (pt_ITransport transport)) ->
  quiet (updTransport t f).
Proof.
  intros Hf. apply quiet_modify. intros W. split; [|cbn; auto].
  intros o Ho. split; [|reflexivity]. destruct o; try discriminate; try reflexivity.
  cbn. rewrite list_lookup_alter. destruct (decide (t = t0)) as [->|]; [|reflexivity].
  destruct (transports W !! t0); cbn; [rewrite Hf|]; reflexivity.
Qed.

Lemma updRouter_quiet r f :
  (forall router, r_closed (f router) = r_closed router) -> quiet (updRouter r f).
Proof.
  intros Hf. apply quiet_modify. intros W. split; [|cbn; auto].
  intros o Ho. split; [|reflexivity]. destruct o; try discriminate; try reflexivity.
  cbn. rewrite list_lookup_alter. destruct (decide (r = r0)) as [->|]; [|reflexivity].
  destruct (routers W !! r0); cbn; [rewrite Hf|]; reflexivity.
Qed.

Lemma runHandlers_quiet hs name : quiet (runHandlers hs name).
Proof.
  intros W. destruct (runHandlers_spec hs name W) as (W' & -> & H).
  apply ownershipOnly_still, H.
Qed.

Lemma occurrences_snoc src name l e :
  occurrences src name (l ++ [e])
  = (occurrences src name l + if isEvent src name e then 1 else 0)%nat.
Proof.
  unfold occurrences. rewrite List.filter_app, length_app. cbn.
  destruct (isEvent src name e); reflexivity.
Qed.

(** An emission that is not a [close] on an observer. *)
Lemma emit_quiet src hs name args :
  isObserver src && (name =? "close")%string = false ->
  quiet (emit src hs name args).
Proof.
  intros Hne. unfold emit. apply quiet_bind; [|intros; apply runHandlers_quiet].
  apply quiet_modify. intros W. split; [|cbn; auto].
  intros o Ho. split; [destruct o; try discriminate; reflexivity|].
  unfold closeCount. cbn. rewrite occurrences_snoc.
  unfold isEvent. cbn.
  destruct (bool_decide (src = o)) eqn:Hso; cbn; [|lia].
  apply bool_decide_eq_true in Hso. subst o. rewrite Ho in Hne. cbn in Hne.
  rewrite Hne. lia.
Qed.

(** The [close] that was pending on an observer. *)
Lemma emit_close_advances o hs args :
  isObserver o = true ->
  advances (Some o) (emit o hs "close" args) (fun _ => None).
Proof.
  intros Ho W. unfold emit. munfold. cbn.
  destruct (runHandlers_spec hs "close"
              (with_events (fun l => l ++ [ {| ev_emitter := o; ev_name := "close";
                                               ev_args := args |} ]) W))
    as (W' & -> & Hown).
  apply ownershipOnly_still in Hown. destruct Hown as [Hs Hch]. cbn in *.
  split; [|split].
  - intros o' Ho'. left. destruct (Hs o' Ho') as [Hc Hn]. split.
    + rewrite Hc. destruct o'; try discriminate; reflexivity.
    + unfold ledger, pendingOn. rewrite Hn. unfold closeCount. cbn.
      rewrite occurrences_snoc. unfold isEvent. cbn.
      destruct (decide (Some o = Some o')) as [Heq|Hne].
      * inversion Heq; subst o'. rewrite bool_decide_eq_true_2 by reflexivity.
        rewrite decide_False by discriminate. cbn. lia.
      * rewrite bool_decide_eq_false_2 by congruence.
        rewrite decide_False by discriminate. cbn. lia.
  - exact Hch.
  - unfold channelFollows. pose proof (Hs WorkerObserver eq_refl) as [Hw _]. cbn in Hw.
    rewrite Hw. auto.
Qed.

(** A new object is open: allocating it closes nothing. *)
Lemma lookup_snoc_closed {A} (closed : A -> bool) (l : list A) (new : A) (i : nat) :
  closed new = false ->
  match (l ++ [new]) !! i with Some x => closed x | None => false end
  = match l !! i with Some x => closed x | None => false end.
Proof.
  intros Hnew. destruct (decide (i < length l)%nat) as [Hlt|Hge].
  - rewrite lookup_app_l by exact Hlt. reflexivity.
  - rewrite lookup_app_r by lia. rewrite (lookup_ge_None_2 l i) by lia.
    destruct (i - length l)%nat; cbn; [exact Hnew | reflexivity].
Qed.

Lemma alloc_consumer_quiet new :
  c_closed new = 0%N -> quiet (modify (with_consumers (fun l => l ++ [new]))).
Proof.
  intros Hnew. apply quiet_modify. intros W. split; [|cbn; auto].
  intros o Ho. split; [|reflexivity]. destruct o; try discriminate; try reflexivity.
  cbn. apply (lookup_snoc_closed (fun x => (0 <? c_closed x)%N)). rewrite Hnew. reflexivity.
Qed.

Lemma alloc_transport_quiet new :
  t_closed (pt_ITransport new) = false ->
  quiet (modify (with_transports (fun l => l ++ [new]))).
Proof.
  intros Hnew. apply quiet_modify. intros W. split; [|cbn; auto].
  intros o Ho. split; [|reflexivity]. destruct o; try discriminate; try reflexivity.
  cbn. apply (lookup_snoc_closed (fun x => t_closed (pt_ITransport x))). exact Hnew.
Qed.

Lemma alloc_router_quiet new :
  r_closed new = false -> quiet (modify (with_routers (fun l => l ++ [new]))).
Proof.
  intros Hnew. apply quiet_modify. intros W. split; [|cbn; auto].
  intros o Ho. split; [|reflexivity]. destruct o; try discriminate; try reflexivity.
  cbn. apply (lookup_snoc_closed r_closed). exact Hnew.
Qed.

Create HintDb quiet.

#[local] Hint Resolve logf_quiet Channel_Request_quiet subscribe_quiet
  Channel_RemoveAllListeners_quiet Channel_Close_quiet PayloadChannel_On_quiet
  PayloadChannel_RemoveAllListeners_quiet PayloadChannel_Close_quiet uuid_String_quiet
  with_signals_quiet with_goroutines_quiet runHandlers_quiet quiet_ret quiet_gets : quiet.

#[local] Hint Extern 1 (quiet (emit _ _ _ _)) => (apply emit_quiet; reflexivity) : quiet.
#[local] Hint Extern 1 (quiet (updConsumer _ _)) =>
  (apply updConsumer_quiet; intros []; reflexivity) : quiet.
#[local] Hint Extern 1 (quiet (updTransport _ _)) =>
  (apply updTransport_quiet; intros [[] ? ? ?]; reflexivity) : quiet.
#[local] Hint Extern 1 (quiet (updRouter _ _)) =>
  (apply updRouter_quiet; intros []; reflexivity) : quiet.
#[local] Hint Extern 1 (quiet (modify (with_worker _))) =>
  (apply with_worker_quiet; intros []; reflexivity) : quiet.
#[local] Hint Extern 1 (quiet (modify (with_consumers _))) =>
  (apply alloc_consumer_quiet; reflexivity) : quiet.
#[local] Hint Extern 1 (quiet (modify (with_transports _))) =>
  (apply alloc_transport_quiet; reflexivity) : quiet.
#[local] Hint Extern 1 (quiet (modify (with_routers _))) =>
  (apply alloc_router_quiet; reflexivity) : quiet.

(** One step through the body of a method that closes nothing. *)
Ltac quiet_step :=
  lazymatch goal with
  | |- quiet (mbind _ _) => apply quiet_bind; [|intros ?]
  | |- quiet (if ?b then _ else _) => destruct b
  | |- quiet (match ?x with _ => _ end) => destruct x
  | |- quiet _ => first [ solve [auto with quiet] | progress cbv beta zeta ]
  end.

Ltac quiet_body := repeat quiet_step.

Ltac split_all := repeat match goal with |- _ /\ _ => split end.

Lemma Consumer_quiet c layers priority types event data payload :
  quiet (Consumer_Dump c) /\ quiet (Consumer_GetStats c) /\
  quiet (Consumer_Pause c) /\ quiet (Consumer_Resume c) /\
  quiet (Consumer_SetPreferredLayers c layers) /\
  quiet (Consumer_SetPriority c priority) /\ quiet (Consumer_UnsetPriority c) /\
  quiet (Consumer_RequestKeyFrame c) /\ quiet (Consumer_EnableTraceEvent c types) /\
  quiet (Consumer_onPayload c event data payload).
Proof.
  unfold Consumer_Dump, Consumer_GetStats, Consumer_Pause, Consumer_Resume,
    Consumer_SetPreferredLayers, Consumer_UnsetPriority, Consumer_SetPriority,
    Consumer_RequestKeyFrame, Consumer_EnableTraceEvent, Consumer_onPayload,
    Consumer_Closed, Consumer_SafeEmit, Consumer_Emit, Consumer_observer_SafeEmit,
    consumerAt.
  split_all; quiet_body.
Qed.

(** *** The steps that close *)

Ltac adv_quiet := apply quiet_advances; quiet_body.

(** One step through the body of a method that may close. *)
Ltac adv_step :=
  lazymatch goal with
  | |- advances _ (mbind _ _) _ => eapply advances_bind; [|intros ?]
  | |- advances _ (if ?b then _ else _) _ => destruct b
  | |- advances _ (match ?x with _ => _ end) _ => destruct x
  | |- advances _ (mret _) _ => apply advances_ret
  | |- advances _ _ _ => first [ solve [adv_quiet] | progress cbv beta zeta ]
  end.

(** The compare-and-swap on the closed flag of a consumer: when it swaps,
    the consumer goes from open to closed and its [close] is pending. *)
Lemma CompareAndSwap_closed_advances c :
  advances None (Consumer_CompareAndSwap_closed c 0 1)
           (fun swapped : bool => if swapped then Some (ConsumerObserver c) else None).
Proof.
  intros W. unfold Consumer_CompareAndSwap_closed, consumerAt, updConsumer. munfold. cbn.
  destruct (consumers W !! c) as [consumer|] eqn:Hc; cbn;
    [|apply still_advance, still_refl].
  destruct (N.eqb_spec (c_closed consumer) 0) as [H0|]; cbn;
    [|apply still_advance, still_refl].
  split; [|split]; [|cbn; auto|unfold channelFollows; cbn; auto].
  intros o Ho. unfold ledger, pendingOn, closeCount. cbn.
  destruct (decide (Some (ConsumerObserver c) = Some o)) as [Heq|Hne].
  - inversion Heq; subst o. right. cbn. rewrite list_lookup_alter_eq, Hc. cbn.
    rewrite H0. repeat split. rewrite decide_False by discriminate. lia.
  - left. rewrite decide_False by discriminate. split; [|reflexivity].
    destruct o; try discriminate; try reflexivity.
    cbn. rewrite list_lookup_alter_ne by congruence. reflexivity.
Qed.

Lemma Consumer_observer_close_advances c :
  advances (Some (ConsumerObserver c)) (Consumer_observer_SafeEmit c "close" [])
           (fun _ => None).
Proof.
  unfold Consumer_observer_SafeEmit, consumerAt.
  eapply advances_bind; [adv_quiet|]. intros consumer.
  apply emit_close_advances. reflexivity.
Qed.

Lemma Consumer_Close_advances c : advances None (Consumer_Close c) (fun _ => None).
Proof.
  unfold Consumer_Close.
  eapply advances_bind; [apply CompareAndSwap_closed_advances|].
  intros [|]; [|apply advances_ret].
  unfold Consumer_Emit, consumerAt.
  do 6 (eapply advances_bind; [adv_quiet|]; intros ?).
  eapply advances_bind; [apply Consumer_observer_close_advances|]. intros ?.
  apply advances_ret.
Qed.

Lemma Consumer_transportClosed_advances c :
  advances None (Consumer_transportClosed c) (fun _ => None).
Proof.
  unfold Consumer_transportClosed.
  eapply advances_bind; [apply CompareAndSwap_closed_advances|].
  intros [|]; [|apply advances_ret].
  unfold Consumer_SafeEmit, Consumer_Emit, consumerAt.
  do 5 (eapply advances_bind; [adv_quiet|]; intros ?).
  apply Consumer_observer_close_advances.
Qed.

Lemma Consumer_onNotification_advances c event data :
  advances None (Consumer_onNotification c event data) (fun _ => None).
Proof.
  unfold Consumer_onNotification.
  destruct (event =? "producerclose")%string.
  { eapply advances_bind; [apply CompareAndSwap_closed_advances|].
    intros [|]; [|apply advances_ret].
    unfold Consumer_SafeEmit, Consumer_Emit, consumerAt.
    do 4 (eapply advances_bind; [adv_quiet|]; intros ?).
    apply Consumer_observer_close_advances. }
  unfold Consumer_SafeEmit, Consumer_Emit, Consumer_observer_SafeEmit, consumerAt.
  adv_quiet.
Qed.

(** Setting the closed flag of an open transport leaves its [close]
    pending. *)
Lemma raise_transport W t :
  closedOf W (TransportObserver t) = false ->
  (Transport_Closed t W).1 = false ->
  advance None (Some (TransportObserver t)) W
    (updTransport t (with_pt_ITransport (with_t_closed (fun _ => true))) W).2.
Proof.
  unfold Transport_Closed, transportAt. munfold. cbn. intros Hopen Hread.
  destruct (transports W !! t) as [transport|] eqn:Ht; [|discriminate].
  split; [|split]; [|cbn; auto|unfold channelFollows; cbn; auto].
  intros o Ho. unfold ledger, pendingOn, closeCount. cbn.
  destruct (decide (Some (TransportObserver t) = Some o)) as [Heq|Hne].
  - inversion Heq; subst o. right. cbn. rewrite list_lookup_alter_eq, Ht. cbn.
    repeat split; [exact Hopen|].
    rewrite decide_False by discriminate. lia.
  - left. rewrite decide_False by discriminate. split; [|reflexivity].
    destruct o; try discriminate; try reflexivity.
    cbn. rewrite list_lookup_alter_ne by congruence. reflexivity.
Qed.

Lemma guarded_transport_block t (rest : M unit) :
  advances (Some (TransportObserver t)) rest (fun _ => None) ->
  advances None
    (closed ← Transport_Closed t;
     if closed : bool then mret tt
     else updTransport t (with_pt_ITransport (with_t_closed (fun _ => true))) ;; rest)
    (fun _ => None).
Proof.
  intros Hrest W. munfold.
  destruct (Transport_Closed t W) as [closed W0] eqn:Hread.
  assert (W0 = W) by (unfold Transport_Closed, transportAt in Hread; munfold;
                      cbn in Hread; congruence).
  subst W0. destruct closed; [apply still_advance, still_refl|].
  assert (Hopen : closedOf W (TransportObserver t) = false).
  { unfold Transport_Closed, transportAt in Hread. munfold. cbn in *.
    destruct (transports W !! t); cbn in *; [congruence | reflexivity]. }
  pose proof (raise_transport W t Hopen) as Hraise. rewrite Hread in Hraise.
  specialize (Hraise eq_refl).
  destruct (updTransport t _ W) as [[] W1]. cbn in *.
  specialize (Hrest W1). destruct (rest W1) as [[] W2]. cbn in *.
  eapply advance_trans; eauto.
Qed.

Lemma Transport_observer_close_advances t :
  advances (Some (TransportObserver t)) (Transport_observer_SafeEmit t "close" [])
           (fun _ => None).
Proof.
  unfold Transport_observer_SafeEmit, transportAt.
  eapply advances_bind; [adv_quiet|]. intros transport.
  apply emit_close_advances. reflexivity.
Qed.

Lemma cascade_transportClosed p (l : list (string * nat)) :
  advances p (forM l (fun kv => Consumer_transportClosed kv.2)) (fun _ => p).
Proof.
  apply advances_forM. intros kv. apply advances_frame, Consumer_transportClosed_advances.
Qed.

Lemma Transport_Close_advances t : advances None (Transport_Close t) (fun _ => None).
Proof.
  unfold Transport_Close. apply guarded_transport_block.
  unfold Transport_SafeEmit, transportAt.
  do 3 (eapply advances_bind; [adv_quiet|]; intros ?).
  eapply advances_bind; [apply cascade_transportClosed|]. intros ?.
  do 2 (eapply advances_bind; [adv_quiet|]; intros ?).
  apply Transport_observer_close_advances.
Qed.

Lemma Transport_routerClosed_advances t :
  advances None (Transport_routerClosed t) (fun _ => None).
Proof.
  unfold Transport_routerClosed. apply guarded_transport_block.
  unfold Transport_SafeEmit, transportAt.
  do 2 (eapply advances_bind; [adv_quiet|]; intros ?).
  eapply advances_bind; [apply cascade_transportClosed|]. intros ?.
  do 2 (eapply advances_bind; [adv_quiet|]; intros ?).
  apply Transport_observer_close_advances.
Qed.

Lemma PipeTransport_Close_advances t :
  advances None (PipeTransport_Close t) (fun _ => None).
Proof.
  unfold PipeTransport_Close, Transport_Closed at 1, transportAt.
  eapply advances_bind; [adv_quiet|]. intros [|]; [apply advances_ret|].
  do 2 (eapply advances_bind; [adv_quiet|]; intros ?).
  apply Transport_Close_advances.
Qed.

Lemma PipeTransport_routerClosed_advances t :
  advances None (PipeTransport_routerClosed t) (fun _ => None).
Proof.
  unfold PipeTransport_routerClosed, Transport_Closed at 1, transportAt.
  eapply advances_bind; [adv_quiet|]. intros [|]; [apply advances_ret|].
  do 2 (eapply advances_bind; [adv_quiet|]; intros ?).
  apply Transport_routerClosed_advances.
Qed.

Lemma Router_workerClosed_advances r :
  advances None (Router_workerClosed r) (fun _ => None).
Proof.
  intros W. unfold Router_workerClosed, routerAt. munfold. cbn.
  destruct (routers W !! r) as [router|] eqn:Hr; cbn;
    [|apply still_advance, still_refl].
  destruct (r_closed router) eqn:Hclosed; [apply still_advance, still_refl|].
  assert (Hraise : advance None (Some (RouterObserver r)) W
                     (updRouter r (with_r_closed (fun _ => true)) W).2).
  { split; [|split]; [|cbn; auto|unfold channelFollows; cbn; auto].
    intros o Ho. unfold ledger, pendingOn, closeCount. cbn.
    destruct (decide (Some (RouterObserver r) = Some o)) as [Heq|Hne].
    - inversion Heq; subst o. right. cbn. rewrite list_lookup_alter_eq, Hr. cbn.
      repeat split; [exact Hclosed|]. rewrite decide_False by discriminate. lia.
    - left. rewrite decide_False by discriminate. split; [|reflexivity].
      destruct o; try discriminate; try reflexivity.
      cbn. rewrite list_lookup_alter_ne by congruence. reflexivity. }
  assert (Hrest : advances (Some (RouterObserver r))
                    (emit (OfRouter r) (r_emitter router) "workerclose" [] ;;
                     emit (RouterObserver r) (r_observer router) "close" [])
                    (fun _ => None)).
  { eapply advances_bind; [adv_quiet|]. intros ?.
    apply emit_close_advances. reflexivity. }
  unfold updRouter in *. munfold. cbn in *.
  specialize (Hrest (with_routers (alter (with_r_closed (fun _ => true)) r) W)).
  eapply advance_trans; [exact Hraise|]. exact Hrest.
Qed.

Lemma bind_run {A B} (m : M A) (k : A -> M B) W : (m ≫= k) W = k (m W).1 (m W).2.
Proof. munfold. destruct (m W). reflexivity. Qed.

Lemma cascade_workerClosed p (l : list (string * nat)) :
  advances p (forM l (fun kv => Router_workerClosed kv.2)) (fun _ => p).
Proof.
  apply advances_forM. intros kv. apply advances_frame, Router_workerClosed_advances.
Qed.

(** [Close()] of an open worker up to the closing of the channel: the flag
    is set, the child is signalled, the channel is closed; the [close] on
    the observer is pending. *)
Lemma raise_worker W :
  w_closed (worker W) = false ->
  advance None (Some WorkerObserver) W
    (Channel_Close
       ((match w_child (worker W) with
         | Some pid =>
             modify (with_signals (fun l => l ++ [(pid, "SIGTERM")])) ;;
             modify (with_worker (with_w_child (fun _ => None)))
         | None => mret tt
         end)
          (modify (with_worker (with_w_closed (fun _ => true)))
             (logf "Worker" Debug "close()" [] W).2).2).2).2.
Proof.
  intros Hopen.
  split; [|split].
  - intros o Ho. unfold ledger, pendingOn, closeCount.
    destruct (decide (Some WorkerObserver = Some o)) as [Heq|Hne].
    + inversion Heq; subst o. right. rewrite decide_False by discriminate.
      destruct (w_child (worker W)); cbn; repeat split; auto; lia.
    + left. rewrite decide_False by discriminate.
      destruct (w_child (worker W)); cbn; (split; [|reflexivity]);
        destruct o; try discriminate; try reflexivity; congruence.
  - intros _. destruct (w_child (worker W)); reflexivity.
  - intros _ _. destruct (w_child (worker W)); reflexivity.
Qed.

Lemma Worker_Close_advances : advances None Worker_Close (fun _ => None).
Proof.
  intros W. unfold Worker_Close. rewrite bind_run. cbn [gets fst snd].
  destruct (w_closed (worker W)) eqn:Hopen; [apply still_advance, still_refl|].
  do 4 (rewrite bind_run; cbv beta).
  eapply advance_trans; [apply (raise_worker W Hopen)|].
  match goal with
  | |- advance _ _ ?W1 (?rest ?W1).2 =>
      assert (Hrest : advances (Some WorkerObserver) rest (fun _ => None));
      [|exact (Hrest W1)]
  end.
  do 2 (eapply advances_bind; [adv_quiet|]; intros ?).
  eapply advances_bind; [apply cascade_workerClosed|]. intros ?.
  eapply advances_bind; [adv_quiet|]. intros ?.
  unfold Worker_observer_SafeEmit. apply emit_close_advances. reflexivity.
Qed.

Lemma Worker_wait_advances err : advances None (Worker_wait err) (fun _ => None).
Proof.
  unfold Worker_wait, Worker_SafeEmit, Worker_Emit.
  eapply advances_bind; [adv_quiet|]. intros ?.
  eapply advances_bind; [apply Worker_Close_advances|]. intros ?.
  adv_quiet.
Qed.

Lemma newConsumer_quiet params : quiet (newConsumer params).
Proof.
  unfold newConsumer, Consumer_handleWorkerNotifications, Consumer_Id, consumerAt,
    Channel_On.
  quiet_body.
Qed.

Lemma PipeTransport_quiet t params data options consumerOptions event bytes :
  quiet (newPipeTransport params data) /\
  quiet (PipeTransport_Connect t options) /\
  quiet (PipeTransport_Consume t consumerOptions) /\
  quiet (PipeTransport_onNotification t event bytes).
Proof.
  pose proof newConsumer_quiet.
  unfold newPipeTransport, PipeTransport_handleWorkerNotifications, Transport_Id,
    PipeTransport_Connect, PipeTransport_Consume, PipeTransport_onNotification,
    Transport_SafeEmit, Transport_observer_SafeEmit, Consumer_Id, Consumer_On,
    transportAt, consumerAt, Channel_On.
  split_all; quiet_body.
Qed.

Lemma Worker_quiet settings options event err :
  quiet Worker_Dump /\ quiet Worker_GetResourceUsage /\
  quiet (Worker_UpdateSettings settings) /\ quiet (Worker_CreateRouter options) /\
  quiet (Worker_onRunning event) /\ quiet (childExited err).
Proof.
  unfold Worker_Dump, Worker_GetResourceUsage, Worker_UpdateSettings, Worker_CreateRouter,
    Worker_onRunning, childExited, afterExit, newRouter, Router_On,
    Worker_observer_SafeEmit, Worker_Emit.
  split_all; quiet_body.
  apply quiet_forM. intros []; apply quiet_ret.
Qed.

Lemma runListener_advances l event data :
  advances None (runListener l event data) (fun _ => None).
Proof.
  destruct l; cbn.
  - apply quiet_advances, (Worker_quiet (Build_WorkerUpdateableSettings EmptyString [])
                             (Build_RouterOptions [] None) event WaitNil).
  - apply Consumer_onNotification_advances.
  - apply quiet_advances,
      (PipeTransport_quiet t (Build_transportParams internalData_zero None (fun _ => None))
         pipeTransortData_zero (Build_TransportConnectOptions EmptyString 0
                                  (Build_SrtpParameters EmptyString))
         (Build_ConsumerOptions EmptyString
            (Rtp.Build_RtpCapabilities Rtp.nil_slice Rtp.nil_slice Rtp.nil_slice)
            false ConsumerLayers_zero None) event data).
Qed.

(** Every call advances the world. *)
Lemma run_advances call : advances None (run call) (fun _ => None).
Proof.
  destruct call; cbn [run].
  - eapply advances_bind; [apply Consumer_Close_advances|]. intros; apply advances_ret.
  - apply Consumer_transportClosed_advances.
  - apply quiet_advances. quiet_body.
    apply (Consumer_quiet c ConsumerLayers_zero 0%N [] EmptyString [] []).
  - apply quiet_advances. quiet_body.
    apply (Consumer_quiet c ConsumerLayers_zero 0%N [] EmptyString [] []).
  - apply quiet_advances. quiet_body.
    apply (Consumer_quiet c ConsumerLayers_zero 0%N [] EmptyString [] []).
  - apply quiet_advances. quiet_body.
    apply (Consumer_quiet c ConsumerLayers_zero 0%N [] EmptyString [] []).
  - apply quiet_advances. quiet_body.
    apply (Consumer_quiet c layers 0%N [] EmptyString [] []).
  - apply quiet_advances. quiet_body.
    apply (Consumer_quiet c ConsumerLayers_zero priority [] EmptyString [] []).
  - apply quiet_advances. quiet_body.
    apply (Consumer_quiet c ConsumerLayers_zero 0%N [] EmptyString [] []).
  - apply quiet_advances. quiet_body.
    apply (Consumer_quiet c ConsumerLayers_zero 0%N [] EmptyString [] []).
  - apply quiet_advances. quiet_body.
    apply (Consumer_quiet c ConsumerLayers_zero 0%N types EmptyString [] []).
  - unfold Channel_notify.
    do 2 (eapply advances_bind; [adv_quiet|]; intros ?).
    apply advances_forM. intros s. apply runListener_advances.
  - apply quiet_advances. unfold PayloadChannel_notify. quiet_body.
    apply quiet_forM. intros c.
    apply (Consumer_quiet c ConsumerLayers_zero 0%N [] event data payload).
  - apply quiet_advances. quiet_body.
    apply (PipeTransport_quiet 0 params data
             (Build_TransportConnectOptions EmptyString 0 (Build_SrtpParameters EmptyString))
             (Build_ConsumerOptions EmptyString
                (Rtp.Build_RtpCapabilities Rtp.nil_slice Rtp.nil_slice Rtp.nil_slice)
                false ConsumerLayers_zero None) EmptyString []).
  - apply PipeTransport_Close_advances.
  - apply PipeTransport_routerClosed_advances.
  - apply quiet_advances. quiet_body.
    apply (PipeTransport_quiet t (Build_transportParams internalData_zero None (fun _ => None))
             pipeTransortData_zero options
             (Build_ConsumerOptions EmptyString
                (Rtp.Build_RtpCapabilities Rtp.nil_slice Rtp.nil_slice Rtp.nil_slice)
                false ConsumerLayers_zero None) EmptyString []).
  - apply quiet_advances. quiet_body.
    apply (PipeTransport_quiet t (Build_transportParams internalData_zero None (fun _ => None))
             pipeTransortData_zero
             (Build_TransportConnectOptions EmptyString 0 (Build_SrtpParameters EmptyString))
             options EmptyString []).
  - apply Router_workerClosed_advances.
  - apply Worker_Close_advances.
  - apply Worker_wait_advances.
  - apply quiet_advances. quiet_body.
    apply (Worker_quiet (Build_WorkerUpdateableSettings EmptyString [])
             (Build_RouterOptions [] None) EmptyString WaitNil).
  - apply quiet_advances. quiet_body.
    apply (Worker_quiet (Build_WorkerUpdateableSettings EmptyString [])
             (Build_RouterOptions [] None) EmptyString WaitNil).
  - apply quiet_advances. quiet_body.
    apply (Worker_quiet settings (Build_RouterOptions [] None) EmptyString WaitNil).
  - apply quiet_advances. quiet_body.
    apply (Worker_quiet (Build_WorkerUpdateableSettings EmptyString []) options
             EmptyString WaitNil).
  - apply quiet_advances.
    apply (Worker_quiet (Build_WorkerUpdateableSettings EmptyString [])
             (Build_RouterOptions [] None) EmptyString err).
Qed.

Lemma NewWorker_sound options pid W :
  NewWorker options (Started pid) = (Some W, None) -> sound W.
Proof.
  unfold NewWorker. intros H. inversion H; subst W; clear H. split.
  - intros o Ho. destruct o; try discriminate; reflexivity.
  - intros Hc. discriminate.
Qed.

Lemma advance_sound W W' : sound W -> advance None None W W' -> sound W'.
Proof.
  intros [Hs Hf] (Ha & _ & Hf'). split; [|auto].
  intros o Ho. specialize (Hs o Ho). unfold ledger, pendingOn in Ha. cbn in Ha.
  destruct (Ha o Ho) as [[Hc Hn]|(Hc & Hc' & Hn)].
  - rewrite Hc. lia.
  - rewrite Hc'. rewrite Hc in Hs. lia.
Qed.

Lemma reachable_sound W : reachable W -> sound W.
Proof.
  induction 1 as [options pid W H | W call _ IH].
  - eapply NewWorker_sound, H.
  - eapply advance_sound; [exact IH | apply run_advances].
Qed.

Lemma closed_stays_closed W call o :
  isObserver o = true -> closedOf W o = true -> closedOf (run call W).2 o = true.
Proof.
  intros Ho Hc. destruct (run_advances call W) as (Ha & _).
  destruct (Ha o Ho) as [[Heq _]|(Hf & _)]; congruence.
Qed.

Lemma closed_transport_stays W t :
  (Transport_Closed t W).1 = true ->
  PipeTransport_Close t W = (tt, W) /\ PipeTransport_routerClosed t W = (tt, W).
Proof.
  unfold PipeTransport_Close, PipeTransport_routerClosed, Transport_Closed, transportAt.
  munfold. cbn. intros ->. split; reflexivity.
Qed.

Lemma closed_worker_stays W : (Worker_Closed W).1 = true -> Worker_Close W = (tt, W).
Proof. unfold Worker_Close, Worker_Closed. munfold. cbn. intros ->. reflexivity. Qed.

(** ** The exit of the worker subprocess *)

Lemma advance_closed p q W W' o :
  advance p q W W' -> isObserver o = true -> closedOf W o = true -> closedOf W' o = true.
Proof.
  intros (Ha & _) Ho Hc. destruct (Ha o Ho) as [[Heq _]|(Hf & _)]; congruence.
Qed.

Arguments closedOf : simpl never.

Lemma workerKept_trans W1 W2 W3 : workerKept W1 W2 -> workerKept W2 W3 -> workerKept W1 W3.
Proof.
  unfold workerKept. intros (?&?&?&?&?) (?&?&?&?&?). repeat split; congruence.
Qed.

Lemma Router_workerClosed_spec W r :
  workerKept W (Router_workerClosed r W).2 /\
  ((r < length (routers W))%nat ->
   closedOf (Router_workerClosed r W).2 (RouterObserver r) = true).
Proof.
  unfold Router_workerClosed, routerAt, updRouter, emit. munfold. cbn.
  destruct (routers W !! r) as [router|] eqn:Hr; cbn.
  2: { split; [repeat split|]. intros Hlt. apply lookup_ge_None in Hr. lia. }
  destruct (r_closed router) eqn:Hclosed; cbn.
  { split; [repeat split|]. intros _. unfold closedOf. rewrite Hr. exact Hclosed. }
  handlers. handlers. split.
  - repeat split; try congruence.
    repeat match goal with H : routers _ = _ |- _ => rewrite H end.
    apply length_alter.
  - intros _. unfold closedOf.
    repeat match goal with H : routers _ = _ |- _ => rewrite H end.
    rewrite list_lookup_alter_eq, Hr. reflexivity.
Qed.

(** [Worker.Close] calls [workerClosed] on every router of the worker: all
    of them end closed, and the worker keeps its flags meanwhile. *)
Lemma cascade_workerClosed_spec (l : list (string * nat)) W :
  let W' := (forM l (fun kv => Router_workerClosed kv.2) W).2 in
  workerKept W W' /\
  (forall kv, kv ∈ l -> (kv.2 < length (routers W))%nat ->
              closedOf W' (RouterObserver kv.2) = true).
Proof.
  revert W. induction l as [|kv l IH]; intros W; cbn.
  - split; [repeat split|]. intros kv H. inversion H.
  - rewrite bind_run. cbn.
    destruct (Router_workerClosed_spec W kv.2) as [Hkept Hcloses].
    set (W1 := (Router_workerClosed kv.2 W).2) in *.
    destruct (IH W1) as [Hkept' Hall]. cbn in Hkept', Hall.
    split; [eapply workerKept_trans; eauto|].
    intros kv' Hin Hlt. apply elem_of_cons in Hin as [->|Hin].
    + eapply advance_closed; [apply (cascade_workerClosed None l W1) | reflexivity |].
      apply Hcloses, Hlt.
    + apply Hall; [exact Hin|]. destruct Hkept as (_&_&_&_&Hlen). lia.
Qed.

(** [Close()] of an open worker: the worker and its channel end closed,
    every router it owned is closed, and [spawnDone] and the pid are kept. *)
Lemma Worker_Close_spec W :
  w_closed (worker W) = false ->
  let W' := (Worker_Close W).2 in
  w_closed (worker W') = true /\
  ch_closed (channel W') = true /\
  w_spawnDone (worker W') = w_spawnDone (worker W) /\
  w_pid (worker W') = w_pid (worker W) /\
  (forall id r, w_routers (worker W) !! id = Some r ->
                (r < length (routers W))%nat ->
                closedOf W' (RouterObserver r) = true).
Proof.
  intros Hopen. unfold Worker_Close. rewrite bind_run. cbn [gets fst snd].
  rewrite Hopen. do 4 (rewrite bind_run; cbv beta).
  set (W1 := (Channel_Close _).2).
  assert (H1 : w_closed (worker W1) = true /\ ch_closed (channel W1) = true /\
               w_spawnDone (worker W1) = w_spawnDone (worker W) /\
               w_pid (worker W1) = w_pid (worker W) /\
               w_routers (worker W1) = w_routers (worker W) /\
               routers W1 = routers W).
  { subst W1. destruct (w_child (worker W)); cbn; repeat split. }
  destruct H1 as (Hc1 & Hch1 & Hs1 & Hp1 & Hr1 & Hl1). clearbody W1.
  do 4 (rewrite bind_run; cbv beta). cbn [gets fst snd].
  unfold Worker_observer_SafeEmit, emit. rewrite bind_run. cbv beta.
  set (W2 := (PayloadChannel_Close W1).2).
  assert (H2 : w_closed (worker W2) = true /\ ch_closed (channel W2) = true /\
               w_spawnDone (worker W2) = w_spawnDone (worker W) /\
               w_pid (worker W2) = w_pid (worker W) /\
               w_routers (worker W2) = w_routers (worker W) /\
               routers W2 = routers W).
  { subst W2. cbn. repeat split; assumption. }
  destruct H2 as (Hc2 & Hch2 & Hs2 & Hp2 & Hr2 & Hl2). clearbody W2.
  destruct (cascade_workerClosed_spec (map_to_list (w_routers (worker W2))) W2)
    as [(Hc & Hs & Hp & Hch & Hlen) Hall].
  set (W3 := (forM _ _ W2).2) in *. clearbody W3.
  handlers.
  repeat match goal with H : _ (worker W0) = _ |- _ => rewrite H end.
  repeat match goal with H : channel W0 = _ |- _ => rewrite H end.
  rewrite Hc, Hs, Hp, Hch. split_all; try assumption.
  intros id r Hid Hlt. unfold closedOf.
  match goal with H : routers W0 = _ |- _ => rewrite H end.
  apply (Hall (id, r)).
  - apply elem_of_map_to_list. cbn. rewrite Hr2. exact Hid.
  - cbn. rewrite Hl2. exact Hlt.
Qed.

Ltac chase_fields :=
  repeat match goal with
         | H : w_closed (worker ?X) = _ |- context [w_closed (worker ?X)] => rewrite H
         | H : channel ?X = _ |- context [channel ?X] => rewrite H
         | H : routers ?X = _ |- context [routers ?X] => rewrite H
         end.

(** What [Worker.wait] does once [Wait()] has returned, on a worker that is
    still open: it closes the worker and, through it, the channel and every
    router; then it emits [@failure] when the worker had not seen [running]
    (with [TypeError("wrong settings")] exactly for exit code 42) and [died]
    when it had. *)
Lemma Worker_wait_spec W err :
  w_closed (worker W) = false ->
  let W' := (Worker_wait err W).2 in
  let code := (exitCodeAndSignal err).1 in
  let signal := (exitCodeAndSignal err).2 in
  let failure :=
    fmt_Errorf "[pid:%d, code:%d, signal:%s]"
               [AInt (w_pid (worker W)); AInt code; AStr signal] in
  w_closed (worker W') = true /\
  ch_closed (channel W') = true /\
  (forall id r, w_routers (worker W) !! id = Some r ->
                (r < length (routers W))%nat ->
                closedOf W' (RouterObserver r) = true) /\
  exists before,
    events W'
    = before ++
      [ if w_spawnDone (worker W)
        then {| ev_emitter := OfWorker; ev_name := "died";
                ev_args := [ArgError failure] |}
        else if code =? 42
             then {| ev_emitter := OfWorker; ev_name := "@failure";
                     ev_args := [ArgError (NewTypeError "wrong settings")] |}
             else {| ev_emitter := OfWorker; ev_name := "@failure";
                     ev_args := [ArgError failure] |} ].
Proof.
  intros Hopen. unfold Worker_wait. do 2 (rewrite bind_run; cbv beta).
  set (W0 := (modify (with_worker (with_w_child (fun _ => None))) W).2).
  destruct (Worker_Close_spec W0) as (Hc & Hch & Hs & Hp & Hall); [exact Hopen|].
  set (W1 := (Worker_Close W0).2) in *. clearbody W1.
  cbn in Hs, Hp, Hall.
  rewrite bind_run. cbn [gets fst snd]. cbv beta zeta.
  unfold Worker_SafeEmit, Worker_Emit, emit, logf. rewrite Hs, Hp.
  destruct (w_spawnDone (worker W)) eqn:Hdone; cbn [negb];
    [|destruct ((exitCodeAndSignal err).1 =? 42) eqn:Hcode];
    munfold; cbn; handlers.
  all: chase_fields; split_all; try assumption.
  all: try (intros id r Hid Hlt; unfold closedOf; chase_fields; apply (Hall id r Hid Hlt)).
  all: eexists; eassumption.
Qed.

(** C2, on the code as it is.  [NewWorker] starts three goroutines: the two
    readers of the child's output and [worker.child.Wait()], whose result
    nothing reads; [Worker.wait] is not among them.  So when the child
    exits, whatever its status, the package emits nothing, and the worker
    is neither closed nor marked as spawned. *)
Theorem NewWorker_exit_unobserved options pid err :
  exists W,
    NewWorker options (Started pid) = (Some W, None) /\
    goroutines W = [ReadStderr; ReadStdout; ChildWait] /\
    (Worker_Closed W).1 = false /\
    w_spawnDone (worker W) = false /\
    let W' := (childExited err W).2 in
    emitted W W' = [] /\
    events W' = [] /\
    (Worker_Closed W').1 = false /\
    w_spawnDone (worker W') = false /\
    ch_closed (channel W') = false.
Proof.
  eexists. split; [reflexivity|]. cbn. repeat split.
Qed.

(** *** The first closure closes *)

Lemma Consumer_Close_closes W c consumer :
  consumers W !! c = Some consumer ->
  (Consumer_Closed c (Consumer_Close c W).2).1 = true /\
  (Consumer_Closed c (Consumer_transportClosed c W).2).1 = true.
Proof.
  intros Hc. unfold_consumer. munfold. cbn. rewrite Hc. cbn.
  destruct (N.eqb_spec (c_closed consumer) 0) as [H0|Hne]; cbn.
  - rewrite list_lookup_alter_eq, Hc. cbn.
    destruct (ch_closed (channel W)); cbn.
    all: split; repeat handlers; read_consumer Hc; reflexivity.
  - rewrite Hc. cbn. split; apply N.ltb_lt; lia.
Qed.

Lemma Transport_closes W t transport (rest : M unit) :
  transports W !! t = Some transport ->
  advances (Some (TransportObserver t)) rest (fun _ => None) ->
  closedOf
    ((closed ← Transport_Closed t;
      if closed : bool then mret tt
      else updTransport t (with_pt_ITransport (with_t_closed (fun _ => true))) ;; rest)
       W).2 (TransportObserver t) = true.
Proof.
  intros Ht Hrest. rewrite bind_run.
  unfold Transport_Closed at 1 2, transportAt. munfold. cbn. rewrite Ht. cbn.
  destruct (t_closed (pt_ITransport transport)) eqn:Hclosed.
  - cbn. unfold closedOf. rewrite Ht. exact Hclosed.
  - pose proof (Hrest (with_transports
                         (alter (with_pt_ITransport (with_t_closed (fun _ => true))) t) W))
      as Hadv.
    unfold updTransport. munfold. cbn.
    eapply advance_closed; [exact Hadv | reflexivity |].
    unfold closedOf. cbn. rewrite list_lookup_alter_eq, Ht. reflexivity.
Qed.

Lemma Transport_Close_closes W t transport :
  transports W !! t = Some transport ->
  closedOf (Transport_Close t W).2 (TransportObserver t) = true /\
  closedOf (Transport_routerClosed t W).2 (TransportObserver t) = true.
Proof.
  intros Ht. split.
  - unfold Transport_Close. eapply Transport_closes; [exact Ht|].
    unfold Transport_SafeEmit, transportAt.
    do 3 (eapply advances_bind; [adv_quiet|]; intros ?).
    eapply advances_bind; [apply cascade_transportClosed|]. intros ?.
    do 2 (eapply advances_bind; [adv_quiet|]; intros ?).
    apply Transport_observer_close_advances.
  - unfold Transport_routerClosed. eapply Transport_closes; [exact Ht|].
    unfold Transport_SafeEmit, transportAt.
    do 2 (eapply advances_bind; [adv_quiet|]; intros ?).
    eapply advances_bind; [apply cascade_transportClosed|]. intros ?.
    do 2 (eapply advances_bind; [adv_quiet|]; intros ?).
    apply Transport_observer_close_advances.
Qed.

Lemma PipeTransport_Close_closes W t transport :
  transports W !! t = Some transport ->
  closedOf (PipeTransport_Close t W).2 (TransportObserver t) = true /\
  closedOf (PipeTransport_routerClosed t W).2 (TransportObserver t) = true.
Proof.
  intros Ht. unfold PipeTransport_Close, PipeTransport_routerClosed.
  rewrite !(bind_run (Transport_Closed t)).
  unfold Transport_Closed, transportAt. munfold. cbn. rewrite Ht. cbn.
  destruct (t_closed (pt_ITransport transport)) eqn:Hclosed; cbn.
  { unfold closedOf. rewrite Ht. auto. }
  rewrite ?Ht. cbn.
  destruct (String.length (data_sctpState (pt_data transport))); cbn.
  - destruct (Transport_Close_closes W t _ Ht) as [H1 H2].
    destruct (Transport_Close t W), (Transport_routerClosed t W). auto.
  - match goal with
    | |- context [Transport_Close t ?W1] =>
        assert (Ht1 : transports W1 !! t
                      = Some (with_pt_data
                                (with_data_sctpState (fun _ => SctpState_Closed))
                                transport))
          by (cbn; rewrite list_lookup_alter_eq, Ht; reflexivity);
        destruct (Transport_Close_closes W1 t _ Ht1) as [H1 H2];
        destruct (Transport_Close t W1), (Transport_routerClosed t W1)
    end.
    auto.
Qed.

Lemma Worker_Close_closes W : (Worker_Closed (Worker_Close W).2).1 = true.
Proof.
  destruct (w_closed (worker W)) eqn:Hclosed.
  - rewrite closed_worker_stays by exact Hclosed. exact Hclosed.
  - apply (Worker_Close_spec W Hclosed).
Qed.

Lemma reachable_runAll calls W : reachable W -> reachable (runAll calls W).
Proof.
  unfold runAll. revert W. induction calls as [|call calls IH]; intros W Hr; cbn.
  - exact Hr.
  - rewrite bind_run. apply IH. apply reachable_call, Hr.
Qed.

(** ** Idempotent close, monotonic closed flag *)

Lemma Consumer_Closed_closedOf W c consumer :
  consumers W !! c = Some consumer ->
  (Consumer_Closed c W).1 = closedOf W (ConsumerObserver c).
Proof.
  unfold Consumer_Closed, consumerAt, closedOf. munfold. cbn. intros ->. reflexivity.
Qed.

Lemma Transport_Closed_closedOf W t transport :
  transports W !! t = Some transport ->
  (Transport_Closed t W).1 = closedOf W (TransportObserver t).
Proof.
  unfold Transport_Closed, transportAt, closedOf. munfold. cbn. intros ->. reflexivity.
Qed.

Lemma closedOf_Consumer_Closed W c :
  closedOf W (ConsumerObserver c) = true -> (Consumer_Closed c W).1 = true.
Proof.
  unfold Consumer_Closed, consumerAt, closedOf. munfold. cbn.
  destruct (consumers W !! c); [auto | discriminate].
Qed.

Lemma closedOf_Transport_Closed W t :
  closedOf W (TransportObserver t) = true -> (Transport_Closed t W).1 = true.
Proof.
  unfold Transport_Closed, transportAt, closedOf. munfold. cbn.
  destruct (transports W !! t); [auto | discriminate].
Qed.

(** C4. Close is idempotent and the closed flag is monotonic, for every
    consumer, pipe transport and worker: on a closed object [Close()] and the
    closures started by the parent ([transportClosed], [routerClosed], and
    the [producerclose] notification of a consumer) leave the world as it is,
    so they emit nothing; no call turns [Closed()] from true to false; and in
    every world the package can reach, the observer of an object has seen
    [close] at most once, and not at all while the object is open. *)
Theorem close_idempotent_closed_monotonic :
  (forall W c data,
     (Consumer_Closed c W).1 = true ->
     Consumer_Close c W = (None, W) /\
     Consumer_transportClosed c W = (tt, W) /\
     Consumer_onNotification c "producerclose" data W = (tt, W)) /\
  (forall W t,
     (Transport_Closed t W).1 = true ->
     PipeTransport_Close t W = (tt, W) /\ PipeTransport_routerClosed t W = (tt, W)) /\
  (forall W, (Worker_Closed W).1 = true -> Worker_Close W = (tt, W)) /\
  (forall W call c consumer,
     consumers W !! c = Some consumer ->
     (Consumer_Closed c W).1 = true -> (Consumer_Closed c (run call W).2).1 = true) /\
  (forall W call t transport,
     transports W !! t = Some transport ->
     (Transport_Closed t W).1 = true -> (Transport_Closed t (run call W).2).1 = true) /\
  (forall W call,
     (Worker_Closed W).1 = true -> (Worker_Closed (run call W).2).1 = true) /\
  (forall W o,
     reachable W -> isObserver o = true ->
     (closeCount W o <= 1)%nat /\ (closedOf W o = false -> closeCount W o = 0%nat)).
Proof.
  split_all.
  - intros W c data H. apply closed_consumer_stays, H.
  - intros W t H. apply closed_transport_stays, H.
  - intros W H. apply closed_worker_stays, H.
  - intros W call c consumer Hc H.
    rewrite (Consumer_Closed_closedOf W c consumer Hc) in H.
    apply closedOf_Consumer_Closed, closed_stays_closed; auto.
  - intros W call t transport Ht H.
    rewrite (Transport_Closed_closedOf W t transport Ht) in H.
    apply closedOf_Transport_Closed, closed_stays_closed; auto.
  - intros W call H.
    apply (closed_stays_closed W call WorkerObserver eq_refl H).
  - intros W o Hr Ho. destruct (reachable_sound W Hr) as [Hs _].
    rewrite (Hs o Ho). destruct (closedOf W o); split; auto; discriminate.
Qed.

(** C1, as the code has it.  A closed worker has closed its channel, so its
    four supervised operations fail with [InvalidStateError] in every world
    the package reaches.  The operations of a consumer do not read its
    closed flag: they fail with [InvalidStateError] when the channel is
    closed, and on an open channel they send their request and return what
    the worker answers, whether the consumer is closed or not. *)
Theorem closed_objects_and_InvalidStateError :
  (forall W settings options,
     reachable W ->
     (Worker_Closed W).1 = true ->
     isInvalidStateError (Worker_Dump W).1.2 /\
     isInvalidStateError (Worker_GetResourceUsage W).1.2 /\
     isInvalidStateError (Worker_UpdateSettings settings W).1 /\
     isInvalidStateError (Worker_CreateRouter options W).1.2) /\
  (forall W c layers priority types,
     ch_closed (channel W) = true ->
     isInvalidStateError (Consumer_Pause c W).1 /\
     isInvalidStateError (Consumer_Resume c W).1 /\
     isInvalidStateError (Consumer_Dump c W).1.2 /\
     isInvalidStateError (Consumer_GetStats c W).1.2 /\
     isInvalidStateError (Consumer_SetPreferredLayers c layers W).1 /\
     isInvalidStateError (Consumer_SetPriority c priority W).1 /\
     isInvalidStateError (Consumer_RequestKeyFrame c W).1 /\
     isInvalidStateError (Consumer_EnableTraceEvent c types W).1) /\
  (forall W c consumer layers priority types,
     consumers W !! c = Some consumer ->
     ch_closed (channel W) = false ->
     let answer method data :=
       reply (ch_sent (channel W))
             {| req_method := method; req_internal := Some (c_internal consumer);
                req_data := data |} in
     (Consumer_Pause c W).1 = rsp_err (answer "consumer.pause" None) /\
     (Consumer_Resume c W).1 = rsp_err (answer "consumer.resume" None) /\
     (Consumer_Dump c W).1.2 = rsp_err (answer "consumer.dump" None) /\
     (Consumer_GetStats c W).1
     = Response_Unmarshal (json_stats) (answer "consumer.getStats" None) [] /\
     (Consumer_SetPreferredLayers c layers W).1
     = (Response_Unmarshal (json_layers)
          (answer "consumer.setPreferredLayers" (Some (DataLayers layers)))
          (c_preferredLayers consumer)).2 /\
     (Consumer_SetPriority c priority W).1
     = (Response_Unmarshal (json_priority)
          (answer "consumer.setPriority" (Some (DataPriority priority))) 0%N).2 /\
     (Consumer_RequestKeyFrame c W).1 = rsp_err (answer "consumer.requestKeyFrame" None) /\
     (Consumer_EnableTraceEvent c types W).1
     = rsp_err (answer "consumer.enableTraceEvent" (Some (DataTypes types)))).
Proof.
  split; [|split].
  - intros W settings options Hr Hclosed.
    apply worker_operations_closed_channel.
    destruct (reachable_sound W Hr) as [_ Hf]. apply Hf. exact Hclosed.
  - intros W c layers priority types Hch.
    apply consumer_operations_closed_channel, Hch.
  - intros W c consumer layers priority types Hc Hch.
    apply consumer_operations_unguarded; assumption.
Qed.

(** * Further properties, method by method *)

(** ** The arguments of the worker process *)

(** [WorkerSettings.Args]: one argument for the log level, one per log tag
    in order, the two ports, and the two DTLS flags exactly when both files
    are set.  A certificate without a key (or a key without a certificate)
    is dropped silently: no argument starts with [--dtls] then. *)
Theorem Args_dtls_only_with_both_files w :
  let args := WorkerSettings_Args w in
  let n := length (set_LogTags w) in
  let both := set_DTLSCertificateFile w <> EmptyString /\
              set_DTLSPrivateKeyFile w <> EmptyString in
  args !! 0%nat = Some ("--logLevel=" +:+ set_LogLevel w)%string /\
  (forall i tag, set_LogTags w !! i = Some tag ->
                 args !! S i = Some ("--logTags=" +:+ tag)%string) /\
  args !! S n = Some ("--rtcMinPort=" +:+ pretty (set_RTCMinPort w))%string /\
  args !! S (S n) = Some ("--rtcMaxPort=" +:+ pretty (set_RTCMaxPort w))%string /\
  ((exists a, a ∈ args /\ String.prefix "--dtls" a = true) <-> both) /\
  (both ->
   drop (3 + n) args
   = [("--dtlsCertificateFile=" +:+ set_DTLSCertificateFile w)%string;
      ("--dtlsPrivateKeyFile=" +:+ set_DTLSPrivateKeyFile w)%string]) /\
  (~ both -> length args = (3 + n)%nat).
Proof.
  cbv zeta. unfold WorkerSettings_Args.
  set (tags := map (fun logTag => ("--logTags=" +:+ logTag)%string) (set_LogTags w)).
  set (head := ((([("--logLevel=" +:+ set_LogLevel w)%string] ++ tags) ++
                 [("--rtcMinPort=" +:+ pretty (set_RTCMinPort w))%string]) ++
                [("--rtcMaxPort=" +:+ pretty (set_RTCMaxPort w))%string])).
  assert (Hlen : length head = (3 + length (set_LogTags w))%nat).
  { subst head tags. rewrite !length_app, length_map. cbn. lia. }
  assert (Hnone : forall a, a ∈ head -> String.prefix "--dtls" a = false).
  { intros a. subst head tags. rewrite !elem_of_app, !list_elem_of_singleton, list_elem_of_fmap.
    intros [[[->|(tag & -> & _)]| ->]| ->]; reflexivity. }
  assert (Hhead : head !! 0%nat = Some ("--logLevel=" +:+ set_LogLevel w)%string /\
                  (forall i tag, set_LogTags w !! i = Some tag ->
                                 head !! S i = Some ("--logTags=" +:+ tag)%string) /\
                  head !! S (length (set_LogTags w))
                  = Some ("--rtcMinPort=" +:+ pretty (set_RTCMinPort w))%string /\
                  head !! S (S (length (set_LogTags w)))
                  = Some ("--rtcMaxPort=" +:+ pretty (set_RTCMaxPort w))%string).
  { assert (Hl : length tags = length (set_LogTags w)) by (subst tags; apply length_map).
    assert (Heq : head = ("--logLevel=" +:+ set_LogLevel w)%string ::
                         (tags ++ [("--rtcMinPort=" +:+ pretty (set_RTCMinPort w))%string;
                                   ("--rtcMaxPort=" +:+ pretty (set_RTCMaxPort w))%string]))
      by (subst head; rewrite <- !app_assoc; reflexivity).
    rewrite Heq. split; [reflexivity|]. split; [|split].
    - intros i tag Hi. change ((?a :: ?l) !! S i) with (l !! i).
      apply lookup_app_l_Some. subst tags. rewrite list_lookup_fmap, Hi. reflexivity.
    - rewrite <- Hl. change ((?a :: ?l) !! S ?i) with (l !! i).
      rewrite lookup_app_r by lia. rewrite Nat.sub_diag. reflexivity.
    - rewrite <- Hl. change ((?a :: ?l) !! S ?i) with (l !! i).
      rewrite lookup_app_r by lia.
      replace (S (length tags) - length tags)%nat with 1%nat by lia. reflexivity. }
  destruct Hhead as (H0 & Htags & Hmin & Hmax).
  assert (Hlt : forall i, (i < 3 + length (set_LogTags w))%nat ->
                          forall tail, (head ++ tail) !! i = head !! i).
  { intros i Hi tail. apply lookup_app_l. lia. }
  destruct (set_DTLSCertificateFile w) as [|c cert] eqn:Hcert;
    [|destruct (set_DTLSPrivateKeyFile w) as [|k key] eqn:Hkey]; cbn [String.length Nat.ltb Nat.leb andb].
  - split_all; try assumption.
    + split; [|intros [H _]; exfalso; apply H; reflexivity].
      intros (a & Ha & Hp). rewrite Hnone in Hp by exact Ha. discriminate.
    + intros [H _]. exfalso. apply H. reflexivity.
    + intros _. exact Hlen.
  - split_all; try assumption.
    + split; [|intros [_ H]; exfalso; apply H; reflexivity].
      intros (a & Ha & Hp). rewrite Hnone in Hp by exact Ha. discriminate.
    + intros [_ H]. exfalso. apply H. reflexivity.
    + intros _. exact Hlen.
  - split_all.
    + rewrite Hlt by lia. exact H0.
    + intros i tag Hi. rewrite Hlt; [auto|]. apply lookup_lt_Some in Hi. lia.
    + rewrite Hlt by lia. exact Hmin.
    + rewrite Hlt by lia. exact Hmax.
    + split; [intros _; split; discriminate|]. intros _.
      eexists. split; [apply elem_of_app; right; apply list_elem_of_here|]. reflexivity.
    + intros _. rewrite <- Hlen. rewrite drop_app_length. reflexivity.
    + intros Hnot. exfalso. apply Hnot. split; discriminate.
Qed.

(** ** Closing the worker *)

Lemma routersOnly_refl W : routersOnly W W.
Proof. repeat split. Qed.

Lemma routersOnly_trans W1 W2 W3 : routersOnly W1 W2 -> routersOnly W2 W3 -> routersOnly W1 W3.
Proof.
  unfold routersOnly. intros (?&?&?&?&?&?&?&?&?&?&?&?) (?&?&?&?&?&?&?&?&?&?&?&?).
  repeat split; congruence.
Qed.

Lemma Router_workerClosed_routersOnly r W : routersOnly W (Router_workerClosed r W).2.
Proof.
  unfold Router_workerClosed, routerAt, updRouter, emit. munfold. cbn.
  destruct (r_closed (default Router_absent (routers W !! r))); cbn.
  { apply routersOnly_refl. }
  handlers. handlers. repeat split; try congruence.
  repeat match goal with H : routers _ = _ |- _ => rewrite H end.
  apply length_alter.
Qed.

Lemma cascade_routersOnly (l : list (string * nat)) W :
  routersOnly W (forM l (fun kv => Router_workerClosed kv.2) W).2.
Proof.
  revert W. induction l as [|kv l IH]; intros W; cbn.
  - apply routersOnly_refl.
  - rewrite bind_run. eapply routersOnly_trans; [apply Router_workerClosed_routersOnly|apply IH].
Qed.

(** What [Worker.Close] does on an open worker besides closing the worker,
    the channel and the routers. *)
Lemma Worker_Close_rest W :
  w_closed (worker W) = false ->
  w_child (worker (Worker_Close W).2) = None /\
  signals (Worker_Close W).2
  = signals W ++ match w_child (worker W) with
                 | Some pid => [(pid, "SIGTERM")]
                 | None => []
                 end /\
  pch_closed (payloadChannel (Worker_Close W).2) = true /\
  ch_sent (channel (Worker_Close W).2) = ch_sent (channel W) /\
  w_routers (worker (Worker_Close W).2) = ∅ /\
  exists before,
    events (Worker_Close W).2
    = before ++ [ {| ev_emitter := WorkerObserver; ev_name := "close";
                     ev_args := [] |} ].
Proof.
  intros Hopen.
  unfold Worker_Close. rewrite bind_run. cbn [gets fst snd].
  rewrite Hopen. do 5 (rewrite bind_run; cbv beta).
  set (W2 := (PayloadChannel_Close _).2).
  assert (H2 : w_child (worker W2) = None /\
               signals W2 = signals W ++ match w_child (worker W) with
                                         | Some pid => [(pid, "SIGTERM")]
                                         | None => []
                                         end /\
               pch_closed (payloadChannel W2) = true /\
               ch_sent (channel W2) = ch_sent (channel W)).
  { subst W2. destruct (w_child (worker W)) eqn:Hchild; cbn; rewrite ?Hchild;
      split_all; try reflexivity.
    symmetry. apply app_nil_r. }
  destruct H2 as (Hchild & Hsig & Hpch & Hsent). clearbody W2.
  do 3 (rewrite bind_run; cbv beta). cbn [gets fst snd].
  pose proof (cascade_routersOnly (map_to_list (w_routers (worker W2))) W2)
    as (Hch & Hp & _ & _ & Hs & _ & _ & _ & _ & _ & Hk & _).
  set (W3 := (forM _ _ W2).2) in *. clearbody W3.
  unfold Worker_observer_SafeEmit, emit, runHandlers. munfold. cbn.
  rewrite ?Hk, ?Hs, ?Hp, ?Hch. split_all; try assumption; try reflexivity. eexists. reflexivity.
Qed.

(** [Worker.Close] on an open worker: the flag is set, the child is sent
    SIGTERM exactly when the worker still holds it and is then forgotten,
    both channels are closed, every router the worker owns is closed through
    [workerClosed], the map of routers is emptied, and the last thing that
    happens is [close] on the observer.  Nothing is written to the worker. *)
Theorem Worker_Close_effects W :
  w_closed (worker W) = false ->
  let W' := (Worker_Close W).2 in
  w_closed (worker W') = true /\
  w_child (worker W') = None /\
  signals W' = signals W ++ match w_child (worker W) with
                            | Some pid => [(pid, "SIGTERM")]
                            | None => []
                            end /\
  ch_closed (channel W') = true /\
  pch_closed (payloadChannel W') = true /\
  ch_sent (channel W') = ch_sent (channel W) /\
  w_routers (worker W') = ∅ /\
  (forall id r, w_routers (worker W) !! id = Some r ->
                (r < length (routers W))%nat ->
                closedOf W' (RouterObserver r) = true) /\
  exists before,
    events W' = before ++ [ {| ev_emitter := WorkerObserver; ev_name := "close";
                               ev_args := [] |} ].
Proof.
  intros Hopen. cbv zeta.
  destruct (Worker_Close_spec W Hopen) as (Hc & Hch & _ & _ & Hall).
  destruct (Worker_Close_rest W Hopen) as (Hchild & Hsig & Hpch & Hsent & Hrouters & Hev).
  split_all; assumption.
Qed.

(** [Worker.wait] on a worker that is still open: the worker and its channel
    end closed and every router it owned is closed; the worker counts as
    spawned from then on; and the last thing that happens is [died], when
    the worker had seen [running], or else [@failure], with
    [TypeError("wrong settings")] exactly for exit code 42. *)
Theorem Worker_wait_effects W err :
  w_closed (worker W) = false ->
  let W' := (Worker_wait err W).2 in
  let code := (exitCodeAndSignal err).1 in
  let signal := (exitCodeAndSignal err).2 in
  let failure :=
    fmt_Errorf "[pid:%d, code:%d, signal:%s]"
               [AInt (w_pid (worker W)); AInt code; AStr signal] in
  w_closed (worker W') = true /\
  w_spawnDone (worker W') = true /\
  ch_closed (channel W') = true /\
  (forall id r, w_routers (worker W) !! id = Some r ->
                (r < length (routers W))%nat ->
                closedOf W' (RouterObserver r) = true) /\
  exists before,
    events W'
    = before ++
      [ if w_spawnDone (worker W)
        then {| ev_emitter := OfWorker; ev_name := "died";
                ev_args := [ArgError failure] |}
        else if code =? 42
             then {| ev_emitter := OfWorker; ev_name := "@failure";
                     ev_args := [ArgError (NewTypeError "wrong settings")] |}
             else {| ev_emitter := OfWorker; ev_name := "@failure";
                     ev_args := [ArgError failure] |} ].
Proof.
  intros Hopen. cbv zeta.
  destruct (Worker_wait_spec W err Hopen) as (Hc & Hch & Hall & Hev).
  split_all; try assumption.
  unfold Worker_wait. do 2 (rewrite bind_run; cbv beta).
  set (W0 := (modify (with_worker (with_w_child (fun _ => None))) W).2).
  rewrite bind_run. cbn [gets fst snd]. cbv beta zeta.
  unfold Worker_SafeEmit, Worker_Emit, emit, logf, runHandlers.
  destruct (w_spawnDone (worker (Worker_Close W0).2)) eqn:Hdone; cbn [negb];
    [|destruct ((exitCodeAndSignal err).1 =? 42)]; munfold; cbn; try reflexivity.
  exact Hdone.
Qed.

(** [Worker.wait] forgets the child before it closes the worker, so it never
    signals the process that has just exited, whatever the state of the
    worker. *)
Theorem Worker_wait_never_signals W err :
  signals (Worker_wait err W).2 = signals W /\
  w_child (worker (Worker_wait err W).2) = None.
Proof.
  unfold Worker_wait. do 2 (rewrite bind_run; cbv beta).
  set (W0 := (modify (with_worker (with_w_child (fun _ => None))) W).2).
  assert (H0 : signals W0 = signals W /\ w_child (worker W0) = None) by (split; reflexivity).
  destruct H0 as (Hs0 & Hc0). clearbody W0.
  assert (H1 : signals (Worker_Close W0).2 = signals W /\
               w_child (worker (Worker_Close W0).2) = None).
  { destruct (w_closed (worker W0)) eqn:Hclosed.
    - rewrite closed_worker_stays by exact Hclosed. split; assumption.
    - destruct (Worker_Close_rest W0 Hclosed) as (Hchild & Hsig & _).
      rewrite Hc0 in Hsig. rewrite app_nil_r in Hsig. split; congruence. }
  destruct H1 as (Hs1 & Hc1).
  set (W1 := (Worker_Close W0).2) in *. clearbody W1.
  rewrite bind_run. cbn [gets fst snd]. cbv beta zeta.
  unfold Worker_SafeEmit, Worker_Emit, emit, logf, runHandlers.
  destruct (negb (w_spawnDone (worker W1)));
    [destruct ((exitCodeAndSignal err).1 =? 42)|]; munfold; cbn; split; assumption.
Qed.

(** ** Creating a router *)

Lemma alter_snoc {A} (f : A -> A) (l : list A) (x : A) :
  alter f (length l) (l ++ [x]) = l ++ [f x].
Proof.
  rewrite <- (Nat.add_0_r (length l)) at 1. rewrite alter_app_r. reflexivity.
Qed.

(** [Worker.CreateRouter] always draws an identifier, and returns either a
    router or an error, never both and never neither.  It returns a router
    exactly when the channel is open, the worker accepts
    [worker.createRouter] and [generateRouterRtpCapabilities] succeeds; the
    router is then new and open, it is stored under its identifier,
    its [@close] removes it from the map again, and the observer sees
    [newrouter].  On an error no router is built and the worker is left as
    it was, even when the request has already been accepted. *)
Theorem CreateRouter_outcomes W options :
  let result := Worker_CreateRouter options W in
  let id := uuid_NewV4 (uuids W) in
  let internal :=
    {| RouterId := id; TransportId := EmptyString; ProducerId := EmptyString;
       ConsumerId := EmptyString; DataProducerId := EmptyString;
       DataConsumerId := EmptyString |} in
  let request := {| req_method := "worker.createRouter"; req_internal := Some internal;
                    req_data := None |} in
  let caps := generateRouterRtpCapabilities (MediaCodecs options) in
  let accepted := negb (ch_closed (channel W))
                  && bool_decide (rsp_err (reply (ch_sent (channel W)) request) = None) in
  uuids result.2 = S (uuids W) /\
  (ch_closed (channel W) = false ->
   ch_sent (channel result.2) = ch_sent (channel W) ++ [request]) /\
  if accepted && bool_decide (caps.2 = None) then
    result.1 = (Some (length (routers W)), None) /\
    routers result.2
    = routers W ++ [ {| r_internal := internal; r_rtpCapabilities := caps.1;
                        r_appData := router_opt_AppData options; r_closed := false;
                        r_emitter := [("@close", DeleteRouter id)];
                        r_observer := [] |} ] /\
    w_routers (worker result.2) = <[id := length (routers W)]> (w_routers (worker W)) /\
    events result.2
    = events W ++ [ {| ev_emitter := WorkerObserver; ev_name := "newrouter";
                       ev_args := [ArgRouter (length (routers W))] |} ]
  else
    (exists err, result.1 = (None, Some err)) /\
    routers result.2 = routers W /\
    worker result.2 = worker W /\
    events result.2 = events W.
Proof.
  cbv zeta.
  unfold Worker_CreateRouter, uuid_String, Channel_Request, logf. munfold. cbn.
  destruct (ch_closed (channel W)) eqn:Hch; cbn.
  { split_all; try reflexivity; [discriminate|]. eexists. reflexivity. }
  destruct (rsp_err (reply _ _)) as [err|] eqn:Herr; cbn.
  { split_all; try reflexivity. eexists. reflexivity. }
  destruct (generateRouterRtpCapabilities (MediaCodecs options)).2 as [err|] eqn:Hcaps; cbn.
  { split_all; try reflexivity. eexists. reflexivity. }
  unfold newRouter, Router_On, updRouter, Worker_observer_SafeEmit, emit, runHandlers.
  munfold. cbn. rewrite alter_snoc. split_all; reflexivity.
Qed.

(** What a successful [CreateRouter] leaves behind. *)
Lemma CreateRouter_success W options r :
  (Worker_CreateRouter options W).1 = (Some r, None) ->
  let W1 := (Worker_CreateRouter options W).2 in
  let id := uuid_NewV4 (uuids W) in
  r = length (routers W) /\
  (exists router, routers W1 = routers W ++ [router] /\ r_closed router = false /\
                  r_emitter router = [("@close", DeleteRouter id)]) /\
  w_routers (worker W1) = <[id := r]> (w_routers (worker W)) /\
  w_closed (worker W1) = w_closed (worker W).
Proof.
  cbv zeta.
  unfold Worker_CreateRouter, uuid_String, Channel_Request, logf. munfold. cbn.
  destruct (ch_closed (channel W)) eqn:Hch; cbn; [discriminate|].
  destruct (rsp_err (reply _ _)) as [err|] eqn:Herr; cbn; [discriminate|].
  destruct (generateRouterRtpCapabilities (MediaCodecs options)).2 as [err|] eqn:Hcaps;
    cbn; [discriminate|].
  unfold newRouter, Router_On, updRouter, Worker_observer_SafeEmit, emit, runHandlers.
  munfold. cbn. rewrite alter_snoc. intros [= <-]. split_all; try reflexivity.
  eexists. split_all; reflexivity.
Qed.

(** A router made by [CreateRouter] on an open worker is open, and it is
    closed by the worker: by [Worker.Close] and by [Worker.wait] alike.  The
    handler [CreateRouter] registers on its [@close] removes its entry, and
    only its entry, from the map of the worker. *)
Theorem created_router_closes_with_worker W options r :
  w_closed (worker W) = false ->
  (Worker_CreateRouter options W).1 = (Some r, None) ->
  let W1 := (Worker_CreateRouter options W).2 in
  let id := uuid_NewV4 (uuids W) in
  closedOf W1 (RouterObserver r) = false /\
  closedOf (Worker_Close W1).2 (RouterObserver r) = true /\
  (forall err, closedOf (Worker_wait err W1).2 (RouterObserver r) = true) /\
  (forall router, routers W1 !! r = Some router ->
     w_routers (worker (runHandlers (r_emitter router) "@close" W1).2)
     = delete id (w_routers (worker W1))).
Proof.
  intros Hopen Hsome. cbv zeta.
  destruct (CreateRouter_success W options r Hsome)
    as (Hr & (router & Hrouters & Hclosed & Hemitter) & Hmap & Hw).
  cbn in Hrouters, Hmap, Hw.
  assert (Hat : routers (Worker_CreateRouter options W).2 !! r = Some router).
  { rewrite Hrouters, Hr. apply list_lookup_middle. reflexivity. }
  assert (Hid : w_routers (worker (Worker_CreateRouter options W).2)
                  !! uuid_NewV4 (uuids W) = Some r).
  { rewrite Hmap. apply lookup_insert_eq. }
  assert (Hlt : (r < length (routers (Worker_CreateRouter options W).2))%nat).
  { apply lookup_lt_Some in Hat. exact Hat. }
  rewrite <- Hw in Hopen. split_all.
  - unfold closedOf. rewrite Hat. exact Hclosed.
  - apply (Worker_Close_spec _ Hopen) with (id := uuid_NewV4 (uuids W)); assumption.
  - intros err.
    apply (Worker_wait_spec _ err Hopen) with (id := uuid_NewV4 (uuids W)); assumption.
  - intros router' Hat'. rewrite Hat in Hat'. injection Hat' as <-.
    rewrite Hemitter. unfold runHandlers. cbn. rewrite decide_True by reflexivity.
    reflexivity.
Qed.

(** ** The handshake with the child *)

(** [NewWorker] listens once on the pid of the child.  If the first
    notification the worker process addresses to the pid is [running], the
    worker is marked as spawned and emits [@success]; if it is anything
    else, nothing happens.  Either way the listener is gone afterwards: no
    later notification to the pid changes the worker or emits, so [@success]
    is emitted at most once, and never when [running] does not come first. *)
Theorem NewWorker_running_handshake options pid event data :
  exists W,
    NewWorker options (Started pid) = (Some W, None) /\
    let W1 := (Channel_notify (pretty pid) event data W).2 in
    w_spawnDone (worker W1) = (event =? "running")%string /\
    events W1 = (if (event =? "running")%string
                 then [ {| ev_emitter := OfWorker; ev_name := "@success"; ev_args := [] |} ]
                 else []) /\
    forall event' data',
      let W2 := (Channel_notify (pretty pid) event' data' W1).2 in
      worker W2 = worker W1 /\ events W2 = events W1.
Proof.
  eexists. split; [reflexivity|].
  unfold Channel_notify, Channel_Once, subscribe. munfold. cbn.
  rewrite lookup_empty. cbn. rewrite lookup_insert_eq. cbn.
  unfold Worker_onRunning, Worker_Emit, emit, runHandlers, logf. munfold. cbn.
  destruct (event =? "running")%string; cbn.
  all: split; [reflexivity|]; split; [reflexivity|].
  all: intros event' data'; rewrite lookup_alter_eq, lookup_insert_eq; cbn; split; reflexivity.
Qed.

(** ** The operations of a consumer *)

(** When [Pause], [Resume] or [SetPriority] returns an error, whether the
    channel refused the request or the worker did, no consumer has changed
    and nothing has been emitted. *)
Theorem consumer_error_changes_nothing W c priority :
  (forall err, (Consumer_Pause c W).1 = Some err ->
               consumers (Consumer_Pause c W).2 = consumers W /\
               events (Consumer_Pause c W).2 = events W) /\
  (forall err, (Consumer_Resume c W).1 = Some err ->
               consumers (Consumer_Resume c W).2 = consumers W /\
               events (Consumer_Resume c W).2 = events W) /\
  (forall err, (Consumer_SetPriority c priority W).1 = Some err ->
               consumers (Consumer_SetPriority c priority W).2 = consumers W /\
               events (Consumer_SetPriority c priority W).2 = events W).
Proof.
  unfold_consumer. munfold. cbn.
  destruct (ch_closed (channel W)) eqn:Hch; cbn.
  { split_all; intros; split; reflexivity. }
  split_all; intros err.
  - destruct (rsp_err _); cbn; [intros _; split; reflexivity|].
    destruct (negb _); cbn; repeat handlers; discriminate.
  - destruct (rsp_err _); cbn; [intros _; split; reflexivity|].
    destruct (_ && _); cbn; repeat handlers; discriminate.
  - destruct (Response_Unmarshal _ _ _).2; cbn; [intros _; split; reflexivity|].
    discriminate.
Qed.

(** The consumers and the events after [Pause], by its result. *)
Lemma Pause_outcome W c consumer :
  consumers W !! c = Some consumer ->
  consumers (Consumer_Pause c W).2
  = match (Consumer_Pause c W).1 with
    | Some _ => consumers W
    | None => alter (with_c_paused (fun _ => true)) c (consumers W)
    end /\
  events (Consumer_Pause c W).2
  = events W ++
    match (Consumer_Pause c W).1 with
    | Some _ => []
    | None => if c_paused consumer || c_producerPaused consumer then []
              else [ {| ev_emitter := ConsumerObserver c; ev_name := "pause";
                        ev_args := [] |} ]
    end.
Proof.
  intros Hc. unfold_consumer. munfold. cbn. rewrite Hc. cbn.
  destruct (ch_closed (channel W)) eqn:Hch; cbn.
  { split; [reflexivity|]. symmetry. apply app_nil_r. }
  destruct (rsp_err _); cbn.
  { split; [reflexivity|]. symmetry. apply app_nil_r. }
  destruct (c_paused consumer || c_producerPaused consumer); cbn; repeat handlers.
  - split; [reflexivity|]. symmetry. apply app_nil_r.
  - split; congruence.
Qed.

(** After a [Pause] that the worker accepted, a second [Pause] shows nothing
    to the observer, and a [Resume] that the worker accepts brings the
    consumer back with [paused] false and nothing else changed; over the two
    calls the observer has seen [pause] then [resume] when the consumer was
    running, [resume] alone when it was paused by hand, and nothing while
    the producer is paused. *)
Theorem Pause_then_Resume W c consumer :
  consumers W !! c = Some consumer ->
  (Consumer_Pause c W).1 = None ->
  let W1 := (Consumer_Pause c W).2 in
  (Consumer_Resume c W1).1 = None ->
  let W2 := (Consumer_Resume c W1).2 in
  observerPauseResume c (emitted W1 (Consumer_Pause c W1).2) = [] /\
  consumers W2 = alter (with_c_paused (fun _ => false)) c (consumers W) /\
  observerPauseResume c (emitted W W2)
  = if c_producerPaused consumer then []
    else if c_paused consumer then ["resume"] else ["pause"; "resume"].
Proof.
  intros Hc Hp. cbv zeta.
  destruct (Pause_outcome W c consumer Hc) as (Hcs1 & Hev1). rewrite Hp in Hcs1, Hev1.
  set (W1 := (Consumer_Pause c W).2) in *. clearbody W1.
  assert (Hc1 : consumers W1 !! c = Some (with_c_paused (fun _ => true) consumer)).
  { rewrite Hcs1, list_lookup_alter_eq, Hc. reflexivity. }
  assert (H2 : observerPauseResume c (emitted W1 (Consumer_Pause c W1).2) = []).
  { destruct (Pause_outcome W1 c _ Hc1) as (_ & Hev2). cbn in Hev2.
    rewrite emitted_same; [reflexivity|]. rewrite Hev2.
    destruct (Consumer_Pause c W1).1; apply app_nil_r. }
  intros Hr. split; [exact H2|]. clear H2. revert Hr.
  unfold_consumer. munfold. cbn. rewrite Hc1. cbn.
  destruct (ch_closed (channel W1)) eqn:Hch; cbn; [discriminate|].
  destruct (rsp_err _); cbn; [discriminate|].
  rewrite list_lookup_alter_eq, Hc1. cbn.
  destruct (c_producerPaused consumer) eqn:Hpp; cbn.
  - rewrite orb_true_r in Hev1. intros _. split.
    + rewrite ?Hcs1, list_alter_alter_eq. apply list_alter_ext; [|reflexivity]. intros; reflexivity.
    + rewrite emitted_same; [reflexivity|]. cbn. rewrite Hev1. apply app_nil_r.
  - rewrite orb_false_r in Hev1. handlers. intros _. split.
    + repeat match goal with H : consumers _ = _ |- _ => rewrite H end. cbn.
      rewrite ?Hcs1, list_alter_alter_eq. apply list_alter_ext; [|reflexivity]. intros; reflexivity.
    + erewrite emitted_app
        by (repeat match goal with H : events _ = _ |- _ => rewrite H end; cbn;
            rewrite ?Hev1, <- ?app_assoc; reflexivity).
      destruct (c_paused consumer); cbn; unfold observerPauseResume, isEvent;
        decide_emitters; reflexivity.
Qed.

(** ** The three ways a consumer closes *)

(** On an open consumer, [Close] and [transportClosed] both forget the
    listeners of the consumer on the two channels.  Only [Close] writes to
    the worker ([consumer.close], when the channel is open); the parent's
    [transportClosed] sends nothing.  [Close] emits [@close] and
    [transportClosed] emits [transportclose], each followed by [close] on the
    observer.  The [producerclose] notification, unlike the two, leaves the
    listener on the payload channel in place. *)
Theorem Consumer_closures_compared W c consumer data :
  consumers W !! c = Some consumer ->
  c_closed consumer = 0%N ->
  let id := ConsumerId (c_internal consumer) in
  let W1 := (Consumer_Close c W).2 in
  let W2 := (Consumer_transportClosed c W).2 in
  let W3 := (Consumer_onNotification c "producerclose" data W).2 in
  ch_listeners (channel W1) = delete id (ch_listeners (channel W)) /\
  pch_listeners (payloadChannel W1) = delete id (pch_listeners (payloadChannel W)) /\
  ch_listeners (channel W2) = delete id (ch_listeners (channel W)) /\
  pch_listeners (payloadChannel W2) = delete id (pch_listeners (payloadChannel W)) /\
  pch_listeners (payloadChannel W3) = pch_listeners (payloadChannel W) /\
  ch_sent (channel W1)
  = ch_sent (channel W) ++
    (if ch_closed (channel W) then []
     else [ {| req_method := "consumer.close"; req_internal := Some (c_internal consumer);
               req_data := None |} ]) /\
  ch_sent (channel W2) = ch_sent (channel W) /\
  ch_sent (channel W3) = ch_sent (channel W) /\
  emitted W W1
  = [ {| ev_emitter := OfConsumer c; ev_name := "@close"; ev_args := [] |};
      {| ev_emitter := ConsumerObserver c; ev_name := "close"; ev_args := [] |} ] /\
  emitted W W2
  = [ {| ev_emitter := OfConsumer c; ev_name := "transportclose"; ev_args := [] |};
      {| ev_emitter := ConsumerObserver c; ev_name := "close"; ev_args := [] |} ].
Proof.
  intros Hc H0. cbv zeta.
  unfold_consumer. munfold. cbn. rewrite Hc. cbn. rewrite H0. cbn.
  rewrite list_lookup_alter_eq, Hc. cbn.
  destruct (ch_closed (channel W)) eqn:Hch; cbn.
  all: repeat (handlers; read_consumer Hc).
  all: split_all.
  all: repeat match goal with
              | H : channel ?X = _ |- context [channel ?X] => rewrite H
              | H : payloadChannel ?X = _ |- context [payloadChannel ?X] => rewrite H
              end; cbn; try reflexivity.
  all: try (symmetry; apply app_nil_r).
  all: emitted_is; reflexivity.
Qed.

(** ** Notifications from the worker *)

Section Keeps.

Variable R : World -> World -> Prop.
Hypothesis R_refl : forall W, R W W.
Hypothesis R_trans : forall W1 W2 W3, R W1 W2 -> R W2 W3 -> R W1 W3.

Lemma keeps_ret {A} (a : A) : keeps R (mret a).
Proof. intros W. apply R_refl. Qed.

Lemma keeps_gets {A} (f : World -> A) : keeps R (gets f).
Proof. intros W. apply R_refl. Qed.

Lemma keeps_bind {A B} (m : M A) (k : A -> M B) :
  keeps R m -> (forall a, keeps R (k a)) -> keeps R (m ≫= k).
Proof.
  intros Hm Hk W. rewrite bind_run. eapply R_trans; [apply Hm | apply Hk].
Qed.

Lemma keeps_forM {A} (l : list A) (f : A -> M unit) :
  (forall a, keeps R (f a)) -> keeps R (forM l f).
Proof.
  intros Hf. induction l as [|a l IH]; cbn.
  - apply keeps_ret.
  - apply keeps_bind; [apply Hf | intros []; exact IH].
Qed.

End Keeps.

Lemma sameTraffic_refl W : sameTraffic W W.
Proof. split; reflexivity. Qed.

Lemma sameTraffic_trans W1 W2 W3 : sameTraffic W1 W2 -> sameTraffic W2 W3 -> sameTraffic W1 W3.
Proof. unfold sameTraffic. intros [] []. split; congruence. Qed.

Lemma runHandlers_sameTraffic hs name : keeps sameTraffic (runHandlers hs name).
Proof.
  intros W. destruct (runHandlers_spec hs name W) as (W' & -> & Hown).
  destruct Hown as (Hch & _). unfold sameTraffic. cbn. rewrite Hch. split; reflexivity.
Qed.

(** One step through the body of a method that keeps a relation, given that
    the relation is reflexive and transitive and that handlers keep it;
    [prim] proves the steps that are particular to the relation. *)
Ltac keeps_step refl trans hnd prim :=
  lazymatch goal with
  | |- keeps _ (mbind _ _) => apply (keeps_bind _ trans); [|intros ?]
  | |- keeps _ (if ?b then _ else _) => destruct b
  | |- keeps _ (match ?x with _ => _ end) => destruct x
  | |- keeps _ (mret _) => apply (keeps_ret _ refl)
  | |- keeps _ (gets _) => apply (keeps_gets _ refl)
  | |- keeps _ (runHandlers _ _) => apply hnd
  | |- keeps _ (forM _ _) => apply (keeps_forM _ refl trans); intros ?
  | |- keeps _ _ => first [ prim | progress cbv beta zeta ]
  end.

Ltac traffic_step :=
  keeps_step sameTraffic_refl sameTraffic_trans runHandlers_sameTraffic
             ltac:(intros ?; split; reflexivity).

Lemma runListener_sameTraffic l event data : keeps sameTraffic (runListener l event data).
Proof.
  destruct l as [|c|t]; cbn [runListener].
  - unfold Worker_onRunning, Worker_Emit, emit, logf. repeat traffic_step.
  - unfold Consumer_onNotification. unfold_consumer. repeat traffic_step.
  - unfold PipeTransport_onNotification, Transport_SafeEmit, Transport_observer_SafeEmit,
      updTransport, transportAt, emit, logf.
    repeat traffic_step.
Qed.

(** Handling a notification never writes to the worker and never closes the
    channel: whatever the worker notifies, on either channel and to whatever
    target, the requests sent so far and the state of the channel are those
    from before. *)
Theorem notifications_send_nothing W targetId event data payload :
  sameTraffic W (Channel_notify targetId event data W).2 /\
  sameTraffic W (PayloadChannel_notify targetId event data payload W).2.
Proof.
  split.
  - revert W. change (keeps sameTraffic (Channel_notify targetId event data)).
    unfold Channel_notify. repeat traffic_step. apply runListener_sameTraffic.
  - revert W. change (keeps sameTraffic (PayloadChannel_notify targetId event data payload)).
    unfold PayloadChannel_notify, Consumer_onPayload. unfold_consumer.
    repeat traffic_step.
Qed.

(** The [score], [layerschange] and [trace] notifications do not read the
    closed flag and ignore the error of the decoder: whatever the data, the
    consumer takes the decoded score (or layers) and emits it on itself and
    then on its observer; [trace] changes no consumer. *)
Theorem score_layers_trace_notifications W c consumer data :
  consumers W !! c = Some consumer ->
  let score := (json_score data ConsumerScore_zero).1 in
  let layers := (json_layers data ConsumerLayers_zero).1 in
  let trace := (json_trace data {| trace_Type := EmptyString; trace_Timestamp := 0;
                                   trace_Direction := EmptyString; trace_Info := [] |}).1 in
  let W1 := (Consumer_onNotification c "score" data W).2 in
  let W2 := (Consumer_onNotification c "layerschange" data W).2 in
  let W3 := (Consumer_onNotification c "trace" data W).2 in
  consumers W1 = alter (with_c_score (fun _ => score)) c (consumers W) /\
  emitted W W1
  = [ {| ev_emitter := OfConsumer c; ev_name := "score"; ev_args := [ArgScore score] |};
      {| ev_emitter := ConsumerObserver c; ev_name := "score";
         ev_args := [ArgScore score] |} ] /\
  consumers W2 = alter (with_c_currentLayers (fun _ => layers)) c (consumers W) /\
  emitted W W2
  = [ {| ev_emitter := OfConsumer c; ev_name := "layerschange";
         ev_args := [ArgLayers layers] |};
      {| ev_emitter := ConsumerObserver c; ev_name := "layerschange";
         ev_args := [ArgLayers layers] |} ] /\
  consumers W3 = consumers W /\
  emitted W W3
  = [ {| ev_emitter := OfConsumer c; ev_name := "trace"; ev_args := [ArgTrace trace] |};
      {| ev_emitter := ConsumerObserver c; ev_name := "trace";
         ev_args := [ArgTrace trace] |} ].
Proof.
  intros Hc. cbv zeta. unfold_consumer. munfold. cbn.
  rewrite ?list_lookup_alter_eq, ?Hc. cbn.
  repeat (handlers; read_consumer Hc).
  split_all.
  all: repeat match goal with
              | H : consumers ?X = _ |- context [consumers ?X] => rewrite H
              end; cbn; try reflexivity.
  all: emitted_is; reflexivity.
Qed.

(** An event that is none of those the listeners know is only logged: the
    listener on the channel and the one on the payload channel leave the
    world as it is but for one line of the error log. *)
Theorem unknown_events_are_only_logged W c event data payload :
  event ∉ ["producerclose"; "producerpause"; "producerresume"; "score"; "layerschange";
           "trace"] ->
  event <> "rtp" ->
  (Consumer_onNotification c event data W).2
  = with_logs (fun l => l ++ [ {| log_logger := "Consumer"; log_level := Error;
                                  log_format := quoted "ignoring unknown event " "%s"
                                                       " in channel listener";
                                  log_args := [AStr event] |} ]) W /\
  (Consumer_onPayload c event data payload W).2
  = with_logs (fun l => l ++ [ {| log_logger := "Consumer"; log_level := Error;
                                  log_format := quoted "ignoring unknown event " "%s"
                                                       " in payload channel listener";
                                  log_args := [AStr event] |} ]) W.
Proof.
  intros Hknown Hrtp.
  unfold Consumer_onNotification, Consumer_onPayload.
  repeat match goal with
         | |- context [(event =? ?s)%string] =>
             destruct (String.eqb_spec event s) as [->|_];
             [exfalso; first [apply Hrtp; reflexivity | apply Hknown; set_solver]|]
         end.
  split; reflexivity.
Qed.

(** ** Consuming through a pipe transport *)

(** [PipeTransport.Consume] reads only the producer id and the application
    data of its options: [Paused], [RtpCapabilities] and [PreferredLayers]
    have no effect.  (The pause of the new consumer is what the worker
    answers.) *)
Theorem Consume_ignores_other_options t options options' :
  opt_ProducerId options = opt_ProducerId options' ->
  opt_AppData options = opt_AppData options' ->
  PipeTransport_Consume t options = PipeTransport_Consume t options'.
Proof.
  intros Hid Happ. unfold PipeTransport_Consume. rewrite Hid, Happ. reflexivity.
Qed.

(** [Consume] returns a consumer or an error, never both and never neither;
    when it returns an error, for whatever reason, no consumer has been
    built, no listener registered, no transport changed and nothing
    emitted. *)
Theorem Consume_error_builds_nothing W t options :
  let result := PipeTransport_Consume t options W in
  (exists c, result.1 = (Some c, None)) \/
  ((exists err, result.1 = (None, Some err)) /\
   consumers result.2 = consumers W /\
   transports result.2 = transports W /\
   events result.2 = events W /\
   ch_listeners (channel result.2) = ch_listeners (channel W) /\
   payloadChannel result.2 = payloadChannel W).
Proof.
  cbv zeta.
  unfold PipeTransport_Consume, transportAt, logf, uuid_String, Channel_Request.
  munfold. cbn.
  destruct (pt_getProducerById _ _) as [producer|]; cbn.
  2: { right. split_all; try reflexivity. eexists. reflexivity. }
  destruct (ch_closed (channel W)) eqn:Hch; cbn.
  { right. split_all; try reflexivity. eexists. reflexivity. }
  destruct (Response_Unmarshal _ _ _).2 as [err|]; cbn.
  { right. split_all; try reflexivity. eexists. reflexivity. }
  left. unfold newConsumer, Transport_observer_SafeEmit, updTransport, transportAt, emit.
  unfold_consumer. munfold. cbn. handlers. eexists. reflexivity.
Qed.

(** What a successful [Consume] builds.  The consumer is new and open; it
    belongs to the router and the transport of the pipe transport, to the
    producer that was asked for, and has a fresh identifier; it is of type
    [pipe] and of the kind of the producer; its pause is the one the worker
    answered to [transport.consume]; its score is the default one.  It
    listens on both channels under its identifier, and its [@close] and
    [@producerclose] remove it from the transport.  The observer of the
    transport sees [newconsumer], and when that observer has no handler the
    consumer is in the map of the transport when [Consume] returns. *)
Theorem Consume_builds_consumer W t transport options producer c :
  transports W !! t = Some transport ->
  pt_getProducerById transport (opt_ProducerId options) = Some producer ->
  (PipeTransport_Consume t options W).1 = (Some c, None) ->
  let W' := (PipeTransport_Consume t options W).2 in
  let id := uuid_NewV4 (uuids W) in
  let internal :=
    {| RouterId := RouterId (pt_internal transport);
       TransportId := TransportId (pt_internal transport);
       ProducerId := opt_ProducerId options;
       ConsumerId := id;
       DataProducerId := DataProducerId (pt_internal transport);
       DataConsumerId := DataConsumerId (pt_internal transport) |} in
  let rtpParameters :=
    getPipeConsumerRtpParameters (producer_ConsumableRtpParameters producer)
                                 (data_rtx (pt_data transport)) in
  let request :=
    {| req_method := "transport.consume"; req_internal := Some internal;
       req_data := Some (DataConsume (producer_Kind producer) rtpParameters "pipe"
                           (Encodings (producer_ConsumableRtpParameters producer))) |} in
  let status :=
    (json_status (rsp_data (reply (ch_sent (channel W)) request)) (false, false)).1 in
  c = length (consumers W) /\
  consumers W'
  = consumers W ++
    [ {| c_emitter := [("@close", DeleteConsumer t id);
                       ("@producerclose", DeleteConsumer t id)];
         c_internal := internal;
         c_data := {| data_Kind := producer_Kind producer; data_Type := "pipe";
                      data_RtpParameters := rtpParameters |};
         c_appData := match opt_AppData options with Some h => Some h | None => Some [] end;
         c_paused := status.1;
         c_closed := 0;
         c_producerPaused := status.2;
         c_priority := 0;
         c_score := {| Score := 10; ProducerScore := 10; ProducerScores := Some [] |};
         c_preferredLayers := ConsumerLayers_zero;
         c_currentLayers := ConsumerLayers_zero;
         c_observer := [] |} ] /\
  ch_sent (channel W') = ch_sent (channel W) ++ [request] /\
  {| sub_once := false; sub_listener := ConsumerNotifications c |}
    ∈ default [] (ch_listeners (channel W') !! id) /\
  c ∈ default [] (pch_listeners (payloadChannel W') !! id) /\
  emitted W W'
  = [ {| ev_emitter := TransportObserver t; ev_name := "newconsumer";
         ev_args := [ArgConsumer c] |} ] /\
  (t_observer (pt_ITransport transport) = [] ->
   transports W'
   = alter (with_pt_ITransport (with_t_consumers (insert id c))) t (transports W)).
Proof.
  intros Ht Hproducer. cbv zeta.
  unfold PipeTransport_Consume, transportAt, logf, uuid_String, Channel_Request.
  munfold. cbn. rewrite Ht. cbn. rewrite Hproducer. cbn.
  destruct (ch_closed (channel W)) eqn:Hch; cbn; [discriminate|].
  match goal with
  | |- context [reply _ ?r] => set (request := r)
  end.
  unfold Response_Unmarshal.
  destruct (rsp_err (reply (ch_sent (channel W)) request)) eqn:Herr; cbn; [discriminate|].
  destruct (json_status (rsp_data (reply (ch_sent (channel W)) request)) (false, false))
    as [status [err|]] eqn:Hjson; cbn; [discriminate|].
  unfold newConsumer, Transport_observer_SafeEmit, updTransport, transportAt, emit.
  unfold_consumer. munfold. cbn.
  rewrite list_lookup_middle by reflexivity. cbn.
  rewrite list_lookup_alter_eq, Ht. cbn.
  unfold reflect_DeepEqual. rewrite bool_decide_eq_true_2 by reflexivity.
  destruct (t_observer (pt_ITransport transport)) as [|h hs] eqn:Hobs.
  - unfold runHandlers. cbn. intros [= <-]. rewrite !alter_snoc. cbn.
    split_all; try reflexivity.
    + rewrite lookup_insert_eq. cbn. apply elem_of_app. right. apply list_elem_of_here.
    + rewrite lookup_insert_eq. cbn. apply elem_of_app. right. apply list_elem_of_here.
    + emitted_is. reflexivity.
  - handlers. intros [= <-].
    repeat match goal with
           | H : channel ?X = _ |- context [channel ?X] => rewrite H
           | H : payloadChannel ?X = _ |- context [payloadChannel ?X] => rewrite H
           | H : consumers ?X = _ |- context [consumers ?X] => rewrite H
           end.
    cbn. rewrite !alter_snoc. cbn. split_all; try reflexivity.
    + rewrite lookup_insert_eq. cbn. apply elem_of_app. right. apply list_elem_of_here.
    + rewrite lookup_insert_eq. cbn. apply elem_of_app. right. apply list_elem_of_here.
    + emitted_is. reflexivity.
    + discriminate.
Qed.

(** *** A closed consumer leaves the map of its transport *)

Lemma staysAbsent_refl t id W : staysAbsent t id W W.
Proof. intros H. exact H. Qed.

Lemma staysAbsent_trans t id W1 W2 W3 :
  staysAbsent t id W1 W2 -> staysAbsent t id W2 W3 -> staysAbsent t id W1 W3.
Proof. unfold staysAbsent. auto. Qed.

Lemma runHandler_staysAbsent t id h : keeps (staysAbsent t id) (runHandler h).
Proof.
  intros W Habs transport'. destruct h as [t' id'|id']; cbn; [|apply Habs].
  rewrite list_lookup_alter. destruct (decide (t' = t)) as [->|Hne]; [|apply Habs].
  destruct (transports W !! t) as [transport|] eqn:Ht; cbn; [|discriminate].
  intros [= <-]. cbn. apply lookup_delete_None. right. apply (Habs _ Ht).
Qed.

Lemma runHandlers_staysAbsent t id hs name : keeps (staysAbsent t id) (runHandlers hs name).
Proof.
  unfold runHandlers.
  apply (keeps_forM _ (staysAbsent_refl t id) (staysAbsent_trans t id)).
  intros h. apply runHandler_staysAbsent.
Qed.

(** A handler that deletes [id] from the map of [t] leaves it absent, and
    the handlers that run after it do not bring it back. *)
Lemma runHandlers_removes t id hs name W :
  (name, DeleteConsumer t id) ∈ hs ->
  absentFrom t id (runHandlers hs name W).2.
Proof.
  intros Hin. unfold runHandlers.
  assert (Hin' : (name, DeleteConsumer t id) ∈ filter (fun h => h.1 = name) hs).
  { apply list_elem_of_filter. split; [reflexivity | exact Hin]. }
  revert W Hin'. generalize (filter (fun h : string * Handler => h.1 = name) hs).
  intros l. induction l as [|h l IH]; intros W Hin'.
  - inversion Hin'.
  - cbn [forM]. rewrite bind_run. apply elem_of_cons in Hin' as [<-|Hin'].
    + apply (keeps_forM _ (staysAbsent_refl t id) (staysAbsent_trans t id)
               l (fun h => runHandler h.2) (fun h => runHandler_staysAbsent t id h.2)).
      intros transport'. cbn. rewrite list_lookup_alter_eq.
      destruct (transports W !! t) as [transport|]; cbn; [|discriminate].
      intros [= <-]. cbn. apply lookup_delete_eq.
    + apply IH, Hin'.
Qed.

(** After the handlers of a topic that deletes [id] from the map of [t]. *)
Ltac handlers_remove Hin :=
  match goal with
  | |- context [runHandlers ?hs ?n ?W] =>
      let W' := fresh "W" in
      let Hrun := fresh "Hrun" in
      let Habs := fresh "Habs" in
      pose proof (runHandlers_removes _ _ hs n W Hin) as Habs;
      destruct (runHandlers_spec hs n W) as (W' & Hrun & (?&?&?&?&?&?&?&?&?&?&?&?&?&?));
      rewrite Hrun in Habs |- *; clear Hrun; cbn in *
  end.

(** After handlers that come later. *)
Ltac handlers_keep t id :=
  match goal with
  | |- context [runHandlers ?hs ?n ?W] =>
      let W' := fresh "W" in
      let Hrun := fresh "Hrun" in
      let Hkeep := fresh "Hkeep" in
      pose proof (runHandlers_staysAbsent t id hs n W) as Hkeep;
      destruct (runHandlers_spec hs n W) as (W' & Hrun & (?&?&?&?&?&?&?&?&?&?&?&?&?&?));
      rewrite Hrun in Hkeep |- *; clear Hrun; cbn in *
  end.

(** An open consumer whose [@close] and [@producerclose] carry the handler
    that [Consume] registers is gone from the map of its transport after
    [Close] and after the [producerclose] notification. *)
Lemma closing_consumer_removes W c consumer t id data :
  consumers W !! c = Some consumer ->
  c_closed consumer = 0%N ->
  ("@close", DeleteConsumer t id) ∈ c_emitter consumer ->
  ("@producerclose", DeleteConsumer t id) ∈ c_emitter consumer ->
  absentFrom t id (Consumer_Close c W).2 /\
  absentFrom t id (Consumer_onNotification c "producerclose" data W).2.
Proof.
  intros Hc H0 Hclose Hproducerclose.
  unfold_consumer. munfold. cbn. rewrite Hc. cbn. rewrite H0. cbn.
  rewrite list_lookup_alter_eq, Hc. cbn.
  split.
  - destruct (ch_closed (channel W)); cbn.
    all: rewrite ?list_lookup_alter_eq, ?Hc; cbn.
    all: handlers_remove Hclose; read_consumer Hc.
    all: handlers_keep t id; apply Hkeep; assumption.
  - handlers_remove Hproducerclose. read_consumer Hc.
    handlers_keep t id. read_consumer Hc.
    match goal with H : staysAbsent _ _ _ ?X |- _ => assert (Habs1 : absentFrom t id X) end.
    { apply Hkeep. assumption. }
    handlers_keep t id. apply Hkeep0. assumption.
Qed.

(** The consumer a successful [Consume] returns: open, with the two
    handlers on its emitter. *)
Lemma Consume_registers W t transport options c :
  transports W !! t = Some transport ->
  (PipeTransport_Consume t options W).1 = (Some c, None) ->
  exists consumer,
    consumers (PipeTransport_Consume t options W).2 !! c = Some consumer /\
    c_closed consumer = 0%N /\
    c_emitter consumer
    = [("@close", DeleteConsumer t (uuid_NewV4 (uuids W)));
       ("@producerclose", DeleteConsumer t (uuid_NewV4 (uuids W)))].
Proof.
  intros Ht.
  unfold PipeTransport_Consume, transportAt, logf, uuid_String, Channel_Request.
  munfold. cbn. rewrite Ht. cbn.
  destruct (pt_getProducerById _ _) as [producer|]; cbn; [|discriminate].
  destruct (ch_closed (channel W)) eqn:Hch; cbn; [discriminate|].
  destruct (Response_Unmarshal _ _ _) as [status [err|]]; cbn; [discriminate|].
  unfold newConsumer, Transport_observer_SafeEmit, updTransport, transportAt, emit.
  unfold_consumer. munfold. cbn.
  rewrite list_lookup_middle by reflexivity. cbn.
  handlers. intros [= <-].
  repeat match goal with
         | H : consumers ?X = _ |- context [consumers ?X] => rewrite H
         end.
  cbn. rewrite !alter_snoc. rewrite list_lookup_middle by reflexivity.
  eexists. split_all; reflexivity.
Qed.

(** A consumer made by [Consume] leaves the map of its transport when it is
    closed by [Close] or by the [producerclose] notification: whatever else
    happened at its creation, the transport no longer has an entry under its
    identifier afterwards. *)
Theorem consumed_then_closed_leaves_map W t transport options c data :
  transports W !! t = Some transport ->
  (PipeTransport_Consume t options W).1 = (Some c, None) ->
  let W1 := (PipeTransport_Consume t options W).2 in
  let id := uuid_NewV4 (uuids W) in
  (Consumer_Closed c W1).1 = false /\
  absentFrom t id (Consumer_Close c W1).2 /\
  absentFrom t id (Consumer_onNotification c "producerclose" data W1).2.
Proof.
  intros Ht Hsome. cbv zeta.
  destruct (Consume_registers W t transport options c Ht Hsome)
    as (consumer & Hc & H0 & Hemitter).
  split.
  - unfold Consumer_Closed, consumerAt. munfold. cbn. rewrite Hc. cbn. rewrite H0. reflexivity.
  - apply (closing_consumer_removes _ c consumer); try assumption.
    + rewrite Hemitter. apply list_elem_of_here.
    + rewrite Hemitter. apply list_elem_of_further, list_elem_of_here.
Qed.

(** ** Connecting and closing a pipe transport *)

(** [PipeTransport.Connect] emits nothing and touches no consumer.  When it
    returns an error the transports are as they were; when it succeeds the
    only change is the tuple of this transport, which becomes the one the
    worker answered.  The request carries the address, the port and the
    SRTP parameters of the options. *)
Theorem Connect_outcomes W t transport options :
  transports W !! t = Some transport ->
  let result := PipeTransport_Connect t options W in
  let request :=
    {| req_method := "transport.connect"; req_internal := Some (pt_internal transport);
       req_data := Some (DataConnect {| conn_Ip := conn_Ip options;
                                        conn_Port := conn_Port options;
                                        conn_SrtpParameters := conn_SrtpParameters options |}) |} in
  events result.2 = events W /\
  consumers result.2 = consumers W /\
  (ch_closed (channel W) = false ->
   ch_sent (channel result.2) = ch_sent (channel W) ++ [request]) /\
  match result.1 with
  | Some err => transports result.2 = transports W
  | None =>
      ch_closed (channel W) = false /\
      transports result.2
      = alter (with_pt_data (with_data_tuple (fun _ =>
                 (json_tuple (rsp_data (reply (ch_sent (channel W)) request))
                             {| tuple_raw := EmptyString |}).1)))
              t (transports W)
  end.
Proof.
  intros Ht. cbv zeta.
  unfold PipeTransport_Connect, transportAt, updTransport, logf, Channel_Request,
    Response_Unmarshal.
  munfold. cbn. rewrite Ht. cbn.
  destruct (ch_closed (channel W)) eqn:Hch; cbn.
  { split_all; try reflexivity. discriminate. }
  destruct (rsp_err _); cbn.
  { split_all; reflexivity. }
  destruct (json_tuple _ _) as [tuple [err|]]; cbn; split_all; reflexivity.
Qed.

Lemma sameData_refl W : sameData W W.
Proof. intros t. reflexivity. Qed.

Lemma sameData_trans W1 W2 W3 : sameData W1 W2 -> sameData W2 W3 -> sameData W1 W3.
Proof. intros H1 H2 t. rewrite H2. apply H1. Qed.

Lemma updTransport_sameData t f :
  (forall transport, pt_data (f transport) = pt_data transport) ->
  keeps sameData (updTransport t f).
Proof.
  intros Hf W t'. cbn. rewrite list_lookup_alter.
  destruct (decide (t = t')) as [->|]; [|reflexivity].
  destruct (transports W !! t'); cbn; [|reflexivity]. rewrite Hf. reflexivity.
Qed.

Lemma runHandlers_sameData hs name : keeps sameData (runHandlers hs name).
Proof.
  unfold runHandlers. apply (keeps_forM _ sameData_refl sameData_trans).
  intros [? [t id|id]]; cbn.
  - apply updTransport_sameData. intros []. reflexivity.
  - intros W t. reflexivity.
Qed.

Ltac data_step :=
  keeps_step sameData_refl sameData_trans runHandlers_sameData
             ltac:(first [ apply updTransport_sameData; intros []; reflexivity
                         | intros ? ?; reflexivity ]).

(** The base transport closes without touching the data of any pipe
    transport. *)
Lemma Transport_Close_sameData t :
  keeps sameData (Transport_Close t) /\ keeps sameData (Transport_routerClosed t).
Proof.
  unfold Transport_Close, Transport_routerClosed, Transport_Closed, Transport_SafeEmit,
    Transport_observer_SafeEmit, transportAt, Consumer_transportClosed,
    Consumer_CompareAndSwap_closed, Consumer_SafeEmit, Consumer_Emit,
    Consumer_observer_SafeEmit, consumerAt, updConsumer, emit, logf,
    Channel_RemoveAllListeners, PayloadChannel_RemoveAllListeners, Channel_Request.
  split; repeat data_step.
Qed.

(** The override of [PipeTransport] before it hands over to the base
    transport. *)
Lemma PipeTransport_closing_data (rest : M unit) W t transport :
  keeps sameData rest ->
  transports W !! t = Some transport ->
  t_closed (pt_ITransport transport) = false ->
  let W' :=
    ((closed ← Transport_Closed t;
      if closed : bool then mret tt
      else
        transport ← transportAt t;
        (if (0 <? String.length (data_sctpState (pt_data transport)))%nat
         then updTransport t (with_pt_data (with_data_sctpState (fun _ => SctpState_Closed)))
         else mret tt) ;;
        rest) W).2 in
  pt_data <$> transports W' !! t
  = Some (with_data_sctpState
            (fun s => if decide (s = EmptyString) then EmptyString else SctpState_Closed)
            (pt_data transport)) /\
  forall t', t' <> t -> pt_data <$> transports W' !! t' = pt_data <$> transports W !! t'.
Proof.
  intros Hrest Ht Hopen. cbv zeta.
  unfold Transport_Closed, transportAt. munfold. cbn. rewrite Ht. cbn. rewrite Hopen.
  cbn. rewrite ?Ht. cbn.
  destruct (data_sctpState (pt_data transport)) as [|a s] eqn:Hstate; cbn.
  - specialize (Hrest W). destruct (rest W) as [[] W1]. cbn in *.
    split; [|intros; apply Hrest]. rewrite Hrest, Ht. cbn. f_equal.
    destruct (pt_data transport); cbn in *; subst; cbn.
    rewrite ?decide_True by reflexivity. reflexivity.
  - match goal with
    | |- context [rest ?W0] => specialize (Hrest W0); destruct (rest W0) as [[] W1]
    end.
    cbn in *. split.
    + rewrite Hrest. cbn. rewrite list_lookup_alter_eq, Ht. cbn. f_equal.
      destruct (pt_data transport); cbn in *; subst; cbn.
      rewrite ?decide_False by discriminate. reflexivity.
    + intros t' Hne. rewrite Hrest. cbn. rewrite list_lookup_alter_ne by congruence.
      reflexivity.
Qed.

(** [PipeTransport.Close] and [routerClosed] on an open transport mark its
    SCTP state as closed exactly when SCTP was in use (the state was not
    empty) and leave the rest of its data, tuple included, as it was; the
    data of the other transports is not touched. *)
Theorem PipeTransport_Close_sctpState W t transport :
  transports W !! t = Some transport ->
  t_closed (pt_ITransport transport) = false ->
  let closing s := if decide (s = EmptyString) then EmptyString else SctpState_Closed in
  let after W' :=
    pt_data <$> transports W' !! t
    = Some (with_data_sctpState closing (pt_data transport)) /\
    forall t', t' <> t -> pt_data <$> transports W' !! t' = pt_data <$> transports W !! t' in
  after (PipeTransport_Close t W).2 /\ after (PipeTransport_routerClosed t W).2.
Proof.
  intros Ht Hopen. cbv zeta.
  destruct (Transport_Close_sameData t) as [Hclose Hrouter].
  split.
  - apply (PipeTransport_closing_data (Transport_Close t) W t transport Hclose Ht Hopen).
  - apply (PipeTransport_closing_data (Transport_routerClosed t) W t transport Hrouter Ht Hopen).
Qed.

(** A pipe transport made by [newPipeTransport] is open and owns nothing, and
    it listens on the channel under its identifier: when no one else
    listens there, an [sctpstatechange] notification addressed to it sets
    its SCTP state to the decoded one, whatever the decoder's error, and is
    emitted on the transport and then on its observer. *)
Theorem newPipeTransport_listens W params data bytes :
  ch_listeners (channel W) !! TransportId (tp_internal params) = None ->
  let t := (newPipeTransport params data W).1 in
  let W1 := (newPipeTransport params data W).2 in
  let W2 := (Channel_notify (TransportId (tp_internal params)) "sctpstatechange" bytes W1).2 in
  let state := (json_sctpState bytes EmptyString).1 in
  let made data :=
    {| pt_ITransport := newTransport; pt_internal := tp_internal params;
       pt_data := data; pt_getProducerById := tp_getProducerById params |} in
  t = length (transports W) /\
  transports W1 = transports W ++ [made data] /\
  events W1 = events W /\
  transports W2 = transports W ++ [made (with_data_sctpState (fun _ => state) data)] /\
  emitted W1 W2
  = [ {| ev_emitter := OfTransport t; ev_name := "sctpstatechange";
         ev_args := [ArgSctpState state] |};
      {| ev_emitter := TransportObserver t; ev_name := "sctpstatechange";
         ev_args := [ArgSctpState state] |} ].
Proof.
  intros Hfree. cbv zeta.
  unfold newPipeTransport, PipeTransport_handleWorkerNotifications, Transport_Id, transportAt,
    Channel_On, subscribe, Channel_notify.
  munfold. cbn. rewrite list_lookup_middle by reflexivity. cbn.
  rewrite Hfree, lookup_insert_eq. cbn.
  unfold PipeTransport_onNotification, Transport_SafeEmit, Transport_observer_SafeEmit,
    updTransport, transportAt, emit, runHandlers.
  munfold. cbn.
  repeat (rewrite ?alter_snoc, ?list_lookup_middle by reflexivity; cbn).
  split_all; try reflexivity. unfold emitted. cbn. rewrite <- ?app_assoc, drop_app_length. reflexivity.
Qed.

(** ** A closed worker owns no router *)

Lemma noRouterGained_refl W : noRouterGained W W.
Proof. split; auto. Qed.

Lemma noRouterGained_trans W1 W2 W3 :
  noRouterGained W1 W2 -> noRouterGained W2 W3 -> noRouterGained W1 W3.
Proof. unfold noRouterGained. intros [] []. split; [congruence | auto]. Qed.

Lemma runHandlers_noRouterGained hs name : keeps noRouterGained (runHandlers hs name).
Proof.
  unfold runHandlers. apply (keeps_forM _ noRouterGained_refl noRouterGained_trans).
  intros [? [t id|id]] W; cbn; split; auto.
  intros H. cbn. rewrite H. apply delete_empty.
Qed.

Ltac routers_step :=
  keeps_step noRouterGained_refl noRouterGained_trans runHandlers_noRouterGained
             ltac:(intros ?; split; cbn; auto).

(** Every call but the three of the worker that make or close routers. *)
Lemma run_noRouterGained call :
  match call with
  | CallWorkerClose | CallWorkerWait _ | CallWorkerCreateRouter _ => True
  | _ => keeps noRouterGained (run call)
  end.
Proof.
  destruct call; try exact I; cbn [run].
  all: unfold Channel_notify, PayloadChannel_notify, runListener, childExited, afterExit,
         Worker_onRunning, Worker_Emit, Worker_Dump, Worker_GetResourceUsage,
         Worker_UpdateSettings, Router_workerClosed, routerAt, updRouter,
         newPipeTransport, PipeTransport_handleWorkerNotifications, Transport_Id,
         PipeTransport_Close, PipeTransport_routerClosed, PipeTransport_Connect,
         PipeTransport_Consume, PipeTransport_onNotification,
         Transport_Close, Transport_routerClosed, Transport_Closed, Transport_SafeEmit,
         Transport_observer_SafeEmit, transportAt, updTransport, newConsumer, uuid_String.
  all: unfold_consumer.
  all: repeat routers_step.
Qed.

Lemma Worker_CreateRouter_worker options W :
  w_closed (worker (Worker_CreateRouter options W).2) = w_closed (worker W) /\
  (ch_closed (channel W) = true -> worker (Worker_CreateRouter options W).2 = worker W).
Proof.
  unfold Worker_CreateRouter, uuid_String, Channel_Request, logf. munfold. cbn.
  destruct (ch_closed (channel W)) eqn:Hch; cbn; [split; reflexivity|].
  destruct (rsp_err _); cbn; [split; [reflexivity | discriminate]|].
  destruct (generateRouterRtpCapabilities _).2; cbn; [split; [reflexivity | discriminate]|].
  unfold newRouter, Router_On, updRouter, Worker_observer_SafeEmit, emit, runHandlers.
  munfold. cbn. split; [reflexivity | discriminate].
Qed.

Lemma Worker_Close_no_router W :
  w_closed (worker W) = true -> w_routers (worker W) = ∅ ->
  w_routers (worker (Worker_Close W).2) = ∅.
Proof. intros Hclosed H. rewrite closed_worker_stays by exact Hclosed. exact H. Qed.

(** In every world the package reaches, a closed worker has an empty map of
    routers: [Close] empties it, and no router can be added afterwards,
    since [CreateRouter] fails on the closed channel before it builds
    one. *)
Theorem closed_worker_owns_no_router W :
  reachable W -> w_closed (worker W) = true -> w_routers (worker W) = ∅.
Proof.
  induction 1 as [options pid W Hnew|W call Hr IH].
  - injection Hnew as <-. discriminate.
  - pose proof (run_noRouterGained call) as Hcall.
    destruct (reachable_sound W Hr) as [_ Hfollows].
    destruct call; try (destruct (Hcall W) as [Hc He]; rewrite Hc; intros Hclosed;
                        apply He, IH, Hclosed).
    + (* Worker.Close *)
      cbn [run]. intros _.
      destruct (w_closed (worker W)) eqn:Hclosed.
      * apply Worker_Close_no_router; auto.
      * apply (Worker_Close_rest W Hclosed).
    + (* Worker.wait *)
      cbn [run]. unfold Worker_wait. do 2 (rewrite bind_run; cbv beta).
      set (W0 := (modify (with_worker (with_w_child (fun _ => None))) W).2).
      assert (H1 : w_routers (worker (Worker_Close W0).2) = ∅).
      { destruct (w_closed (worker W0)) eqn:Hclosed.
        - apply Worker_Close_no_router; [exact Hclosed|]. apply IH. exact Hclosed.
        - apply (Worker_Close_rest W0 Hclosed). }
      set (W1 := (Worker_Close W0).2) in *. clearbody W1.
      rewrite bind_run. cbn [gets fst snd]. cbv beta zeta.
      unfold Worker_SafeEmit, Worker_Emit, emit, logf, runHandlers.
      destruct (negb (w_spawnDone (worker W1)));
        [destruct ((exitCodeAndSignal err).1 =? 42)|]; munfold; cbn; intros _; exact H1.
    + (* Worker.CreateRouter *)
      cbn [run]. rewrite bind_run. cbn [mret M_ret fst snd].
      destruct (Worker_CreateRouter_worker options W) as [Hc Hsame].
      rewrite Hc. intros Hclosed. rewrite Hsame by (apply Hfollows, Hclosed).
      apply IH, Hclosed.
Qed.

(** ** The child is signalled at most once *)

Lemma sameProcess_refl W : sameProcess W W.
Proof. repeat split. Qed.

Lemma sameProcess_trans W1 W2 W3 : sameProcess W1 W2 -> sameProcess W2 W3 -> sameProcess W1 W3.
Proof. unfold sameProcess. intros (?&?&?&?) (?&?&?&?). repeat split; congruence. Qed.

Lemma runHandlers_sameProcess hs name : keeps sameProcess (runHandlers hs name).
Proof.
  intros W. destruct (runHandlers_spec hs name W) as (W' & -> & Hown).
  destruct Hown as (_&_&_&_&_&_&Hs&_&_&Hc&_&Hp&Hk&_). repeat split; assumption.
Qed.

Ltac process_step :=
  keeps_step sameProcess_refl sameProcess_trans runHandlers_sameProcess
             ltac:(intros ?; repeat split).

(** Every call but [Worker.Close] and [Worker.wait] leaves the child and the
    signals alone. *)
Lemma run_sameProcess call :
  match call with
  | CallWorkerClose | CallWorkerWait _ => True
  | _ => keeps sameProcess (run call)
  end.
Proof.
  destruct call; try exact I; cbn [run].
  all: unfold Channel_notify, PayloadChannel_notify, runListener, childExited, afterExit,
         Worker_onRunning, Worker_Emit, Worker_Dump, Worker_GetResourceUsage,
         Worker_UpdateSettings, Worker_CreateRouter, Worker_observer_SafeEmit,
         newRouter, Router_On, Router_workerClosed, routerAt, updRouter,
         newPipeTransport, PipeTransport_handleWorkerNotifications, Transport_Id,
         PipeTransport_Close, PipeTransport_routerClosed, PipeTransport_Connect,
         PipeTransport_Consume, PipeTransport_onNotification,
         Transport_Close, Transport_routerClosed, Transport_Closed, Transport_SafeEmit,
         Transport_observer_SafeEmit, transportAt, updTransport, newConsumer, uuid_String.
  all: unfold_consumer.
  all: repeat process_step.
Qed.

Lemma sameProcess_signalledOnce W W' : sameProcess W W' -> signalledOnce W -> signalledOnce W'.
Proof.
  unfold signalledOnce. intros (Hs & Hk & Hp & Hc). rewrite Hs, Hk, Hp, Hc. auto.
Qed.

Lemma Worker_Close_signalledOnce W : signalledOnce W -> signalledOnce (Worker_Close W).2.
Proof.
  intros HW. destruct (w_closed (worker W)) eqn:Hclosed.
  { rewrite closed_worker_stays by exact Hclosed. exact HW. }
  destruct (Worker_Close_spec W Hclosed) as (Hc & _ & _ & Hp & _).
  destruct (Worker_Close_rest W Hclosed) as (Hk & Hs & _).
  cbn in Hp. right. split; [exact Hk|]. rewrite Hs, Hp, Hc.
  destruct HW as [[-> ->]|[-> [->| [_ Habs]]]]; [right|left|congruence]; auto.
Qed.

(** In every world the package reaches, the only signal that has been sent is
    SIGTERM, at most once, to the pid of the child, by [Close] on the worker;
    while the worker still holds the child, nothing has been sent. *)
Theorem child_signalled_at_most_once W : reachable W -> signalledOnce W.
Proof.
  induction 1 as [options pid W Hnew|W call Hr IH].
  - injection Hnew as <-. left. split; reflexivity.
  - pose proof (run_sameProcess call) as Hcall.
    destruct call; try (eapply sameProcess_signalledOnce; [apply Hcall | exact IH]).
    + apply Worker_Close_signalledOnce, IH.
    + cbn [run]. unfold Worker_wait. do 2 (rewrite bind_run; cbv beta).
      set (W0 := (modify (with_worker (with_w_child (fun _ => None))) W).2).
      assert (H0 : signalledOnce W0).
      { right. split; [reflexivity|]. cbn. destruct IH as [[_ ->]|[_ H]]; auto. }
      apply Worker_Close_signalledOnce in H0.
      set (W1 := (Worker_Close W0).2) in *. clearbody W1.
      rewrite bind_run. cbn [gets fst snd]. cbv beta zeta.
      unfold Worker_SafeEmit, Worker_Emit, emit, logf, runHandlers.
      destruct (negb (w_spawnDone (worker W1)));
        [destruct ((exitCodeAndSignal err).1 =? 42)|]; munfold; cbn; exact H0.
Qed.

(** ** A closed consumer hears nothing on the channel *)

Lemma keepsListeners_refl W : keepsListeners W W.
Proof. intros H. exact H. Qed.

Lemma keepsListeners_trans W1 W2 W3 :
  keepsListeners W1 W2 -> keepsListeners W2 W3 -> keepsListeners W1 W3.
Proof. unfold keepsListeners. auto. Qed.

Lemma runHandlers_keepsListeners hs name : keeps keepsListeners (runHandlers hs name).
Proof.
  intros W. destruct (runHandlers_spec hs name W) as (W' & -> & Hown).
  destruct Hown as (Hch & _ & _ & Hcs & _). cbn.
  intros HW key subs s c. rewrite Hch, Hcs. apply HW.
Qed.

Lemma RemoveAllListeners_keepsListeners id :
  keeps keepsListeners (Channel_RemoveAllListeners id).
Proof.
  intros W HW key subs s c. cbn. intros Hkey. apply lookup_delete_Some in Hkey as [_ Hkey].
  apply HW, Hkey.
Qed.

Lemma updConsumer_keepsListeners c f :
  (forall consumer, c_closed (f consumer) = c_closed consumer /\
                    c_internal (f consumer) = c_internal consumer) ->
  keeps keepsListeners (updConsumer c f).
Proof.
  intros Hf W HW key subs s c' Hkey Hs Hl. cbn.
  destruct (HW key subs s c' Hkey Hs Hl) as (consumer & Hc & H0 & Hid).
  rewrite list_lookup_alter. destruct (decide (c = c')) as [->|_].
  - rewrite Hc. cbn. destruct (Hf consumer) as [Hclosed Hinternal].
    eexists. split; [reflexivity|]. rewrite Hclosed, Hinternal. auto.
  - eauto.
Qed.

Lemma subscribe_keepsListeners once id l :
  (forall c, l <> ConsumerNotifications c) ->
  keeps keepsListeners (subscribe once id l).
Proof.
  intros Hl W HW key subs s c. cbn. intros Hkey Hs Hc.
  destruct (decide (id = key)) as [->|Hne].
  - rewrite lookup_insert_eq in Hkey. injection Hkey as <-.
    apply elem_of_app in Hs as [Hs|Hs].
    + destruct (ch_listeners (channel W) !! key) as [subs|] eqn:Hsubs; cbn in Hs.
      * apply (HW key subs s c Hsubs Hs Hc).
      * inversion Hs.
    + apply list_elem_of_singleton in Hs. subst s. cbn in Hc. destruct (Hl c Hc).
  - rewrite lookup_insert_ne in Hkey by exact Hne. apply (HW key subs s c Hkey Hs Hc).
Qed.

Lemma dispatch_keepsListeners targetId :
  keeps keepsListeners
    (modify (with_channel (with_ch_listeners
               (alter (filter (fun s => sub_once s = false)) targetId)))).
Proof.
  intros W HW key subs s c. cbn. intros Hkey Hs Hc.
  destruct (decide (targetId = key)) as [->|Hne].
  - rewrite lookup_alter_eq in Hkey.
    destruct (ch_listeners (channel W) !! key) as [subs0|] eqn:Hsubs; [|discriminate].
    injection Hkey as <-. apply list_elem_of_filter in Hs as [_ Hs].
    apply (HW key subs0 s c Hsubs Hs Hc).
  - rewrite lookup_alter_ne in Hkey by exact Hne. apply (HW key subs s c Hkey Hs Hc).
Qed.

(** A new consumer is open and listens under its identifier. *)
Lemma newConsumer_keepsListeners params : keeps keepsListeners (newConsumer params).
Proof.
  intros W HW. unfold newConsumer. unfold_consumer. munfold. cbn.
  rewrite list_lookup_middle by reflexivity. cbn.
  intros key subs s c Hkey Hs Hc. cbn in Hkey |- *.
  match goal with |- context [consumers W ++ [?x]] => set (new := x) end.
  assert (Hold : forall subs0, ch_listeners (channel W) !! key = Some subs0 -> s ∈ subs0 ->
                 exists consumer, (consumers W ++ [new]) !! c = Some consumer /\
                                  c_closed consumer = 0%N /\
                                  ConsumerId (c_internal consumer) = key).
  { intros subs0 Hsubs Hs0. destruct (HW key subs0 s c Hsubs Hs0 Hc) as (consumer & Hl & H0).
    exists consumer. split; [|exact H0]. apply lookup_app_l_Some, Hl. }
  destruct (decide (ConsumerId (params_internal params) = key)) as [Heq|Hne].
  - rewrite Heq, lookup_insert_eq in Hkey. injection Hkey as <-.
    apply elem_of_app in Hs as [Hs|Hs].
    + destruct (ch_listeners (channel W) !! key) as [subs|] eqn:Hsubs; cbn in Hs.
      * apply (Hold subs eq_refl Hs).
      * inversion Hs.
    + apply list_elem_of_singleton in Hs. subst s. cbn in Hc. injection Hc as <-.
      rewrite list_lookup_middle by reflexivity. eexists. split; [reflexivity|].
      split; [reflexivity | exact Heq].
  - rewrite lookup_insert_ne in Hkey by exact Hne. apply (Hold subs Hkey Hs).
Qed.

(** The world in which consumer [c] has just been closed and the listeners
    under its identifier removed. *)
Lemma closed_and_removed W W1 c consumer :
  listensOpen W ->
  consumers W !! c = Some consumer ->
  consumers W1 = alter (with_c_closed (fun _ => 1%N)) c (consumers W) ->
  ch_listeners (channel W1)
  = delete (ConsumerId (c_internal consumer)) (ch_listeners (channel W)) ->
  listensOpen W1.
Proof.
  intros HW Hc Hcs Hls key subs s c' Hkey Hs Hl.
  rewrite Hls in Hkey. apply lookup_delete_Some in Hkey as [Hne Hkey].
  destruct (HW key subs s c' Hkey Hs Hl) as (consumer' & Hc' & H0 & Hid).
  rewrite Hcs, list_lookup_alter. destruct (decide (c = c')) as [->|_].
  - rewrite Hc in Hc'. injection Hc' as <-. congruence.
  - eauto.
Qed.

Ltac listeners_step :=
  keeps_step keepsListeners_refl keepsListeners_trans runHandlers_keepsListeners
             ltac:(first [ apply RemoveAllListeners_keepsListeners
                         | apply dispatch_keepsListeners
                         | apply newConsumer_keepsListeners
                         | apply updConsumer_keepsListeners; intros []; split; reflexivity
                         | apply subscribe_keepsListeners; discriminate
                         | intros ? H; exact H ]).

(** The three ways a consumer closes keep the invariant: the flag is set
    and the listeners are removed before anything else happens. *)
Lemma Consumer_closers_keepListeners c data :
  keeps keepsListeners (Consumer_Close c) /\
  keeps keepsListeners (Consumer_transportClosed c) /\
  keeps keepsListeners (Consumer_onNotification c "producerclose" data).
Proof.
  split_all; intros W HW.
  all: unfold_consumer; munfold; cbn.
  all: destruct (consumers W !! c) as [consumer|] eqn:Hc; cbn; [|exact HW].
  all: destruct (N.eqb_spec (c_closed consumer) 0) as [H0|Hne]; cbn; [|exact HW].
  all: rewrite ?list_lookup_alter_eq, ?Hc; cbn.
  all: try (destruct (ch_closed (channel W)); cbn).
  all: repeat (handlers; read_consumer Hc).
  all: apply (closed_and_removed W _ c consumer HW Hc).
  all: repeat match goal with
              | H : channel ?X = _ |- context [channel ?X] => rewrite H
              | H : consumers ?X = _ |- context [consumers ?X] => rewrite H
              end; reflexivity.
Qed.

Lemma Consumer_onNotification_keepsListeners c event data :
  keeps keepsListeners (Consumer_onNotification c event data).
Proof.
  destruct (String.eqb_spec event "producerclose") as [->|Hne].
  { apply Consumer_closers_keepListeners. }
  unfold Consumer_onNotification.
  apply String.eqb_neq in Hne. rewrite Hne.
  unfold Consumer_SafeEmit, Consumer_Emit, Consumer_observer_SafeEmit, consumerAt, emit, logf.
  repeat listeners_step.
Qed.

Ltac listeners_call :=
  first [ apply (proj1 (Consumer_closers_keepListeners _ []))
        | apply (proj1 (proj2 (Consumer_closers_keepListeners _ [])))
        | apply Consumer_onNotification_keepsListeners ].

Lemma run_keepsListeners call : keeps keepsListeners (run call).
Proof.
  destruct call; cbn [run].
  all: unfold Channel_notify, PayloadChannel_notify, runListener, childExited, afterExit,
         Worker_wait, Worker_Close, Channel_Close, PayloadChannel_Close,
         Worker_SafeEmit, Worker_onRunning, Worker_Emit, Worker_Dump,
         Worker_GetResourceUsage, Worker_UpdateSettings, Worker_CreateRouter,
         Worker_observer_SafeEmit, newRouter, Router_On, Router_workerClosed, routerAt,
         updRouter, newPipeTransport, PipeTransport_handleWorkerNotifications, Transport_Id,
         PipeTransport_Close, PipeTransport_routerClosed, PipeTransport_Connect,
         PipeTransport_Consume, PipeTransport_onNotification,
         Transport_Close, Transport_routerClosed, Transport_Closed, Transport_SafeEmit,
         Transport_observer_SafeEmit, transportAt, updTransport, uuid_String,
         Consumer_Pause, Consumer_Resume, Consumer_Dump, Consumer_GetStats,
         Consumer_SetPreferredLayers, Consumer_UnsetPriority, Consumer_SetPriority,
         Consumer_RequestKeyFrame, Consumer_EnableTraceEvent, Consumer_onPayload,
         Consumer_Closed, Consumer_Id, Consumer_On, Consumer_SafeEmit, Consumer_Emit,
         Consumer_observer_SafeEmit, consumerAt, emit, logf, Channel_Request, Channel_On.
  all: repeat first [ listeners_step | listeners_call ].
Qed.

(** In every world the package reaches, a consumer that has a listener on
    the channel is open, and the listener is registered under the identifier
    of the consumer: [Close], [transportClosed] and [producerclose] remove
    the listeners in the same step that sets the closed flag, so a closed
    consumer is never handed a notification of the channel. *)
Theorem closed_consumer_hears_nothing W key subs s c :
  reachable W ->
  ch_listeners (channel W) !! key = Some subs ->
  s ∈ subs ->
  sub_listener s = ConsumerNotifications c ->
  exists consumer,
    consumers W !! c = Some consumer /\
    (Consumer_Closed c W).1 = false /\
    (Consumer_Id c W).1 = key.
Proof.
  intros Hr Hkey Hs Hl.
  assert (HW : listensOpen W).
  { clear key subs s c Hkey Hs Hl.
    induction Hr as [options pid W Hnew|W call Hr IH].
    - injection Hnew as <-. intros key subs s c. cbn.
      rewrite lookup_empty. cbn. intros Hkey Hs Hl.
      destruct (decide (pretty pid = key)) as [<-|Hne].
      + rewrite lookup_insert_eq in Hkey. injection Hkey as <-.
        apply list_elem_of_singleton in Hs. subst s. discriminate.
      + rewrite lookup_insert_ne, lookup_empty in Hkey by exact Hne. discriminate.
    - apply run_keepsListeners, IH. }
  destruct (HW key subs s c Hkey Hs Hl) as (consumer & Hc & H0 & Hid).
  exists consumer. split; [exact Hc|].
  unfold Consumer_Closed, Consumer_Id, consumerAt. munfold. cbn. rewrite Hc. cbn.
  rewrite H0. auto.
Qed.

End Properties.

(** ** The supported capabilities are handed out by reference *)

Module RtpFacts.
Import Rtp.

(** Two calls return the same value, the value of the built-in table. *)
Lemma GetSupportedRtpCapabilities_value :
  let first := GetSupportedRtpCapabilities initStore in
  let second := GetSupportedRtpCapabilities first.2 in
  readCapabilities first.2 first.1 = builtinTable /\
  readCapabilities second.2 second.1 = builtinTable /\
  first.2 = initStore.
Proof. repeat split. Qed.

Lemma differs_by_clockRates v w : clockRates v <> clockRates w -> v <> w.
Proof. intros H Heq. apply H. rewrite Heq. reflexivity. Qed.

Lemma differs_by_feedback v w :
  (vFeedback <$> vCodecs v) <> (vFeedback <$> vCodecs w) -> v <> w.
Proof. intros H Heq. apply H. rewrite Heq. reflexivity. Qed.

Lemma differs_by_parameters v w :
  (vParameters <$> vCodecs v) <> (vParameters <$> vCodecs w) -> v <> w.
Proof. intros H Heq. apply H. rewrite Heq. reflexivity. Qed.

(** C6, on the code as it is.  The value [GetSupportedRtpCapabilities]
    returns has the slices of the built-in table themselves: the assignment
    [caps.Codecs[0].ClockRate = 1] through the returned value changes the
    table and what the next call returns, and so do a write into the
    [RtcpFeedback] slice of a returned codec and a write through its
    [Parameters] pointer. *)
Theorem GetSupportedRtpCapabilities_aliases_table :
  let caps := (GetSupportedRtpCapabilities initStore).1 in
  Codecs caps = Codecs (supportedRtpCapabilities initStore) /\
  (exists opus st,
     codecAt initStore caps 0 = Some opus /\
     setCodec initStore (Codecs caps) 0
       {| Kind := Kind opus; MimeType := MimeType opus; ClockRate := 1;
          Channels := Channels opus; PreferredPayloadType := PreferredPayloadType opus;
          Parameters := Parameters opus; RtcpFeedbacks := RtcpFeedbacks opus |}
     = Some st /\
     readCapabilities st (supportedRtpCapabilities st) <> builtinTable /\
     readCapabilities st (GetSupportedRtpCapabilities st).1 <> builtinTable) /\
  (exists vp8 st,
     codecAt initStore caps 18 = Some vp8 /\
     setFeedback initStore (RtcpFeedbacks vp8) 0
       {| fbType := "transport-cc"; fbParameter := EmptyString |} = Some st /\
     readCapabilities st (supportedRtpCapabilities st) <> builtinTable /\
     readCapabilities st (GetSupportedRtpCapabilities st).1 <> builtinTable) /\
  (exists h264 st,
     codecAt initStore caps 20 = Some h264 /\
     setParameter initStore (Parameters h264) (h264Parameter 2) = Some st /\
     readCapabilities st (supportedRtpCapabilities st) <> builtinTable /\
     readCapabilities st (GetSupportedRtpCapabilities st).1 <> builtinTable).
Proof.
  cbv zeta. split; [reflexivity|]. split; [|split].
  - eexists _, _. split; [reflexivity|]. split; [reflexivity|].
    split; apply differs_by_clockRates; vm_compute; discriminate.
  - eexists _, _. split; [reflexivity|]. split; [reflexivity|].
    split; apply differs_by_feedback; vm_compute; discriminate.
  - eexists _, _. split; [reflexivity|]. split; [reflexivity|].
    split; apply differs_by_parameters; vm_compute; discriminate.
Qed.

End RtpFacts.

(** * The properties at work on the example world *)

#[local] Existing Instance acceptingWorker.

Lemma spawnedWorld_reachable : reachable spawnedWorld.
Proof. apply (reachable_new [] 4242). reflexivity. Qed.

Lemma closedWorkerWorld_reachable : reachable closedWorkerWorld.
Proof.
  unfold closedWorkerWorld, consumerWorld, transportWorld.
  repeat apply reachable_runAll. apply spawnedWorld_reachable.
Qed.

(** C1 fails as stated: a closed consumer on an open channel.  [Pause()]
    is accepted by the worker and returns no error. *)
Lemma closed_consumer_Pause_succeeds :
  (Consumer_Closed 0 closedConsumerWorld).1 = true /\
  (Consumer_Pause 0 closedConsumerWorld).1 = None /\
  ~ isInvalidStateError (Consumer_Pause 0 closedConsumerWorld).1.
Proof.
  split; [vm_compute; reflexivity|].
  assert (H : (Consumer_Pause 0 closedConsumerWorld).1 = None)
    by (vm_compute; reflexivity).
  split; [exact H|]. rewrite H. intros (err & Habs & _). discriminate.
Qed.

(** C1 at work: the closed worker of the example fails its operations, and
    so does a consumer once the channel is closed. *)
Lemma closed_objects_and_InvalidStateError_witness :
  isInvalidStateError (Worker_Dump closedWorkerWorld).1.2 /\
  isInvalidStateError (Consumer_Pause 0 closedWorkerWorld).1 /\
  (Consumer_RequestKeyFrame 0 consumerWorld).1 = None.
Proof.
  pose proof closed_objects_and_InvalidStateError as (Hworker & Hclosed & Hopen).
  split; [|split].
  - assert (Hw : (Worker_Closed closedWorkerWorld).1 = true) by (vm_compute; reflexivity).
    exact (proj1 (Hworker closedWorkerWorld
                    {| upd_LogLevel := "debug"; upd_LogTags := [] |}
                    {| MediaCodecs := []; router_opt_AppData := None |}
                    closedWorkerWorld_reachable Hw)).
  - assert (Hch : ch_closed (channel closedWorkerWorld) = true)
      by (vm_compute; reflexivity).
    exact (proj1 (Hclosed closedWorkerWorld 0%nat ConsumerLayers_zero 1%N [] Hch)).
  - assert (Hc : consumers consumerWorld !! 0%nat
                 = Some (default Consumer_absent (consumers consumerWorld !! 0%nat)))
      by (vm_compute; reflexivity).
    assert (Hch : ch_closed (channel consumerWorld) = false) by (vm_compute; reflexivity).
    pose proof (Hopen consumerWorld 0%nat _ ConsumerLayers_zero 1%N [] Hc Hch) as H.
    cbv zeta in H. destruct H as (_ & _ & _ & _ & _ & _ & Hkey & _).
    rewrite Hkey. vm_compute. reflexivity.
Defined.

(** C3 at work on the open consumer of the example. *)
Lemma observer_follows_effective_pause_witness :
  followsEffectivePause 0 consumerWorld (Consumer_Pause 0 consumerWorld).2 /\
  followsEffectivePause 0 consumerWorld (Consumer_Resume 0 consumerWorld).2 /\
  followsEffectivePause 0 consumerWorld
    (Consumer_onNotification 0 "producerpause" [] consumerWorld).2 /\
  followsEffectivePause 0 consumerWorld
    (Consumer_onNotification 0 "producerresume" [] consumerWorld).2.
Proof.
  eapply (observer_follows_effective_pause consumerWorld 0 _ []).
  vm_compute. reflexivity.
Defined.

(** C4 at work: a second [Close()] on the closed consumer, transport and
    worker of the example, and the count of [close] on their observers. *)
Lemma close_idempotent_closed_monotonic_witness :
  Consumer_Close 0 closedConsumerWorld = (None, closedConsumerWorld) /\
  PipeTransport_Close 0 closedTransportWorld = (tt, closedTransportWorld) /\
  Worker_Close closedWorkerWorld = (tt, closedWorkerWorld) /\
  (closeCount closedWorkerWorld WorkerObserver <= 1)%nat.
Proof.
  pose proof close_idempotent_closed_monotonic as (Hc & Ht & Hw & _ & _ & _ & Hn).
  split; [|split; [|split]].
  - apply (Hc closedConsumerWorld 0%nat []). vm_compute. reflexivity.
  - apply (Ht closedTransportWorld 0%nat). vm_compute. reflexivity.
  - apply (Hw closedWorkerWorld). vm_compute. reflexivity.
  - apply (Hn closedWorkerWorld WorkerObserver closedWorkerWorld_reachable eq_refl).
Defined.

(** C5 at work: [producerclose] on the open consumer of the example. *)
Lemma producerclose_closes_once_witness :
  let W' := (Consumer_onNotification 0 "producerclose" [] consumerWorld).2 in
  (Consumer_Closed 0 W').1 = true /\
  emitted consumerWorld W'
  = [ {| ev_emitter := OfConsumer 0; ev_name := "@producerclose"; ev_args := [] |};
      {| ev_emitter := OfConsumer 0; ev_name := "producerclose"; ev_args := [] |};
      {| ev_emitter := ConsumerObserver 0; ev_name := "close"; ev_args := [] |} ] /\
  Consumer_Close 0 W' = (None, W').
Proof.
  cbv zeta.
  assert (Hc : consumers consumerWorld !! 0%nat
               = Some (default Consumer_absent (consumers consumerWorld !! 0%nat)))
    by (vm_compute; reflexivity).
  destruct (producerclose_closes_once consumerWorld 0 _ [] Hc)
    as (Hclosed & _ & Hemitted & Hlater); [vm_compute; reflexivity|].
  split; [exact Hclosed|]. split; [exact Hemitted|].
  apply (Hlater _ [] Hclosed).
Defined.

(** C7 at work: consuming a producer the router of the example does not
    know. *)
Lemma Consume_unknown_producer_witness :
  let result := PipeTransport_Consume 0 (consumeOptions "producer-2") transportWorld in
  (exists err, result.1 = (None, Some err)) /\
  channel result.2 = channel transportWorld /\
  consumers result.2 = consumers transportWorld /\
  transports result.2 = transports transportWorld /\
  events result.2 = events transportWorld.
Proof.
  eapply (Consume_unknown_producer transportWorld 0 _ (consumeOptions "producer-2")).
  - vm_compute. reflexivity.
  - vm_compute. reflexivity.
Defined.

(** C8 at work: a consumer built with the zero score, and one built with
    the score [{0, 0, []}], whose empty slice is not the nil slice of the
    zero value. *)
Lemma newConsumer_default_score_witness :
  let emptyScore := {| Score := 0; ProducerScore := 0; ProducerScores := Some [] |} in
  (Consumer_Score (newConsumer (exampleParams ConsumerScore_zero) spawnedWorld).1
     (newConsumer (exampleParams ConsumerScore_zero) spawnedWorld).2).1
  = {| Score := 10; ProducerScore := 10; ProducerScores := Some [] |} /\
  (Consumer_Score (newConsumer (exampleParams emptyScore) spawnedWorld).1
     (newConsumer (exampleParams emptyScore) spawnedWorld).2).1 = emptyScore.
Proof.
  cbv zeta. split.
  - exact (proj1 (newConsumer_default_score (exampleParams ConsumerScore_zero)
                    spawnedWorld) eq_refl).
  - refine (proj2 (newConsumer_default_score
                     (exampleParams {| Score := 0; ProducerScore := 0;
                                       ProducerScores := Some [] |})
                     spawnedWorld) _).
    discriminate.
Defined.

(** C9 at work on the open consumer of the example. *)
Lemma UnsetPriority_is_SetPriority_1_witness :
  (Consumer_UnsetPriority 0 consumerWorld).1 = (Consumer_SetPriority 0 1 consumerWorld).1 /\
  ch_sent (channel (Consumer_UnsetPriority 0 consumerWorld).2)
  = ch_sent (channel consumerWorld) ++
    [ {| req_method := "consumer.setPriority";
         req_internal :=
           Some (c_internal (default Consumer_absent (consumers consumerWorld !! 0%nat)));
         req_data := Some (DataPriority 1) |} ].
Proof.
  pose proof (UnsetPriority_is_SetPriority_1 consumerWorld 0) as H. cbv zeta in H.
  destruct H as (Herr & _ & _ & _ & _ & Hsent).
  split; [exact Herr|]. apply Hsent. vm_compute. reflexivity.
Defined.

(** C10 at work: an [rtp] notification for the closed consumer of the
    example. *)
Lemma rtp_on_closed_consumer_witness :
  Consumer_onPayload 0 "rtp" [] [] closedConsumerWorld = (tt, closedConsumerWorld) /\
  emitted closedConsumerWorld
          (Consumer_onPayload 0 "rtp" [] [] closedConsumerWorld).2 = [].
Proof.
  eapply (rtp_on_closed_consumer closedConsumerWorld 0 _ [] []).
  - vm_compute. reflexivity.
  - vm_compute. reflexivity.
Defined.

(** * The further properties at work on the example world *)

(** Closing the worker of the example after it has made a router. *)
Lemma Worker_Close_effects_witness :
  signals (Worker_Close routerWorld).2 = [(4242, "SIGTERM")] /\
  w_routers (worker (Worker_Close routerWorld).2) = ∅ /\
  closedOf (Worker_Close routerWorld).2 (RouterObserver 0) = true.
Proof.
  assert (Hopen : w_closed (worker routerWorld) = false) by (vm_compute; reflexivity).
  assert (Hid : w_routers (worker routerWorld) !! "uuid-0" = Some 0%nat)
    by (vm_compute; reflexivity).
  assert (Hlt : (0 < length (routers routerWorld))%nat) by (vm_compute; lia).
  pose proof (Worker_Close_effects routerWorld Hopen) as H. cbv zeta in H.
  destruct H as (_ & _ & Hs & _ & _ & _ & Hr & Hall & _).
  split; [|split].
  - rewrite Hs. vm_compute. reflexivity.
  - exact Hr.
  - exact (Hall "uuid-0" 0%nat Hid Hlt).
Defined.

(** The child of the example exits with code 42 before it has run. *)
Lemma Worker_wait_effects_witness :
  w_closed (worker (Worker_wait (WaitExitError (Some 10752)) spawnedWorld).2) = true /\
  exists before,
    events (Worker_wait (WaitExitError (Some 10752)) spawnedWorld).2
    = before ++ [ {| ev_emitter := OfWorker; ev_name := "@failure";
                     ev_args := [ArgError (NewTypeError "wrong settings")] |} ].
Proof.
  assert (Hopen : w_closed (worker spawnedWorld) = false) by (vm_compute; reflexivity).
  pose proof (Worker_wait_effects spawnedWorld (WaitExitError (Some 10752)) Hopen) as H.
  cbv zeta in H. destruct H as (Hc & _ & _ & _ & before & Hev).
  split; [exact Hc|]. exists before. rewrite Hev. reflexivity.
Defined.

(** A router made on the example worker goes with it. *)
Lemma created_router_closes_with_worker_witness :
  closedOf routerWorld (RouterObserver 0) = false /\
  closedOf (Worker_Close routerWorld).2 (RouterObserver 0) = true.
Proof.
  assert (Hopen : w_closed (worker spawnedWorld) = false) by (vm_compute; reflexivity).
  assert (Hsome : (Worker_CreateRouter {| MediaCodecs := []; router_opt_AppData := None |}
                     spawnedWorld).1 = (Some 0%nat, None)) by (vm_compute; reflexivity).
  pose proof (created_router_closes_with_worker spawnedWorld _ 0%nat Hopen Hsome) as H.
  cbv zeta in H. destruct H as (H1 & H2 & _).
  split; [exact H1 | exact H2].
Defined.

(** A request on the closed channel of the example fails and changes
    nothing. *)
Lemma consumer_error_changes_nothing_witness :
  (exists err, (Consumer_Pause 0 closedWorkerWorld).1 = Some err) /\
  consumers (Consumer_Pause 0 closedWorkerWorld).2 = consumers closedWorkerWorld /\
  events (Consumer_Pause 0 closedWorkerWorld).2 = events closedWorkerWorld.
Proof.
  assert (Herr : (Consumer_Pause 0 closedWorkerWorld).1
                 = Some (NewInvalidStateError "channel closed"))
    by (vm_compute; reflexivity).
  split; [eexists; exact Herr|].
  exact (proj1 (consumer_error_changes_nothing closedWorkerWorld 0 1%N) _ Herr).
Defined.

(** Pausing and resuming the running consumer of the example. *)
Lemma Pause_then_Resume_witness :
  observerPauseResume 0
    (emitted consumerWorld
             (Consumer_Resume 0 (Consumer_Pause 0 consumerWorld).2).2)
  = ["pause"; "resume"].
Proof.
  assert (Hc : consumers consumerWorld !! 0%nat
               = Some (default Consumer_absent (consumers consumerWorld !! 0%nat)))
    by (vm_compute; reflexivity).
  assert (Hp : (Consumer_Pause 0 consumerWorld).1 = None) by (vm_compute; reflexivity).
  assert (Hr : (Consumer_Resume 0 (Consumer_Pause 0 consumerWorld).2).1 = None)
    by (vm_compute; reflexivity).
  pose proof (Pause_then_Resume consumerWorld 0 _ Hc Hp Hr) as H. cbv zeta in H.
  destruct H as (_ & _ & H). rewrite H. vm_compute. reflexivity.
Defined.

(** The consumer of the example, closed by hand and closed by its
    transport. *)
Lemma Consumer_closures_compared_witness :
  ch_sent (channel (Consumer_transportClosed 0 consumerWorld).2)
  = ch_sent (channel consumerWorld) /\
  length (ch_sent (channel (Consumer_Close 0 consumerWorld).2))
  = S (length (ch_sent (channel consumerWorld))) /\
  pch_listeners (payloadChannel (Consumer_onNotification 0 "producerclose" [] consumerWorld).2)
  = pch_listeners (payloadChannel consumerWorld).
Proof.
  assert (Hc : consumers consumerWorld !! 0%nat
               = Some (default Consumer_absent (consumers consumerWorld !! 0%nat)))
    by (vm_compute; reflexivity).
  assert (H0 : c_closed (default Consumer_absent (consumers consumerWorld !! 0%nat)) = 0%N)
    by (vm_compute; reflexivity).
  pose proof (Consumer_closures_compared consumerWorld 0 _ [] Hc H0) as H. cbv zeta in H.
  destruct H as (_ & _ & _ & _ & Hp & H1 & H2 & _).
  split; [exact H2|]. split; [|exact Hp].
  rewrite H1. vm_compute. reflexivity.
Defined.

(** A [score] notification for the consumer of the example. *)
Lemma score_layers_trace_notifications_witness :
  consumers (Consumer_onNotification 0 "score" [] consumerWorld).2
  = alter (with_c_score (fun _ => ConsumerScore_zero)) 0%nat (consumers consumerWorld).
Proof.
  assert (Hc : consumers consumerWorld !! 0%nat
               = Some (default Consumer_absent (consumers consumerWorld !! 0%nat)))
    by (vm_compute; reflexivity).
  pose proof (score_layers_trace_notifications consumerWorld 0 _ [] Hc) as H.
  cbv zeta in H. destruct H as (H & _). exact H.
Defined.

(** An event no listener knows. *)
Lemma unknown_events_are_only_logged_witness :
  logs (Consumer_onNotification 0 "resize" [] consumerWorld).2
  = logs consumerWorld ++
    [ {| log_logger := "Consumer"; log_level := Error;
         log_format := quoted "ignoring unknown event " "%s" " in channel listener";
         log_args := [AStr "resize"] |} ] /\
  events (Consumer_onNotification 0 "resize" [] consumerWorld).2 = events consumerWorld.
Proof.
  assert (Hknown : "resize" ∉ ["producerclose"; "producerpause"; "producerresume"; "score";
                               "layerschange"; "trace"]).
  { intros H. repeat (apply elem_of_cons in H as [H|H]; [discriminate|]). inversion H. }
  assert (Hrtp : "resize" <> "rtp") by discriminate.
  pose proof (unknown_events_are_only_logged consumerWorld 0 "resize" [] [] Hknown Hrtp)
    as [H _].
  rewrite H. split; reflexivity.
Defined.

(** [Paused] in the options of [Consume] makes no difference. *)
Lemma Consume_ignores_other_options_witness :
  PipeTransport_Consume 0 (consumeOptions "producer-1")
  = PipeTransport_Consume 0
      {| opt_ProducerId := "producer-1";
         opt_RtpCapabilities := opt_RtpCapabilities (consumeOptions "producer-1");
         opt_Paused := true;
         opt_PreferredLayers := {| SpatialLayer := 2; TemporalLayer := 1 |};
         opt_AppData := None |}.
Proof.
  apply Consume_ignores_other_options; reflexivity.
Defined.

(** Consuming [producer-1] through the transport of the example. *)
Lemma Consume_builds_consumer_witness :
  emitted transportWorld
          (PipeTransport_Consume 0 (consumeOptions "producer-1") transportWorld).2
  = [ {| ev_emitter := TransportObserver 0; ev_name := "newconsumer";
         ev_args := [ArgConsumer 0] |} ] /\
  transports (PipeTransport_Consume 0 (consumeOptions "producer-1") transportWorld).2
  = alter (with_pt_ITransport (with_t_consumers (insert "uuid-0" 0%nat))) 0%nat
          (transports transportWorld).
Proof.
  assert (Ht : transports transportWorld !! 0%nat
               = Some (default PipeTransport_absent (transports transportWorld !! 0%nat)))
    by (vm_compute; reflexivity).
  assert (Hp : pt_getProducerById
                 (default PipeTransport_absent (transports transportWorld !! 0%nat))
                 (opt_ProducerId (consumeOptions "producer-1")) = Some exampleProducer)
    by (vm_compute; reflexivity).
  assert (Hs : (PipeTransport_Consume 0 (consumeOptions "producer-1") transportWorld).1
               = (Some 0%nat, None)) by (vm_compute; reflexivity).
  pose proof (Consume_builds_consumer transportWorld 0 _ _ exampleProducer 0%nat Ht Hp Hs)
    as H.
  cbv zeta in H. destruct H as (_ & _ & _ & _ & _ & He & Hm).
  split; [exact He|]. apply Hm. vm_compute. reflexivity.
Defined.

(** The consumer of the example leaves the map of the transport when it is
    closed. *)
Lemma consumed_then_closed_leaves_map_witness :
  absentFrom 0 "uuid-0"
    (Consumer_Close 0
       (PipeTransport_Consume 0 (consumeOptions "producer-1") transportWorld).2).2.
Proof.
  assert (Ht : transports transportWorld !! 0%nat
               = Some (default PipeTransport_absent (transports transportWorld !! 0%nat)))
    by (vm_compute; reflexivity).
  assert (Hs : (PipeTransport_Consume 0 (consumeOptions "producer-1") transportWorld).1
               = (Some 0%nat, None)) by (vm_compute; reflexivity).
  assert (Hid : uuid_NewV4 (uuids transportWorld) = "uuid-0") by (vm_compute; reflexivity).
  pose proof (consumed_then_closed_leaves_map transportWorld 0 _ _ 0%nat [] Ht Hs) as H.
  cbv zeta in H. destruct H as (_ & H & _). rewrite Hid in H. exact H.
Defined.

(** Connecting the transport of the example. *)
Lemma Connect_outcomes_witness :
  events (PipeTransport_Connect 0 {| conn_Ip := "10.0.0.1"; conn_Port := 5000;
                                     conn_SrtpParameters := {| srtp_raw := EmptyString |} |}
            transportWorld).2 = events transportWorld /\
  consumers (PipeTransport_Connect 0 {| conn_Ip := "10.0.0.1"; conn_Port := 5000;
                                        conn_SrtpParameters := {| srtp_raw := EmptyString |} |}
               transportWorld).2 = consumers transportWorld.
Proof.
  assert (Ht : transports transportWorld !! 0%nat
               = Some (default PipeTransport_absent (transports transportWorld !! 0%nat)))
    by (vm_compute; reflexivity).
  pose proof (Connect_outcomes transportWorld 0 _
                {| conn_Ip := "10.0.0.1"; conn_Port := 5000;
                   conn_SrtpParameters := {| srtp_raw := EmptyString |} |} Ht) as H.
  cbv zeta in H. destruct H as (H1 & H2 & _). split; [exact H1 | exact H2].
Defined.

(** Closing a transport that uses SCTP. *)
Lemma PipeTransport_Close_sctpState_witness :
  data_sctpState <$> (pt_data <$> transports (PipeTransport_Close 0 sctpTransportWorld).2
                                    !! 0%nat)
  = Some "closed".
Proof.
  assert (Ht : transports sctpTransportWorld !! 0%nat
               = Some (default PipeTransport_absent (transports sctpTransportWorld !! 0%nat)))
    by (vm_compute; reflexivity).
  assert (Hopen : t_closed (pt_ITransport
                    (default PipeTransport_absent (transports sctpTransportWorld !! 0%nat)))
                  = false) by (vm_compute; reflexivity).
  pose proof (PipeTransport_Close_sctpState sctpTransportWorld 0 _ Ht Hopen) as H.
  cbv zeta in H. destruct H as ((H & _) & _). rewrite H. vm_compute. reflexivity.
Defined.

(** A pipe transport made on the example worker hears its notifications. *)
Lemma newPipeTransport_listens_witness :
  (newPipeTransport exampleTransportParams pipeTransortData_zero spawnedWorld).1 = 0%nat /\
  events (newPipeTransport exampleTransportParams pipeTransortData_zero spawnedWorld).2
  = events spawnedWorld.
Proof.
  assert (Hfree : ch_listeners (channel spawnedWorld)
                    !! TransportId (tp_internal exampleTransportParams) = None)
    by (vm_compute; reflexivity).
  pose proof (newPipeTransport_listens spawnedWorld exampleTransportParams
                pipeTransortData_zero [] Hfree) as H.
  cbv zeta in H. destruct H as (H1 & _ & H2 & _).
  split; [rewrite H1; vm_compute; reflexivity | exact H2].
Defined.

Lemma closedRouterWorld_reachable : reachable closedRouterWorld.
Proof.
  unfold closedRouterWorld, routerWorld.
  repeat apply reachable_runAll. apply spawnedWorld_reachable.
Qed.

(** The closed worker of the example, which had made a router. *)
Lemma closed_worker_owns_no_router_witness : w_routers (worker closedRouterWorld) = ∅.
Proof.
  apply (closed_worker_owns_no_router closedRouterWorld closedRouterWorld_reachable).
  vm_compute. reflexivity.
Defined.

Lemma child_signalled_at_most_once_witness : signalledOnce closedRouterWorld.
Proof.
  exact (child_signalled_at_most_once closedRouterWorld closedRouterWorld_reachable).
Defined.

Lemma consumerWorld_reachable : reachable consumerWorld.
Proof.
  unfold consumerWorld, transportWorld.
  repeat apply reachable_runAll. apply spawnedWorld_reachable.
Qed.

(** The consumer of the example listens under its identifier, and is
    open. *)
Lemma closed_consumer_hears_nothing_witness :
  exists consumer,
    consumers consumerWorld !! 0%nat = Some consumer /\
    (Consumer_Closed 0 consumerWorld).1 = false /\
    (Consumer_Id 0 consumerWorld).1 = "uuid-0".
Proof.
  apply (closed_consumer_hears_nothing consumerWorld "uuid-0"
           [ {| sub_once := false; sub_listener := ConsumerNotifications 0 |} ]
           {| sub_once := false; sub_listener := ConsumerNotifications 0 |} 0%nat
           consumerWorld_reachable).
  - vm_compute. reflexivity.
  - apply list_elem_of_here.
  - reflexivity.
Defined.
